(** * Token lifecycle and authorization of the TypeScript/Express starter

    A shallow embedding of [src/services/token.service.ts],
    [src/services/auth.service.ts], [src/services/user.service.ts],
    [src/config/passport.ts], [src/config/roles.ts],
    [src/middlewares/auth.ts] and [src/utils/validation.ts].

    Conventions of the embedding.
    - The Prisma client is a state monad over the two tables
      ([users], [tokens]); a rejected promise is the [Throw] result, and
      [try { ... } catch] is [try_catch].  A table is the list of its rows in
      insertion order, which is the order [findFirst] sees.
    - What the environment decides is an argument of the operation: the
      clock reading [now] (milliseconds since the epoch, as [Date.now()])
      and the identifier the store gives a new row ([@default(cuid())]).
      One request reads the clock once.
    - [jsonwebtoken] is modelled symbolically: a compact JWS is its payload
      together with the key of its HMAC, every other string is not a JWT,
      its first part being no header.
    - A string is the list of its code units, each below 256. *)

From Stdlib Require Import String Ascii List ZArith Bool Lia DecimalString.
From Stdlib Require DecimalPos.
Import ListNotations.
Open Scope string_scope.
Open Scope Z_scope.

(** ** Enumerations of the Prisma schema *)

Inductive TokenType := ACCESS | REFRESH | RESET_PASSWORD | VERIFY_EMAIL.

Inductive Role := USER | ADMIN.

Definition TokenType_eqb (a b : TokenType) : bool :=
  match a, b with
  | ACCESS, ACCESS | REFRESH, REFRESH
  | RESET_PASSWORD, RESET_PASSWORD | VERIFY_EMAIL, VERIFY_EMAIL => true
  | _, _ => false
  end.

(** ** Errors and results *)

Inductive Error :=
| ApiError (statusCode : Z) (message : string)
| JsError (message : string)
| JsonWebTokenError (message : string)
| TokenExpiredError (message : string)
| PrismaError (code : string).

Inductive Result (A : Type) :=
| Ok (a : A)
| Throw (e : Error).
Arguments Ok {A} a.
Arguments Throw {A} e.

Definition UNAUTHORIZED : Z := 401.
Definition FORBIDDEN : Z := 403.
Definition BAD_REQUEST : Z := 400.
Definition NOT_FOUND : Z := 404.

(** ** Time: [dayjs] on millisecond timestamps

    [unix()] is [Math.floor(ms / 1000)]; a day added is 86400 seconds, as
    it is for a process that runs in UTC. *)

Definition unix (t : Z) : Z := t / 1000.
Definition add_minutes (t n : Z) : Z := t + n * 60000.
Definition add_days (t n : Z) : Z := t + n * 86400000.

(** ** JSON web tokens *)

Module TokenPayload.
Record t := mk { sub : string; iat : Z; exp : Z; type : TokenType }.
End TokenPayload.

Inductive JwtString :=
| Jws (payload : TokenPayload.t) (key : string)
| NotJwt (s : string).

Definition TokenPayload_eqb (p q : TokenPayload.t) : bool :=
  (TokenPayload.sub p =? TokenPayload.sub q)%string
  && (TokenPayload.iat p =? TokenPayload.iat q)
  && (TokenPayload.exp p =? TokenPayload.exp q)
  && TokenType_eqb (TokenPayload.type p) (TokenPayload.type q).

Definition JwtString_eqb (a b : JwtString) : bool :=
  match a, b with
  | Jws p k, Jws q l => TokenPayload_eqb p q && (k =? l)%string
  | NotJwt s, NotJwt s' => (s =? s')%string
  | _, _ => false
  end.

(** [jwt.sign(payload, secret)]: refuses an empty secret. *)
Definition jwt_sign (payload : TokenPayload.t) (secret : string) : Result JwtString :=
  if (secret =? "")%string then Throw (JsError "secretOrPrivateKey must have a value")
  else Ok (Jws payload secret).

(** The number of dots of a string: [s.split('.')] has one part more. *)
Fixpoint dots (s : string) : nat :=
  match s with
  | EmptyString => 0%nat
  | String c s' => ((if Ascii.eqb c "."%char then 1 else 0) + dots s')%nat
  end.

(** [jwt.verify(token, secret)]: the signature first, then the [exp] claim
    against the clock in whole seconds ([clockTimestamp >= payload.exp]).
    A string that is not a JWT is refused as missing when it is empty, as
    malformed when it has not three parts, and as invalid otherwise. *)
Definition jwt_verify (now : Z) (token : JwtString) (secret : string)
  : Result TokenPayload.t :=
  match token with
  | NotJwt s =>
      if (s =? "")%string then Throw (JsonWebTokenError "jwt must be provided")
      else if negb (dots s =? 2)%nat
      then Throw (JsonWebTokenError "jwt malformed")
      else Throw (JsonWebTokenError "invalid token")
  | Jws payload key =>
      if (secret =? "")%string
      then Throw (JsonWebTokenError "secret or public key must be provided")
      else if negb (key =? secret)%string
      then Throw (JsonWebTokenError "invalid signature")
      else if TokenPayload.exp payload <=? unix now
      then Throw (TokenExpiredError "jwt expired")
      else Ok payload
  end.

(** The [exp] claim a token string carries, whoever signed it. *)
Definition embedded_exp (token : JwtString) : option Z :=
  match token with
  | Jws payload _ => Some (TokenPayload.exp payload)
  | NotJwt _ => None
  end.

(** ** Rows of the two tables *)

Module User.
Record t := mk {
  id : string;
  email : string;
  password : option string;
  name : string;
  role : Role;
  isEmailVerified : bool;
  createdAt : Z;
  updatedAt : Z
}.
End User.

Module Token.
Record t := mk {
  id : string;
  token : JwtString;
  type : TokenType;
  expires : Z;
  blacklisted : bool;
  createdAt : Z;
  userId : string
}.
End Token.

Record Db := mkDb { users : list User.t; tokens : list Token.t }.

(** ** The monad of store operations *)

Definition M (A : Type) : Type := Db -> Result A * Db.

Definition ret {A} (a : A) : M A := fun db => (Ok a, db).

Definition throw {A} (e : Error) : M A := fun db => (Throw e, db).

Definition bind {A B} (m : M A) (k : A -> M B) : M B :=
  fun db =>
    match m db with
    | (Ok a, db') => k a db'
    | (Throw e, db') => (Throw e, db')
    end.

Definition try_catch {A} (m : M A) (handler : Error -> M A) : M A :=
  fun db =>
    match m db with
    | (Ok a, db') => (Ok a, db')
    | (Throw e, db') => handler e db'
    end.

Definition lift {A} (r : Result A) : M A := fun db => (r, db).

Notation "x <- m ;; k" := (bind m (fun x => k))
  (at level 61, m at next level, right associativity).
Notation "m ;;; k" := (bind m (fun _ => k))
  (at level 61, right associativity).

(** ** Prisma client *)

Definition has_token_id (tid : string) (db : Db) : bool :=
  existsb (fun r => (Token.id r =? tid)%string) (tokens db).

Definition has_user_id (uid : string) (db : Db) : bool :=
  existsb (fun u => (User.id u =? uid)%string) (users db).

(** [prisma.token.create]: the primary key is unique (P2002) and [userId]
    references a user (P2003).  The [token] column has no constraint, as
    in the Prisma schema the architecture guide prints; the SQL migration
    of the repository indexes it unique, and a table built from that
    refuses a string it holds already. *)
Definition token_create (tid : string) (now : Z) (token : JwtString)
    (userId : string) (expires : Z) (type : TokenType) (blacklisted : bool)
  : M Token.t :=
  fun db =>
    if has_token_id tid db then (Throw (PrismaError "P2002"), db)
    else if negb (has_user_id userId db) then (Throw (PrismaError "P2003"), db)
    else
      let tokenDoc := Token.mk tid token type expires blacklisted now userId in
      (Ok tokenDoc, mkDb (users db) (tokens db ++ [tokenDoc])).

Definition token_findFirst (where_ : Token.t -> bool) : M (option Token.t) :=
  fun db => (Ok (find where_ (tokens db)), db).

(** [prisma.token.delete({ where: { id } })]: P2025 when no row has the id. *)
Definition token_delete (tid : string) : M Token.t :=
  fun db =>
    match find (fun r => (Token.id r =? tid)%string) (tokens db) with
    | Some r =>
        (Ok r, mkDb (users db)
                 (filter (fun r => negb (Token.id r =? tid)%string) (tokens db)))
    | None => (Throw (PrismaError "P2025"), db)
    end.

Definition token_deleteMany (where_ : Token.t -> bool) : M nat :=
  fun db =>
    (Ok (length (filter where_ (tokens db))),
     mkDb (users db) (filter (fun r => negb (where_ r)) (tokens db))).

Definition user_find (where_ : User.t -> bool) : M (option User.t) :=
  fun db => (Ok (find where_ (users db)), db).

(** The [select] of the reading functions: every column but [password]. *)
Definition select_public (u : User.t) : User.t :=
  User.mk (User.id u) (User.email u) None (User.name u) (User.role u)
    (User.isEmailVerified u) (User.createdAt u) (User.updatedAt u).

(** [prisma.user.create]: [id] and [email] are unique (P2002); the email is
    compared as it is stored. *)
Definition user_create (uid : string) (now : Z) (email password name : string)
    (role : Role) (isEmailVerified : bool) : M User.t :=
  fun db =>
    if has_user_id uid db then (Throw (PrismaError "P2002"), db)
    else if existsb (fun u => (User.email u =? email)%string) (users db)
    then (Throw (PrismaError "P2002"), db)
    else
      let user :=
        User.mk uid email (Some password) name role isEmailVerified now now in
      (Ok user, mkDb (users db ++ [user]) (tokens db)).

(** The [data] of [prisma.user.update]: absent fields keep their value. *)
Record UpdateUserData := mkUpdate {
  upd_name : option string;
  upd_email : option string;
  upd_password : option string;
  upd_role : option Role;
  upd_isEmailVerified : option bool
}.

Definition or_else {A} (o : option A) (d : A) : A :=
  match o with Some a => a | None => d end.

Definition apply_update (now : Z) (d : UpdateUserData) (u : User.t) : User.t :=
  User.mk (User.id u)
    (or_else (upd_email d) (User.email u))
    (match upd_password d with Some p => Some p | None => User.password u end)
    (or_else (upd_name d) (User.name u))
    (or_else (upd_role d) (User.role u))
    (or_else (upd_isEmailVerified d) (User.isEmailVerified u))
    (User.createdAt u) now.

(** [prisma.user.update({ where: { id }, data })]: P2025 when the row is
    missing, P2002 when the new email belongs to another row. *)
Definition user_update (uid : string) (now : Z) (d : UpdateUserData) : M User.t :=
  fun db =>
    match find (fun u => (User.id u =? uid)%string) (users db) with
    | None => (Throw (PrismaError "P2025"), db)
    | Some u =>
        let clash :=
          match upd_email d with
          | Some e =>
              existsb (fun v => (User.email v =? e)%string
                                && negb (User.id v =? uid)%string) (users db)
          | None => false
          end in
        if clash then (Throw (PrismaError "P2002"), db)
        else
          let u' := apply_update now d u in
          (Ok u',
           mkDb (map (fun v => if (User.id v =? uid)%string
                               then apply_update now d v else v) (users db))
                (tokens db))
    end.

(** ** [src/utils/validation.ts] *)

Definition code (c : ascii) : nat := nat_of_ascii c.

(** The class [\s] on code units below 256. *)
Definition is_space (c : ascii) : bool :=
  let n := code c in
  ((9 <=? n) && (n <=? 13) || (n =? 32) || (n =? 160))%nat.

(** [toLowerCase] on code units below 256: the capitals A to Z, and those
    of Latin-1 (192 to 222 but the multiplication sign 215), sit 32 below
    their small letters; no other code unit of that range changes. *)
Definition lower_char (c : ascii) : ascii :=
  let n := code c in
  if ((65 <=? n) && (n <=? 90)
      || (192 <=? n) && (n <=? 222) && negb (n =? 215))%nat
  then ascii_of_nat (n + 32) else c.

Fixpoint toLowerCase (s : string) : string :=
  match s with
  | EmptyString => EmptyString
  | String c s' => String (lower_char c) (toLowerCase s')
  end.

Fixpoint trimStart (s : string) : string :=
  match s with
  | String c s' => if is_space c then trimStart s' else s
  | EmptyString => EmptyString
  end.

Definition string_rev (s : string) : string :=
  string_of_list_ascii (rev (list_ascii_of_string s)).

Definition trim (s : string) : string :=
  string_rev (trimStart (string_rev (trimStart s))).

Definition is_lower_alnum (c : ascii) : bool :=
  let n := code c in
  ((97 <=? n) && (n <=? 122) || (48 <=? n) && (n <=? 57))%nat.

(** [/^c[a-z0-9]{24}$/] *)
Definition isValidCuid (cuid : string) : bool :=
  match cuid with
  | String c rest =>
      (code c =? 99)%nat && (String.length rest =? 24)%nat
      && forallb is_lower_alnum (list_ascii_of_string rest)
  | EmptyString => false
  end.

(** A character of the class [[^\s@]]. *)
Definition is_atom (c : ascii) : bool :=
  negb (is_space c) && negb (code c =? 64)%nat.

Fixpoint split_at_first (p : ascii -> bool) (l : list ascii)
  : option (list ascii * list ascii) :=
  match l with
  | [] => None
  | c :: l' =>
      if p c then Some ([], l')
      else match split_at_first p l' with
           | Some (a, b) => Some (c :: a, b)
           | None => None
           end
  end.

(** [/^[^\s@]+@[^\s@]+\.[^\s@]+$/]: one [@], atoms on both sides, and on
    the right a dot that is neither the first nor the last character. *)
Definition emailRegex_test (s : string) : bool :=
  match split_at_first (fun c => (code c =? 64)%nat) (list_ascii_of_string s) with
  | Some (loc, dom) =>
      negb (length loc =? 0)%nat && forallb is_atom loc && forallb is_atom dom
      && existsb (fun c => (code c =? 46)%nat) (removelast (tl dom))
  | None => false
  end.

Definition isValidEmail (email : string) : bool :=
  negb (email =? "")%string
  && emailRegex_test (toLowerCase (trim email))
  && (String.length email <=? 255)%nat.

(** ** [src/config/config.ts] and [src/config/roles.ts] *)

Record JwtConfig := mkJwtConfig {
  secret : string;
  accessExpirationMinutes : Z;
  refreshExpirationDays : Z;
  resetPasswordExpirationMinutes : Z;
  verifyEmailExpirationMinutes : Z
}.

Record Config := mkConfig { jwt : JwtConfig }.

Definition allRoles : list (Role * list string) :=
  [ (USER, []); (ADMIN, ["getUsers"; "manageUsers"]) ].

Definition Role_eqb (a b : Role) : bool :=
  match a, b with
  | USER, USER | ADMIN, ADMIN => true
  | _, _ => false
  end.

(** [roleRights.get(role)] *)
Definition roleRights_get (r : Role) : option (list string) :=
  option_map snd (find (fun e => Role_eqb (fst e) r) allRoles).

(** [array.includes(x)] on strings. *)
Definition includes (l : list string) (x : string) : bool :=
  existsb (fun y => (y =? x)%string) l.

(** A string in a condition: the empty string is falsy. *)
Definition truthy (s : option string) : bool :=
  match s with
  | Some v => negb (v =? "")%string
  | None => false
  end.

(** ** Results handed to callers *)

Record TokenWithExpiry := mkTokenWithExpiry {
  tw_token : JwtString;
  tw_expires : Z
}.

Record AuthTokens := mkAuthTokens {
  access : TokenWithExpiry;
  refresh : TokenWithExpiry
}.

Record CreateUserData := mkCreateUserData {
  cu_name : string;
  cu_email : string;
  cu_password : string;
  cu_role : option Role;
  cu_isEmailVerified : option bool
}.

(** The part of an Express request the middleware reads and writes. *)
Record Req := mkReq {
  params_userId : option string;
  req_user : option User.t
}.

Inductive Decision :=
| Resolve
| Reject (e : Error).

Section Services.

(** Process-wide configuration and the two library functions whose
    results the services only pass on: [validate] of [uuid] and
    [bcrypt.hash(password, rounds)]. *)
Variable config : Config.
Variable validateUuid : string -> bool.
Variable bcrypt_hash : string -> nat -> string.

(** *** [src/utils/validation.ts], continued *)

Definition isValidUuid (id : string) : bool :=
  if (id =? "")%string then false
  else validateUuid id || isValidCuid id.

(** *** [src/services/user.service.ts] *)

Definition isEmailTaken (email : string) (excludeUserId : option string)
  : M bool :=
  let where_ (u : User.t) :=
    (User.email u =? email)%string
    && (if truthy excludeUserId
        then negb (User.id u =? or_else excludeUserId "")%string
        else true) in
  user <- user_find where_ ;;
  ret (match user with Some _ => true | None => false end).

Definition createUser (uid : string) (now : Z) (userBody : CreateUserData)
  : M User.t :=
  if negb (isValidEmail (cu_email userBody))
  then throw (ApiError BAD_REQUEST "Invalid email format")
  else
    taken <- isEmailTaken (cu_email userBody) None ;;
    if (taken : bool) then throw (ApiError BAD_REQUEST "Email already taken")
    else
      let hashedPassword := bcrypt_hash (cu_password userBody) 8 in
      user <- user_create uid now (cu_email userBody) hashedPassword
                (cu_name userBody) (or_else (cu_role userBody) USER)
                (or_else (cu_isEmailVerified userBody) false) ;;
      ret (select_public user).

Definition getUserById (id : string) : M (option User.t) :=
  if negb (isValidUuid id)
  then throw (ApiError BAD_REQUEST "Invalid user ID format")
  else
    user <- user_find (fun u => (User.id u =? id)%string) ;;
    ret (option_map select_public user).

Definition getUserByEmail (email : string) : M (option User.t) :=
  user <- user_find (fun u => (User.email u =? toLowerCase email)%string) ;;
  ret (option_map select_public user).

Definition getUserByEmailWithPassword (email : string) : M (option User.t) :=
  user_find (fun u => (User.email u =? toLowerCase email)%string).

Definition updateUserById (userId : string) (now : Z)
    (updateBody : UpdateUserData) : M User.t :=
  if negb (isValidUuid userId)
  then throw (ApiError BAD_REQUEST "Invalid user ID format")
  else
    user <- getUserById userId ;;
    match user with
    | None => throw (ApiError NOT_FOUND "User not found")
    | Some _ =>
        if truthy (upd_email updateBody)
           && negb (isValidEmail (or_else (upd_email updateBody) ""))
        then throw (ApiError BAD_REQUEST "Invalid email format")
        else
          taken <- (if truthy (upd_email updateBody)
                    then isEmailTaken (or_else (upd_email updateBody) "")
                           (Some userId)
                    else ret false) ;;
          if (taken : bool)
          then throw (ApiError BAD_REQUEST "Email already taken")
          else
            let updateData :=
              if truthy (upd_password updateBody)
              then mkUpdate (upd_name updateBody) (upd_email updateBody)
                     (Some (bcrypt_hash
                              (or_else (upd_password updateBody) "") 8))
                     (upd_role updateBody) (upd_isEmailVerified updateBody)
              else updateBody in
            user_update userId now updateData
    end.

(** *** [src/services/token.service.ts] *)

Definition generateToken (now : Z) (userId : string) (expires : Z)
    (type : TokenType) (secret : string) : Result JwtString :=
  let payload := TokenPayload.mk userId (unix now) (unix expires) type in
  jwt_sign payload secret.

Definition saveToken (tid : string) (now : Z) (token : JwtString)
    (userId : string) (expires : Z) (type : TokenType) (blacklisted : bool)
  : M Token.t :=
  tokenDoc <- token_create tid now token userId expires type blacklisted ;;
  ret tokenDoc.

Definition verifyToken (now : Z) (token : JwtString) (type : TokenType)
  : M Token.t :=
  payload <- lift (jwt_verify now token (secret (jwt config))) ;;
  tokenDoc <- token_findFirst (fun r =>
                JwtString_eqb (Token.token r) token
                && TokenType_eqb (Token.type r) type
                && (Token.userId r =? TokenPayload.sub payload)%string
                && negb (Token.blacklisted r)) ;;
  match tokenDoc with
  | None => throw (JsError "Token not found")
  | Some doc => ret doc
  end.

Definition generateAuthTokens (tid : string) (now : Z) (user : User.t)
  : M AuthTokens :=
  let accessTokenExpires :=
    add_minutes now (accessExpirationMinutes (jwt config)) in
  accessToken <- lift (generateToken now (User.id user) accessTokenExpires
                         ACCESS (secret (jwt config))) ;;
  let refreshTokenExpires :=
    add_days now (refreshExpirationDays (jwt config)) in
  refreshToken <- lift (generateToken now (User.id user) refreshTokenExpires
                          REFRESH (secret (jwt config))) ;;
  saveToken tid now refreshToken (User.id user) refreshTokenExpires
    REFRESH false ;;;
  ret (mkAuthTokens (mkTokenWithExpiry accessToken accessTokenExpires)
         (mkTokenWithExpiry refreshToken refreshTokenExpires)).

Definition generateResetPasswordToken (tid : string) (now : Z)
    (email : string) : M JwtString :=
  user <- getUserByEmail email ;;
  match user with
  | None => throw (ApiError NOT_FOUND "No users found with this email")
  | Some user =>
      let expires :=
        add_minutes now (resetPasswordExpirationMinutes (jwt config)) in
      resetPasswordToken <- lift (generateToken now (User.id user) expires
                                    RESET_PASSWORD (secret (jwt config))) ;;
      saveToken tid now resetPasswordToken (User.id user) expires
        RESET_PASSWORD false ;;;
      ret resetPasswordToken
  end.

Definition generateVerifyEmailToken (tid : string) (now : Z) (user : User.t)
  : M JwtString :=
  let expires :=
    add_minutes now (verifyEmailExpirationMinutes (jwt config)) in
  verifyEmailToken <- lift (generateToken now (User.id user) expires
                              VERIFY_EMAIL (secret (jwt config))) ;;
  saveToken tid now verifyEmailToken (User.id user) expires
    VERIFY_EMAIL false ;;;
  ret verifyEmailToken.

(** *** [src/services/auth.service.ts] *)

Definition logout (refreshToken : JwtString) : M unit :=
  refreshTokenDoc <- token_findFirst (fun r =>
                       JwtString_eqb (Token.token r) refreshToken
                       && TokenType_eqb (Token.type r) REFRESH
                       && negb (Token.blacklisted r)) ;;
  match refreshTokenDoc with
  | None => throw (ApiError NOT_FOUND "Not found")
  | Some doc => token_delete (Token.id doc) ;;; ret tt
  end.

(** The [try] block ends with [return tokenService.generateAuthTokens(user)]:
    the promise is handed back without [await], so the block is left before
    the issuance settles and [catch] sees what precedes it only.  A
    rejection of the issuance is the rejection of [refreshAuth] itself. *)
Definition refreshAuth (tid : string) (now : Z) (refreshToken : JwtString)
  : M AuthTokens :=
  user <-
    try_catch
      (refreshTokenDoc <- verifyToken now refreshToken REFRESH ;;
       user <- getUserById (Token.userId refreshTokenDoc) ;;
       match user with
       | None => throw (JsError "")
       | Some user => token_delete (Token.id refreshTokenDoc) ;;; ret user
       end)
      (fun _ => throw (ApiError UNAUTHORIZED "Please authenticate")) ;;
  generateAuthTokens tid now user.

Definition resetPassword (now : Z) (resetPasswordToken : JwtString)
    (newPassword : string) : M unit :=
  try_catch
    (resetPasswordTokenDoc <-
       verifyToken now resetPasswordToken RESET_PASSWORD ;;
     user <- getUserById (Token.userId resetPasswordTokenDoc) ;;
     match user with
     | None => throw (JsError "")
     | Some user =>
         updateUserById (User.id user) now
           (mkUpdate None None (Some newPassword) None None) ;;;
         token_deleteMany (fun r =>
           (Token.userId r =? User.id user)%string
           && TokenType_eqb (Token.type r) RESET_PASSWORD) ;;;
         ret tt
     end)
    (fun _ => throw (ApiError UNAUTHORIZED "Password reset failed")).

Definition verifyEmail (now : Z) (verifyEmailToken : JwtString) : M unit :=
  try_catch
    (verifyEmailTokenDoc <- verifyToken now verifyEmailToken VERIFY_EMAIL ;;
     user <- getUserById (Token.userId verifyEmailTokenDoc) ;;
     match user with
     | None => throw (JsError "")
     | Some user =>
         token_deleteMany (fun r =>
           (Token.userId r =? User.id user)%string
           && TokenType_eqb (Token.type r) VERIFY_EMAIL) ;;;
         updateUserById (User.id user) now
           (mkUpdate None None None None (Some true)) ;;;
         ret tt
     end)
    (fun _ => throw (ApiError UNAUTHORIZED "Email verification failed")).

(** *** [src/config/passport.ts] *)

(** The two arguments [jwtVerify] hands to [done]. *)
Definition jwtVerify (payload : TokenPayload.t)
  : M (option Error * option User.t) :=
  try_catch
    (if negb (TokenType_eqb (TokenPayload.type payload) ACCESS)
     then throw (JsError "Invalid token type")
     else
       user <- getUserById (TokenPayload.sub payload) ;;
       match user with
       | None => ret (None, None)
       | Some user => ret (None, Some user)
       end)
    (fun error => ret (Some error, None)).

(** [passport.authenticate('jwt', { session: false }, callback)] with the
    [JwtStrategy] of [passport-jwt]: the three arguments the callback
    receives.  No bearer token and a token [jwt.verify] refuses are
    failures, reported through [info]; an error handed to [done] comes
    back as [err]; [done(null, false)] is a failure without [info]. *)
Definition passport_authenticate (now : Z) (bearer : option JwtString)
  : M (option Error * option User.t * option Error) :=
  match bearer with
  | None => ret (None, None, Some (JsError "No auth token"))
  | Some token =>
      match jwt_verify now token (secret (jwt config)) with
      | Throw jwt_err => ret (None, None, Some jwt_err)
      | Ok payload =>
          r <- jwtVerify payload ;;
          match r with
          | (Some err, _) => ret (Some err, None, None)
          | (None, None) => ret (None, None, None)
          | (None, Some user) => ret (None, Some user, None)
          end
      end
  end.

(** *** [src/middlewares/auth.ts] *)

Definition verifyCallback (req : Req) (requiredRights : list string)
    (allowSelfAccess : bool)
    (err : option Error) (user : option User.t) (info : option Error)
  : Req * Decision :=
  match err, info, user with
  | None, None, Some user =>
      let req := mkReq (params_userId req) (Some user) in
      if (length requiredRights =? 0)%nat then (req, Resolve)
      else
        let userRights := or_else (roleRights_get (User.role user)) [] in
        let hasRequiredRights :=
          forallb (fun requiredRight => includes userRights requiredRight)
            requiredRights in
        if hasRequiredRights then (req, Resolve)
        else if allowSelfAccess && truthy (params_userId req)
        then
          if negb (isValidUuid (or_else (params_userId req) ""))
          then (req, Reject (ApiError BAD_REQUEST "Invalid user ID format"))
          else if (or_else (params_userId req) "" =? User.id user)%string
          then (req, Resolve)
          else (req, Reject (ApiError FORBIDDEN "Insufficient permissions"))
        else (req, Reject (ApiError FORBIDDEN "Insufficient permissions"))
  | _, _, _ => (req, Reject (ApiError UNAUTHORIZED "Please authenticate"))
  end.

Definition auth (requiredRights : list string) (now : Z) (req : Req)
    (bearer : option JwtString) : M (Req * Decision) :=
  r <- passport_authenticate now bearer ;;
  let '(err, user, info) := r in
  ret (verifyCallback req requiredRights false err user info).

Definition authWithSelfAccess (requiredRights : list string) (now : Z)
    (req : Req) (bearer : option JwtString) : M (Req * Decision) :=
  r <- passport_authenticate now bearer ;;
  let '(err, user, info) := r in
  ret (verifyCallback req requiredRights true err user info).

(** *** States of the store the services can produce

    The store starts empty; every later state is the result of one call
    of a service function.  Nothing else writes to the tables: [saveToken]
    is called by the three [generate] functions only. *)
Inductive reachable : Db -> Prop :=
| reach_init : reachable (mkDb [] [])
| reach_createUser db uid now userBody :
    reachable db -> reachable (snd (createUser uid now userBody db))
| reach_updateUserById db userId now updateBody :
    reachable db ->
    reachable (snd (updateUserById userId now updateBody db))
| reach_generateAuthTokens db tid now user :
    reachable db -> reachable (snd (generateAuthTokens tid now user db))
| reach_generateResetPasswordToken db tid now email :
    reachable db ->
    reachable (snd (generateResetPasswordToken tid now email db))
| reach_generateVerifyEmailToken db tid now user :
    reachable db ->
    reachable (snd (generateVerifyEmailToken tid now user db))
| reach_verifyToken db now token type :
    reachable db -> reachable (snd (verifyToken now token type db))
| reach_logout db refreshToken :
    reachable db -> reachable (snd (logout refreshToken db))
| reach_refreshAuth db tid now refreshToken :
    reachable db -> reachable (snd (refreshAuth tid now refreshToken db))
| reach_resetPassword db now resetPasswordToken newPassword :
    reachable db ->
    reachable (snd (resetPassword now resetPasswordToken newPassword db))
| reach_verifyEmail db now verifyEmailToken :
    reachable db -> reachable (snd (verifyEmail now verifyEmailToken db)).

End Services.

(** ** Properties of stored rows used in the statements *)

(** The rows [verifyToken] accepts for a token, a kind and a payload. *)
Definition verify_where (token : JwtString) (type : TokenType)
    (payload : TokenPayload.t) (r : Token.t) : bool :=
  JwtString_eqb (Token.token r) token
  && TokenType_eqb (Token.type r) type
  && (Token.userId r =? TokenPayload.sub payload)%string
  && negb (Token.blacklisted r).

(** A stored row whose kind is the kind its token string was signed with. *)
Definition row_typed (r : Token.t) : bool :=
  match Token.token r with
  | Jws payload _ => TokenType_eqb (TokenPayload.type payload) (Token.type r)
  | NotJwt _ => false
  end.

(** A row satisfies [row_typed]. *)
Definition typed (r : Token.t) : Prop := row_typed r = true.

(** Two rows that agree on every column but [expires]. *)
Definition same_but_expires (r r' : Token.t) : Prop :=
  Token.id r = Token.id r' /\ Token.token r = Token.token r'
  /\ Token.type r = Token.type r' /\ Token.blacklisted r = Token.blacklisted r'
  /\ Token.createdAt r = Token.createdAt r' /\ Token.userId r = Token.userId r'.

(** The rows of kind [type] that belong to user [uid]. *)
Definition owned (uid : string) (type : TokenType) (r : Token.t) : bool :=
  (Token.userId r =? uid)%string && TokenType_eqb (Token.type r) type.

(** The permission set of a role, as [verifyCallback] computes it. *)
Definition permissions (r : Role) : list string :=
  or_else (roleRights_get r) [].

(** Whether an operation returned rather than threw. *)
Definition succeeds {A} (r : Result A) : bool :=
  match r with
  | Ok _ => true
  | Throw _ => false
  end.

(** Two results of [verifyToken] that are the same error, or rows that
    agree on every column but [expires]. *)
Definition same_outcome (r r' : Result Token.t) : Prop :=
  match r, r' with
  | Ok doc, Ok doc' => same_but_expires doc doc'
  | Throw e, Throw e' => e = e'
  | _, _ => False
  end.

(** ** Relations between the store before and after an operation *)

(** [m] takes every store to one related to it by [R], whatever it returns. *)
Definition respects {A} (R : Db -> Db -> Prop) (m : M A) : Prop :=
  forall db, R db (snd (m db)).

(** The token table is what it was. *)
Definition same_tokens (db db' : Db) : Prop := tokens db' = tokens db.

(** Rows were only added, at the end of the token table. *)
Definition only_adds (db db' : Db) : Prop :=
  users db' = users db /\ exists l, tokens db' = (tokens db ++ l)%list.

(** A property of every stored token row is kept. *)
Definition keeps (Q : Token.t -> Prop) (db db' : Db) : Prop :=
  Forall Q (tokens db) -> Forall Q (tokens db').

(** ** Concrete values for the examples *)

Definition is_hex (c : ascii) : bool :=
  let n := code (lower_char c) in
  ((48 <=? n) && (n <=? 57) || (97 <=? n) && (n <=? 102))%nat.

(** The test of the [uuid] package: the 8-4-4-4-12 shape with a version
    digit 1 to 8 and a variant digit 8, 9, a or b, or the nil or max UUID. *)
Definition uuid_validate (id : string) : bool :=
  let l := list_ascii_of_string (toLowerCase id) in
  let dash i := (code (nth i l "x"%char) =? 45)%nat in
  let hexes :=
    forallb (fun i => is_hex (nth i l "x"%char))
      (seq 0 8 ++ seq 9 4 ++ seq 14 4 ++ seq 19 4 ++ seq 24 12)%list in
  let version := code (nth 14 l "x"%char) in
  let variant := code (nth 19 l "x"%char) in
  ((length l =? 36)%nat && dash 8%nat && dash 13%nat && dash 18%nat
   && dash 23%nat && hexes
   && ((49 <=? version) && (version <=? 56))%nat
   && ((variant =? 56) || (variant =? 57) || (variant =? 97)
       || (variant =? 98))%nat)
  || (toLowerCase id =? "00000000-0000-0000-0000-000000000000")%string
  || (toLowerCase id =? "ffffffff-ffff-ffff-ffff-ffffffffffff")%string.

Definition bcrypt_stub (password : string) (rounds : nat) : string :=
  "$2a$08$" ++ password.

Definition test_config : Config :=
  mkConfig (mkJwtConfig "test-jwt-secret-key-for-testing-purposes-only"
              30 30 10 10).

Definition alice_id : string := "cjld2cjxh0000qzrmn831i7rn".
Definition bob_id : string := "123e4567-e89b-12d3-a456-426614174000".

Definition alice : User.t :=
  User.mk alice_id "alice@example.com" (Some "$2a$08$Secret123!") "Alice"
    USER false 0 0.

Definition bob : User.t :=
  User.mk bob_id "bob@example.com" (Some "$2a$08$Secret456!") "Bob"
    ADMIN true 0 0.

Definition db_users : Db := mkDb [alice; bob] [].

Definition test_secret : string := secret (jwt test_config).

(** Alice logs in at 1000.000 s: the store gives the refresh row the id
    [tok1]. *)
Definition db_login : Db :=
  snd (generateAuthTokens test_config "tok1" 1000000 alice db_users).

Definition alice_access : JwtString :=
  Jws (TokenPayload.mk alice_id 1000 2800 ACCESS) test_secret.

Definition alice_refresh : JwtString :=
  Jws (TokenPayload.mk alice_id 1000 2593000 REFRESH) test_secret.

Definition login_row : Token.t :=
  Token.mk "tok1" alice_refresh REFRESH 2593000000 false 1000000 alice_id.

(** She then asks for a password reset and for an email verification. *)
Definition db_reset : Db :=
  snd (generateResetPasswordToken test_config "tok3" 1000000
         "alice@example.com" db_login).

Definition alice_reset : JwtString :=
  Jws (TokenPayload.mk alice_id 1000 1600 RESET_PASSWORD) test_secret.

Definition db_verify : Db :=
  snd (generateVerifyEmailToken test_config "tok5" 1000000 alice db_login).

Definition alice_verify : JwtString :=
  Jws (TokenPayload.mk alice_id 1000 1600 VERIFY_EMAIL) test_secret.

(** A reset-password token issued with a duration of minus one minute. *)
Definition expired_config : Config :=
  mkConfig (mkJwtConfig test_secret 30 30 (-1) 10).

Definition db_expired : Db :=
  snd (generateResetPasswordToken expired_config "tok4" 1000000
         "alice@example.com" db_users).

Definition expired_reset : JwtString :=
  Jws (TokenPayload.mk alice_id 1000 940 RESET_PASSWORD) test_secret.

(** The store after the login, with the stored expiry of the refresh row
    moved into the past. *)
Definition stale_row : Token.t :=
  Token.mk "tok1" alice_refresh REFRESH 5 false 1000000 alice_id.

Definition db_stale : Db := mkDb [alice; bob] [stale_row].

(** * More of the code

    The functions below are the rest of [src/services/user.service.ts],
    [src/services/auth.service.ts], [src/middlewares/auth.ts] and
    [src/utils/validation.ts], with [src/middlewares/auth.simple.ts] and
    [src/middlewares/sanitize.ts]. *)

(** ** [src/utils/validation.ts]: strings, pages and sort orders *)

(** [s.slice(0, n)]: a negative [n] counts from the end. *)
Definition slice0 (s : string) (n : Z) : string :=
  let l := list_ascii_of_string s in
  let len := Z.of_nat (length l) in
  let stop := if n <? 0 then Z.max (len + n) 0 else Z.min n len in
  string_of_list_ascii (firstn (Z.to_nat stop) l).

(** One of the five characters the sanitizers remove: the angle brackets,
    the two quotes and the ampersand. *)
Definition is_dangerous (c : ascii) : bool :=
  let n := code c in
  ((n =? 60) || (n =? 62) || (n =? 39) || (n =? 34) || (n =? 38))%nat.

(** [s.replace(re, '')] with the global class of these characters. *)
Definition remove_dangerous (s : string) : string :=
  string_of_list_ascii
    (filter (fun c => negb (is_dangerous c)) (list_ascii_of_string s)).

Definition sanitizeString (input : string) (maxLength minLength : Z)
  : option string :=
  if (input =? "")%string then None
  else
    let sanitized := slice0 (remove_dangerous (trim input)) maxLength in
    if minLength <=? Z.of_nat (String.length sanitized)
    then Some sanitized else None.

(** A query value: a string, or a number that is an integer.  [String]
    prints a number with all its digits below 10^21 only, and a double
    holds every integer up to 2^53: the numbers meant are those. *)
Definition MAX_SAFE : Z := 9007199254740992.

Inductive QueryArg :=
| QStr (s : string)
| QNum (n : Z).

(** [String(x)] *)
Definition String_of (a : QueryArg) : string :=
  match a with
  | QStr s => s
  | QNum n => NilZero.string_of_int (Z.to_int n)
  end.

(** [x || d] on an optional query value: absent, [''] and [0] are falsy. *)
Definition arg_or (a : option QueryArg) (d : QueryArg) : QueryArg :=
  match a with
  | None => d
  | Some (QStr s) => if (s =? "")%string then d else QStr s
  | Some (QNum n) => if n =? 0 then d else QNum n
  end.

Definition digit_of (c : ascii) : option Z :=
  let n := code c in
  if ((48 <=? n) && (n <=? 57))%nat then Some (Z.of_nat (n - 48)) else None.

Fixpoint parse_digits (acc : Z) (l : list ascii) : Z :=
  match l with
  | c :: l' =>
      match digit_of c with
      | Some d => parse_digits (10 * acc + d) l'
      | None => acc
      end
  | [] => acc
  end.

(** [parseInt(s, 10)]: leading white space, a sign, the longest run of
    digits; [None] is [NaN].  The value is the exact integer. *)
Definition parseInt (s : string) : option Z :=
  let l := list_ascii_of_string (trimStart s) in
  let '(negative, l) :=
    match l with
    | c :: l' =>
        if (code c =? 45)%nat then (true, l')
        else if (code c =? 43)%nat then (false, l')
        else (false, l)
    | [] => (false, l)
    end in
  match l with
  | c :: _ =>
      match digit_of c with
      | Some _ =>
          let v := parse_digits 0 l in Some (if negative then - v else v)
      | None => None
      end
  | [] => None
  end.

(** [n || d] on a number: [NaN] and [0] are falsy. *)
Definition num_or (n : option Z) (d : Z) : Z :=
  match n with
  | Some v => if v =? 0 then d else v
  | None => d
  end.

Definition validatePagination (page limit : option QueryArg) : Z * Z :=
  let parsedPage :=
    Z.max 1 (num_or (parseInt (String_of (arg_or page (QStr "1")))) 1) in
  let parsedLimit :=
    Z.min 100
      (Z.max 1 (num_or (parseInt (String_of (arg_or limit (QStr "10")))) 10)) in
  (parsedPage, parsedLimit).

(** [s.split(c)] for a separator of one character. *)
Fixpoint split_on (sep : ascii) (l : list ascii) : list (list ascii) :=
  match l with
  | [] => [[]]
  | c :: l' =>
      if (code c =? code sep)%nat then [] :: split_on sep l'
      else match split_on sep l' with
           | seg :: rest => (c :: seg) :: rest
           | [] => [[c]]
           end
  end.

Definition validateSort (sortBy : option string) (allowedFields : list string)
  : option (string * string) :=
  if negb (truthy sortBy) then None
  else
    let parts :=
      map string_of_list_ascii
        (split_on ":"%char (list_ascii_of_string (or_else sortBy ""))) in
    let field := nth_error parts 0 in
    let order := nth_error parts 1 in
    if negb (truthy field) || negb (truthy order)
       || negb (includes allowedFields (or_else field ""))
       || negb (includes ["asc"; "desc"] (or_else order ""))
    then None
    else Some (or_else field "", or_else order "").

(** ** [src/middlewares/sanitize.ts] *)

(** A parsed request value.  An object is the list of its own entries. *)
#[warnings="-register-all"]
Inductive Json :=
| JNull
| JString (s : string)
| JNumber (n : Z)
| JBool (b : bool)
| JArray (items : list Json)
| JObject (entries : list (string * Json)).

(** [obj[key] = value] on the list of own entries.  The key [__proto__]
    reaches the setter of [Object.prototype] and adds no entry. *)
Fixpoint set_entry (key : string) (value : Json) (entries : list (string * Json))
  : list (string * Json) :=
  match entries with
  | [] => [(key, value)]
  | (k, v) :: rest =>
      if (k =? key)%string then (k, value) :: rest
      else (k, v) :: set_entry key value rest
  end.

Definition assign (entries : list (string * Json)) (key : string) (value : Json)
  : list (string * Json) :=
  if (key =? "__proto__")%string then entries else set_entry key value entries.

Module Sanitize.

Definition sanitizeString (value : string) : string :=
  slice0 (remove_dangerous (trim value)) 1000.

Fixpoint sanitizeObject (obj : Json) : Json :=
  match obj with
  | JNull => JNull
  | JString s => JString (sanitizeString s)
  | JNumber n => JNumber n
  | JBool b => JBool b
  | JArray items => JArray (map sanitizeObject items)
  | JObject entries =>
      JObject
        ((fix loop (todo : list (string * Json)) (sanitized : list (string * Json))
            : list (string * Json) :=
            match todo with
            | [] => sanitized
            | (key, value) :: todo' =>
                loop todo'
                  (assign sanitized (sanitizeString key) (sanitizeObject value))
            end) entries [])
  end.

End Sanitize.

(** Every string of a value, keys included, satisfies [P]. *)
Fixpoint all_strings (P : string -> bool) (obj : Json) : bool :=
  match obj with
  | JString s => P s
  | JArray items => forallb (all_strings P) items
  | JObject entries =>
      forallb (fun e => P (fst e) && all_strings P (snd e)) entries
  | _ => true
  end.

(** A string without one of the five characters and of at most 1000
    characters. *)
Definition clean (s : string) : bool :=
  forallb (fun c => negb (is_dangerous c)) (list_ascii_of_string s)
  && (String.length s <=? 1000)%nat.

(** ** Options of [src/middlewares/auth.simple.ts] *)

Record AuthOptions := mkAuthOptions {
  opt_permissions : option (list string);
  opt_allowSelfAccess : option bool;
  opt_optional : option bool
}.

(** ** The [Authorization] header *)

Fixpoint skip_while (p : ascii -> bool) (l : list ascii) : list ascii :=
  match l with
  | c :: l' => if p c then skip_while p l' else l
  | [] => []
  end.

Fixpoint take_while (p : ascii -> bool) (l : list ascii) : list ascii :=
  match l with
  | c :: l' => if p c then c :: take_while p l' else []
  | [] => []
  end.

Definition not_space (c : ascii) : bool := negb (is_space c).

(** A string without white space. *)
Definition no_space (s : string) : bool :=
  forallb not_space (list_ascii_of_string s).

(** [ExtractJwt.fromAuthHeaderAsBearerToken()] of [passport-jwt]: the first
    match of [/(\S+)\s+(\S+)/] in the header gives the scheme and the
    value, which are the first two words of the header; the value is the
    token when the scheme, in lower case, is [bearer]. *)
Definition fromAuthHeaderAsBearerToken (authorization : option string)
  : option string :=
  match authorization with
  | None => None
  | Some hdrValue =>
      let l := skip_while is_space (list_ascii_of_string hdrValue) in
      let scheme := take_while not_space l in
      let value :=
        take_while not_space (skip_while is_space (skip_while not_space l)) in
      match scheme, value with
      | _ :: _, _ :: _ =>
          if (toLowerCase (string_of_list_ascii scheme) =? "bearer")%string
          then Some (string_of_list_ascii value) else None
      | _, _ => None
      end
  end.

(** [s.slice(n)] for an [n] that is not negative. *)
Definition slice_from (n : nat) (s : string) : string :=
  string_of_list_ascii (skipn n (list_ascii_of_string s)).

Section MoreServices.

Variable config : Config.
Variable validateUuid : string -> bool.
Variable bcrypt_hash : string -> nat -> string.

(** [bcrypt.compare(password, hash)] *)
Variable bcrypt_compare : string -> string -> bool.

(** The token a string of a header is, as [jsonwebtoken] reads it: the
    payload and the key of a compact JWS, or a string that is none. *)
Variable token_of_string : string -> JwtString.

(** *** [src/services/user.service.ts], continued *)

(** [prisma.user.delete({ where: { id } })]: P2025 when the row is missing;
    the tokens of the user go with it ([onDelete: Cascade]). *)
Definition user_delete (uid : string) : M User.t :=
  fun db =>
    match find (fun u => (User.id u =? uid)%string) (users db) with
    | None => (Throw (PrismaError "P2025"), db)
    | Some u =>
        (Ok u,
         mkDb (filter (fun v => negb (User.id v =? uid)%string) (users db))
              (filter (fun r => negb (Token.userId r =? uid)%string)
                 (tokens db)))
    end.

Definition deleteUserById (userId : string) : M User.t :=
  if negb (isValidUuid validateUuid userId)
  then throw (ApiError BAD_REQUEST "Invalid user ID format")
  else
    user <- getUserById validateUuid userId ;;
    match user with
    | None => throw (ApiError NOT_FOUND "User not found")
    | Some _ => user_delete userId
    end.

(** [bcrypt.compare] needs both of its arguments. *)
Definition isPasswordMatch (user : User.t) (password : string) : M bool :=
  match User.password user with
  | Some hash => ret (bcrypt_compare password hash)
  | None => throw (JsError "Illegal arguments: string, undefined")
  end.

(** *** [src/services/auth.service.ts], continued *)

Definition loginUserWithEmailAndPassword (email password : string)
  : M User.t :=
  user <- getUserByEmailWithPassword email ;;
  match user with
  | None => throw (ApiError UNAUTHORIZED "Incorrect email or password")
  | Some user =>
      isMatch <- isPasswordMatch user password ;;
      if (isMatch : bool) then ret (select_public user)
      else throw (ApiError UNAUTHORIZED "Incorrect email or password")
  end.

(** *** [src/middlewares/auth.ts], continued *)

(** The argument [requireSelfOrAdmin] gives to [next]: [None] lets the
    request through. *)
Definition requireSelfOrAdmin (req : Req) : option Error :=
  match req_user req with
  | None => Some (ApiError UNAUTHORIZED "Please authenticate")
  | Some user =>
      if truthy (params_userId req)
         && negb (isValidUuid validateUuid (or_else (params_userId req) ""))
      then Some (ApiError BAD_REQUEST "Invalid user ID format")
      else
        let userRights := or_else (roleRights_get (User.role user)) [] in
        if includes userRights "manageUsers" then None
        else if truthy (params_userId req)
                && negb (or_else (params_userId req) "" =? User.id user)%string
        then Some (ApiError FORBIDDEN "Access denied")
        else None
  end.

(** *** [src/middlewares/auth.simple.ts] *)

(** The request after the middleware and the argument it gives to [next].
    The token is what follows the seven characters of the prefix
    [Bearer ]; without that prefix there is no token. *)
Definition auth_simple (options : AuthOptions) (now : Z) (req : Req)
    (authorization : option string) : M (Req * option Error) :=
  let token :=
    match authorization with
    | Some authHeader =>
        if prefix "Bearer " authHeader then Some (slice_from 7 authHeader)
        else None
    | None => None
    end in
  if negb (truthy token)
  then
    if or_else (opt_optional options) false then ret (req, None)
    else ret (req, Some (ApiError UNAUTHORIZED "Access token required"))
  else
    match jwt_verify now (token_of_string (or_else token ""))
            (secret (jwt config)) with
    | Throw error => ret (req, Some error)
    | Ok decoded =>
        if negb (TokenType_eqb (TokenPayload.type decoded) ACCESS)
        then ret (req, Some (ApiError UNAUTHORIZED "Invalid token type"))
        else
          try_catch
            (user <- getUserById validateUuid (TokenPayload.sub decoded) ;;
             match user with
             | None => ret (req, Some (ApiError UNAUTHORIZED "User not found"))
             | Some user =>
                 let req := mkReq (params_userId req) (Some user) in
                 let permissions := or_else (opt_permissions options) [] in
                 if (0 <? length permissions)%nat
                 then
                   let userRights :=
                     or_else (roleRights_get (User.role user)) [] in
                   let hasPermissions :=
                     forallb (fun permission => includes userRights permission)
                       permissions in
                   if negb hasPermissions
                   then
                     if or_else (opt_allowSelfAccess options) false
                        && truthy (params_userId req)
                     then
                       if negb (isValidUuid validateUuid
                                  (or_else (params_userId req) ""))
                       then ret (req, Some (ApiError BAD_REQUEST
                                              "Invalid user ID format"))
                       else if negb (or_else (params_userId req) ""
                                     =? User.id user)%string
                       then ret (req, Some (ApiError FORBIDDEN
                                              "Insufficient permissions"))
                       else ret (req, None)
                     else ret (req, Some (ApiError FORBIDDEN
                                            "Insufficient permissions"))
                   else ret (req, None)
                 else ret (req, None)
             end)
            (fun error => ret (req, Some error))
    end.

(** The token [passport-jwt] takes from the header and hands to
    [jwt.verify]: what [auth] and [authWithSelfAccess] receive. *)
Definition bearer_of (authorization : option string) : option JwtString :=
  option_map token_of_string (fromAuthHeaderAsBearerToken authorization).

Definition requireAuth := auth_simple (mkAuthOptions None None None).
Definition requireAdmin :=
  auth_simple (mkAuthOptions (Some ["manageUsers"]) None None).
Definition simple_requireSelfOrAdmin :=
  auth_simple (mkAuthOptions (Some ["manageUsers"]) (Some true) None).
Definition optionalAuth := auth_simple (mkAuthOptions None None (Some true)).

(** *** The service calls, as one step of the store *)

Inductive Call :=
| CallCreateUser (uid : string) (now : Z) (userBody : CreateUserData)
| CallUpdateUserById (userId : string) (now : Z) (updateBody : UpdateUserData)
| CallDeleteUserById (userId : string)
| CallLogin (email password : string)
| CallGenerateAuthTokens (tid : string) (now : Z) (user : User.t)
| CallGenerateResetPasswordToken (tid : string) (now : Z) (email : string)
| CallGenerateVerifyEmailToken (tid : string) (now : Z) (user : User.t)
| CallVerifyToken (now : Z) (token : JwtString) (type : TokenType)
| CallLogout (refreshToken : JwtString)
| CallRefreshAuth (tid : string) (now : Z) (refreshToken : JwtString)
| CallResetPassword (now : Z) (token : JwtString) (newPassword : string)
| CallVerifyEmail (now : Z) (token : JwtString).

(** Whether the call returned, and the store it left. *)
Definition outcome {A} (m : M A) (db : Db) : bool * Db :=
  (succeeds (fst (m db)), snd (m db)).

Definition run (c : Call) : Db -> bool * Db :=
  match c with
  | CallCreateUser uid now userBody =>
      outcome (createUser bcrypt_hash uid now userBody)
  | CallUpdateUserById userId now updateBody =>
      outcome (updateUserById validateUuid bcrypt_hash userId now updateBody)
  | CallDeleteUserById userId => outcome (deleteUserById userId)
  | CallLogin email password =>
      outcome (loginUserWithEmailAndPassword email password)
  | CallGenerateAuthTokens tid now user =>
      outcome (generateAuthTokens config tid now user)
  | CallGenerateResetPasswordToken tid now email =>
      outcome (generateResetPasswordToken config tid now email)
  | CallGenerateVerifyEmailToken tid now user =>
      outcome (generateVerifyEmailToken config tid now user)
  | CallVerifyToken now token type => outcome (verifyToken config now token type)
  | CallLogout refreshToken => outcome (logout refreshToken)
  | CallRefreshAuth tid now refreshToken =>
      outcome (refreshAuth config validateUuid tid now refreshToken)
  | CallResetPassword now token newPassword =>
      outcome (resetPassword config validateUuid bcrypt_hash now token
                 newPassword)
  | CallVerifyEmail now token =>
      outcome (verifyEmail config validateUuid bcrypt_hash now token)
  end.

(** The store a sequence of calls leaves, one call after the other. *)
Fixpoint run_all (calls : list Call) (db : Db) : Db :=
  match calls with
  | [] => db
  | c :: calls' => run_all calls' (snd (run c db))
  end.

(** The calls that remove token rows: the four consumption operations,
    and the deletion of a user, whose rows go with it. *)
Definition removes_tokens (c : Call) : bool :=
  match c with
  | CallLogout _ | CallRefreshAuth _ _ _ | CallResetPassword _ _ _
  | CallVerifyEmail _ _ | CallDeleteUserById _ => true
  | _ => false
  end.

(** Whether the call signs a token of the kind at a clock reading within
    the second: a token carries its subject, its kind and the seconds of
    its issuance and expiry and nothing else, so these are the calls that
    can store a token string of that kind and second again. *)
Definition signs_in_second (type : TokenType) (second : Z) (c : Call) : bool :=
  match c with
  | CallGenerateAuthTokens _ now _ | CallRefreshAuth _ now _ =>
      TokenType_eqb REFRESH type && (unix now =? second)
  | CallGenerateResetPasswordToken _ now _ =>
      TokenType_eqb RESET_PASSWORD type && (unix now =? second)
  | CallGenerateVerifyEmailToken _ now _ =>
      TokenType_eqb VERIFY_EMAIL type && (unix now =? second)
  | _ => false
  end.

(** [refreshAuth] deletes before it issues; every other call is one write,
    or a check followed by writes that cannot fail. *)
Definition all_or_nothing (c : Call) : bool :=
  match c with
  | CallRefreshAuth _ _ _ => false
  | _ => true
  end.

End MoreServices.

(** An operation that leaves the store as it found it when it throws. *)
Definition atomic {A} (m : M A) : Prop :=
  forall db, succeeds (fst (m db)) = false -> snd (m db) = db.

Definition never_throws {A} (m : M A) : Prop :=
  forall db, succeeds (fst (m db)) = true.

(** [bcrypt.compare] on the hashes of [bcrypt_stub]. *)
Definition bcrypt_stub_compare (password hash : string) : bool :=
  (hash =? bcrypt_stub password 8)%string.

(** A reading of header strings for the examples: one string stands for
    the access token of Alice, every other string is no token. *)
Definition example_token_of_string (s : string) : JwtString :=
  if (s =? "alice.access.token")%string then alice_access else NotJwt s.

(** Carol registers; Dora registers with capitals in her email. *)
Definition carol_id : string := "cjld2cjxh0000qzrmn831i7rc".
Definition dora_id : string := "cjld2cjxh0000qzrmn831i7rd".

Definition carol_body : CreateUserData :=
  mkCreateUserData "Carol" "carol@example.com" "Secret789!" None None.

Definition dora_body : CreateUserData :=
  mkCreateUserData "Dora" "Dora@Example.com" "Secret000!" None None.

Definition db_carol : Db :=
  snd (createUser bcrypt_stub carol_id 7 carol_body db_users).

Definition db_dora : Db :=
  snd (createUser bcrypt_stub dora_id 7 dora_body db_users).

(** The store after Alice reset her password, and after she verified her
    email. *)
Definition db_after_reset : Db :=
  snd (resetPassword test_config uuid_validate bcrypt_stub 1000500 alice_reset
         "NewSecret1!" db_reset).

Definition db_after_verify : Db :=
  snd (verifyEmail test_config uuid_validate bcrypt_stub 1000500 alice_verify
         db_verify).

(** What Alice does after the reset: she logs in, and two seconds after
    the first request she asks for another reset token. *)
Definition calls_after_reset : list Call :=
  [ CallLogin "alice@example.com" "NewSecret1!";
    CallGenerateAuthTokens "tok7" 1001000 alice;
    CallGenerateResetPasswordToken "tok6" 1002000 "alice@example.com" ].

Definition db_later : Db :=
  run_all test_config uuid_validate bcrypt_stub bcrypt_stub_compare
    calls_after_reset db_after_reset.

(** * Basic facts *)

Lemma TokenType_eqb_spec a b : reflect (a = b) (TokenType_eqb a b).
Proof. destruct a, b; constructor; congruence. Qed.

Lemma TokenType_eqb_refl a : TokenType_eqb a a = true.
Proof. now destruct a. Qed.

Lemma TokenPayload_eqb_spec p q : reflect (p = q) (TokenPayload_eqb p q).
Proof.
  destruct p as [s i e t], q as [s' i' e' t']; unfold TokenPayload_eqb; simpl.
  destruct (String.eqb_spec s s'); [|constructor; congruence].
  destruct (Z.eqb_spec i i'); [|constructor; congruence].
  destruct (Z.eqb_spec e e'); [|constructor; congruence].
  destruct (TokenType_eqb_spec t t'); constructor; congruence.
Qed.

Lemma JwtString_eqb_spec a b : reflect (a = b) (JwtString_eqb a b).
Proof.
  destruct a as [p k|s], b as [q l|s']; simpl; try (constructor; congruence).
  - destruct (TokenPayload_eqb_spec p q); [|constructor; congruence].
    destruct (String.eqb_spec k l); constructor; congruence.
  - destruct (String.eqb_spec s s'); constructor; congruence.
Qed.

Lemma JwtString_eqb_refl a : JwtString_eqb a a = true.
Proof. now destruct (JwtString_eqb_spec a a). Qed.

Example isValidEmail_ex1 : isValidEmail "alice@example.com" = true.
Proof. reflexivity. Qed.
Example isValidEmail_ex2 : isValidEmail "invalid-email" = false.
Proof. reflexivity. Qed.
Example isValidEmail_ex3 : isValidEmail " Alice@Example.co.uk " = true.
Proof. reflexivity. Qed.
Example isValidEmail_ex4 : isValidEmail "a@b." = false.
Proof. reflexivity. Qed.
Example isValidEmail_ex5 : isValidEmail "a@.b" = false.
Proof. reflexivity. Qed.
Example isValidEmail_ex6 : isValidEmail "a@b@c.d" = false.
Proof. reflexivity. Qed.
Example isValidCuid_ex : isValidCuid "cjld2cjxh0000qzrmn831i7rn" = true.
Proof. reflexivity. Qed.
Example trim_ex : trim "  a b  " = "a b".
Proof. reflexivity. Qed.

(** Capitals of Latin-1 are lowered as well: code 192 is the A with a
    grave accent, 224 the small one; 215 is the multiplication sign. *)
Example toLowerCase_ex :
  map code (list_ascii_of_string
              (toLowerCase (String (ascii_of_nat 192)
                              (String (ascii_of_nat 215) "LICE"))))
  = [224; 215; 108; 105; 99; 101]%nat.
Proof. reflexivity. Qed.

Example uuid_validate_ex1 : uuid_validate bob_id = true.
Proof. reflexivity. Qed.
Example uuid_validate_ex2 : uuid_validate "invalid-uuid-format" = false.
Proof. reflexivity. Qed.
Example uuid_validate_ex3 : uuid_validate alice_id = false.
Proof. reflexivity. Qed.

(** * Verification of a token *)

Ltac unfold_m :=
  unfold bind, ret, throw, lift, try_catch, token_findFirst, user_find in *.

Section TokenProperties.

Variable config : Config.
Variable validateUuid : string -> bool.
Variable bcrypt_hash : string -> nat -> string.

Let jwt_secret := secret (jwt config).

Lemma verifyToken_eq now token type db :
  verifyToken config now token type db =
  (match jwt_verify now token jwt_secret with
   | Throw e => Throw e
   | Ok payload =>
       match find (verify_where token type payload) (tokens db) with
       | Some doc => Ok doc
       | None => Throw (JsError "Token not found")
       end
   end, db).
Proof.
  unfold verifyToken, jwt_secret; unfold_m.
  destruct (jwt_verify now token (secret (jwt config))) as [payload|e];
    [|reflexivity].
  fold (verify_where token type payload).
  destruct (find (verify_where token type payload) (tokens db)); reflexivity.
Qed.

Lemma verifyToken_frame now token type db :
  snd (verifyToken config now token type db) = db.
Proof. now rewrite verifyToken_eq. Qed.

Lemma verifyToken_Ok now token type db doc :
  fst (verifyToken config now token type db) = Ok doc ->
  exists payload,
    jwt_verify now token jwt_secret = Ok payload
    /\ find (verify_where token type payload) (tokens db) = Some doc.
Proof.
  rewrite verifyToken_eq; simpl.
  destruct (jwt_verify now token jwt_secret) as [payload|e]; [|discriminate].
  destruct (find _ _) as [d|] eqn:F; [|discriminate].
  intros [= <-]. now exists payload.
Qed.

Lemma verify_where_true token type payload r :
  verify_where token type payload r = true ->
  Token.token r = token /\ Token.type r = type
  /\ Token.userId r = TokenPayload.sub payload
  /\ Token.blacklisted r = false.
Proof.
  unfold verify_where. rewrite !andb_true_iff, negb_true_iff.
  intros [[[H1 H2] H3] H4].
  destruct (JwtString_eqb_spec (Token.token r) token); [|discriminate].
  destruct (TokenType_eqb_spec (Token.type r) type); [|discriminate].
  apply String.eqb_eq in H3. auto.
Qed.

Lemma jwt_verify_expired now token secret e :
  embedded_exp token = Some e -> e < unix now ->
  exists err, jwt_verify now token secret = Throw err.
Proof.
  destruct token as [payload key|s]; simpl; [|discriminate].
  intros [= <-] Hlt.
  destruct (secret =? "")%string; [eauto|].
  destruct (negb (key =? secret)%string); [eauto|].
  destruct (Z.leb_spec (TokenPayload.exp payload) (unix now)); [eauto|lia].
Qed.

(** C5. A token string whose embedded [exp] is earlier than the verifier's
    clock never verifies: [verifyToken] throws and returns no row, whatever
    the store holds (a matching row that is not blacklisted included). *)
Theorem expired_token_never_verifies :
  forall now token type db e,
    embedded_exp token = Some e -> e < unix now ->
    exists err, verifyToken config now token type db = (Throw err, db).
Proof.
  intros now token type db e He Hlt.
  destruct (jwt_verify_expired now token jwt_secret e He Hlt) as [err Herr].
  exists err. now rewrite verifyToken_eq, Herr.
Qed.

(** C8. When the reset-password token fails verification, [resetPassword]
    throws 401 and leaves the store, the password hashes included, as it
    was. *)
Theorem resetPassword_failure_keeps_password :
  forall now resetPasswordToken newPassword db e,
    fst (verifyToken config now resetPasswordToken RESET_PASSWORD db)
    = Throw e ->
    resetPassword config validateUuid bcrypt_hash now resetPasswordToken
      newPassword db
    = (Throw (ApiError UNAUTHORIZED "Password reset failed"), db)
    /\ map User.password
         (users (snd (resetPassword config validateUuid bcrypt_hash now
                        resetPasswordToken newPassword db)))
       = map User.password (users db).
Proof.
  intros now t pw db e Hv.
  assert (E : resetPassword config validateUuid bcrypt_hash now t pw db
              = (Throw (ApiError UNAUTHORIZED "Password reset failed"), db)).
  { unfold resetPassword, try_catch, bind at 1.
    pose proof (verifyToken_frame now t RESET_PASSWORD db) as Hs.
    destruct (verifyToken config now t RESET_PASSWORD db) as [r db1].
    simpl in Hv, Hs. subst. reflexivity. }
  split; [exact E|]. now rewrite E.
Qed.

End TokenProperties.

(** * The monad and the store primitives *)

Lemma bind_Ok {A B} (m : M A) (k : A -> M B) db b db' :
  bind m k db = (Ok b, db') ->
  exists a db1, m db = (Ok a, db1) /\ k a db1 = (Ok b, db').
Proof.
  unfold bind. destruct (m db) as [[a|e] db1]; [eauto|discriminate].
Qed.

Lemma bind_Throw {A B} (m : M A) (k : A -> M B) db e db' :
  bind m k db = (Throw e, db') ->
  m db = (Throw e, db')
  \/ exists a db1, m db = (Ok a, db1) /\ k a db1 = (Throw e, db').
Proof.
  unfold bind. destruct (m db) as [[a|e0] db1]; [eauto|].
  intros [= <- <-]. auto.
Qed.

Lemma try_catch_rethrow_Ok {A} (m : M A) err db a db' :
  try_catch m (fun _ => throw err) db = (Ok a, db') -> m db = (Ok a, db').
Proof.
  unfold try_catch, throw. destruct (m db) as [[x|e] db1]; congruence.
Qed.

Lemma try_catch_rethrow_Throw {A} (m : M A) err db e db' :
  try_catch m (fun _ => throw err) db = (Throw e, db') ->
  e = err /\ exists e0, m db = (Throw e0, db').
Proof.
  unfold try_catch, throw. destruct (m db) as [[x|e0] db1]; [discriminate|].
  intros [= <- <-]. eauto.
Qed.

Section Respects.

Variable R : Db -> Db -> Prop.
Hypothesis R_refl : forall db, R db db.
Hypothesis R_trans : forall a b c, R a b -> R b c -> R a c.

Lemma respects_ret {A} (a : A) : respects R (ret a).
Proof. intros db. apply R_refl. Qed.

Lemma respects_throw {A} e : respects R (@throw A e).
Proof. intros db. apply R_refl. Qed.

Lemma respects_lift {A} (r : Result A) : respects R (lift r).
Proof. intros db. apply R_refl. Qed.

Lemma respects_bind {A B} (m : M A) (k : A -> M B) :
  respects R m -> (forall a, respects R (k a)) -> respects R (bind m k).
Proof.
  intros Hm Hk db. unfold bind. specialize (Hm db).
  destruct (m db) as [[a|e] db1]; simpl in *; [|exact Hm].
  eapply R_trans; [exact Hm|apply Hk].
Qed.

Lemma respects_try_catch {A} (m : M A) (h : Error -> M A) :
  respects R m -> (forall e, respects R (h e)) -> respects R (try_catch m h).
Proof.
  intros Hm Hh db. unfold try_catch. specialize (Hm db).
  destruct (m db) as [[a|e] db1]; simpl in *; [exact Hm|].
  eapply R_trans; [exact Hm|apply Hh].
Qed.

Lemma respects_user_find where_ : respects R (user_find where_).
Proof. intros db. apply R_refl. Qed.

Lemma respects_token_findFirst where_ : respects R (token_findFirst where_).
Proof. intros db. apply R_refl. Qed.

End Respects.

Lemma same_tokens_refl db : same_tokens db db.
Proof. reflexivity. Qed.

Lemma same_tokens_trans a b c :
  same_tokens a b -> same_tokens b c -> same_tokens a c.
Proof. unfold same_tokens. congruence. Qed.

Lemma only_adds_refl db : only_adds db db.
Proof. split; [reflexivity|]. exists []. now rewrite app_nil_r. Qed.

Lemma only_adds_trans a b c : only_adds a b -> only_adds b c -> only_adds a c.
Proof.
  intros [U1 [l1 T1]] [U2 [l2 T2]]. split; [congruence|].
  exists (l1 ++ l2)%list. now rewrite T2, T1, app_assoc.
Qed.

Lemma keeps_refl Q db : keeps Q db db.
Proof. now intros H. Qed.

Lemma keeps_trans Q a b c : keeps Q a b -> keeps Q b c -> keeps Q a c.
Proof. unfold keeps. auto. Qed.

Lemma same_tokens_keeps Q db db' : same_tokens db db' -> keeps Q db db'.
Proof. unfold same_tokens, keeps. now intros ->. Qed.

Lemma respects_weaken {A} (R R' : Db -> Db -> Prop) (m : M A) :
  (forall a b, R a b -> R' a b) -> respects R m -> respects R' m.
Proof. intros H Hm db. apply H, Hm. Qed.

(** One step of a proof that an operation respects a relation: through the
    monad, then by cases on the condition the code tests. *)
Ltac respects_step refl trans :=
  first
    [ apply (respects_ret _ refl)
    | apply (respects_throw _ refl)
    | apply (respects_lift _ refl)
    | apply (respects_user_find _ refl)
    | apply (respects_token_findFirst _ refl)
    | apply (respects_bind _ trans); [|intro]
    | apply (respects_try_catch _ trans); [|intro]
    | match goal with
      | |- respects _ (if ?b then _ else _) => destruct b
      | |- respects _ (match ?x with _ => _ end) => destruct x
      end ].

Lemma user_update_same_tokens uid now d :
  respects same_tokens (user_update uid now d).
Proof.
  intros db. unfold user_update, same_tokens.
  destruct (find _ (users db)); [|reflexivity].
  destruct (match upd_email d with Some _ => _ | None => _ end); reflexivity.
Qed.

Lemma user_create_same_tokens uid now e p n r v :
  respects same_tokens (user_create uid now e p n r v).
Proof.
  intros db. unfold user_create, same_tokens.
  destruct (has_user_id uid db); [reflexivity|].
  destruct (existsb _ (users db)); reflexivity.
Qed.

Lemma token_create_only_adds tid now token uid expires type bl :
  respects only_adds (token_create tid now token uid expires type bl).
Proof.
  intros db. unfold token_create.
  destruct (has_token_id tid db); [apply only_adds_refl|].
  destruct (negb (has_user_id uid db)); [apply only_adds_refl|].
  split; [reflexivity|]. simpl. eauto.
Qed.

Lemma token_create_keeps (Q : Token.t -> Prop) tid now token uid expires type bl :
  Q (Token.mk tid token type expires bl now uid) ->
  respects (keeps Q) (token_create tid now token uid expires type bl).
Proof.
  intros HQ db. unfold token_create, keeps.
  destruct (has_token_id tid db); [auto|].
  destruct (negb (has_user_id uid db)); [auto|].
  simpl. intros H. apply Forall_app. auto.
Qed.

Lemma Forall_filter {A} (Q : A -> Prop) f l :
  Forall Q l -> Forall Q (filter f l).
Proof.
  rewrite !Forall_forall. intros H x I. apply filter_In in I. now apply H.
Qed.

Lemma token_delete_keeps Q tid : respects (keeps Q) (token_delete tid).
Proof.
  intros db. unfold token_delete, keeps.
  destruct (find _ (tokens db)); [|auto]. simpl. apply Forall_filter.
Qed.

Lemma token_deleteMany_keeps Q where_ :
  respects (keeps Q) (token_deleteMany where_).
Proof. intros db. unfold token_deleteMany, keeps. simpl. apply Forall_filter. Qed.

Lemma respects_of_eq {A} (R : Db -> Db -> Prop) (m : M A) :
  (forall db, R db db) -> respects eq m -> respects R m.
Proof. intros Hr Hm db. rewrite <- (Hm db). apply Hr. Qed.

Lemma eq_trans_db (a b c : Db) : a = b -> b = c -> a = c.
Proof. congruence. Qed.

(** * The services and the store *)

Section ServiceFacts.

Variable config : Config.
Variable validateUuid : string -> bool.
Variable bcrypt_hash : string -> nat -> string.

Let jwt_secret := secret (jwt config).

Ltac reads := repeat respects_step (@eq_refl Db) eq_trans_db.

Lemma getUserById_reads id : respects eq (getUserById validateUuid id).
Proof. unfold getUserById. reads. Qed.

Lemma getUserByEmail_reads email : respects eq (getUserByEmail email).
Proof. unfold getUserByEmail. reads. Qed.

Lemma isEmailTaken_reads email excl : respects eq (isEmailTaken email excl).
Proof. unfold isEmailTaken. reads. Qed.

Lemma verifyToken_reads now token type :
  respects eq (verifyToken config now token type).
Proof. intros db. symmetry. apply verifyToken_frame. Qed.

Lemma getUserById_eq id db :
  getUserById validateUuid id db =
  (if negb (isValidUuid validateUuid id)
   then Throw (ApiError BAD_REQUEST "Invalid user ID format")
   else Ok (option_map select_public
              (find (fun u => (User.id u =? id)%string) (users db))), db).
Proof.
  unfold getUserById; unfold_m.
  destruct (negb (isValidUuid validateUuid id)); reflexivity.
Qed.

Lemma getUserById_Some id db user db' :
  getUserById validateUuid id db = (Ok (Some user), db') ->
  db' = db /\ User.id user = id /\ isValidUuid validateUuid id = true
  /\ has_user_id id db = true.
Proof.
  rewrite getUserById_eq.
  destruct (isValidUuid validateUuid id) eqn:V; simpl; [|discriminate].
  destruct (find _ (users db)) as [u|] eqn:F; simpl; [|discriminate].
  intros [= <- <-]. apply find_some in F as [I E].
  apply String.eqb_eq in E. repeat split; auto.
  unfold has_user_id. apply existsb_exists. exists u. split; auto.
  now apply String.eqb_eq.
Qed.

Ltac keeps_tokens :=
  repeat first
    [ apply (respects_of_eq _ _ same_tokens_refl (getUserById_reads _))
    | apply (respects_of_eq _ _ same_tokens_refl (isEmailTaken_reads _ _))
    | apply user_update_same_tokens
    | apply user_create_same_tokens
    | respects_step same_tokens_refl same_tokens_trans ].

Lemma updateUserById_same_tokens userId now updateBody :
  respects same_tokens
    (updateUserById validateUuid bcrypt_hash userId now updateBody).
Proof. unfold updateUserById. cbv zeta. keeps_tokens. Qed.

Lemma createUser_same_tokens uid now userBody :
  respects same_tokens (createUser bcrypt_hash uid now userBody).
Proof. unfold createUser. cbv zeta. keeps_tokens. Qed.

(** The issuing operations add rows and remove none. *)

Ltac adds :=
  repeat first
    [ apply (respects_of_eq _ _ only_adds_refl (getUserByEmail_reads _))
    | apply token_create_only_adds
    | respects_step only_adds_refl only_adds_trans ].

Lemma saveToken_only_adds tid now token uid expires type bl :
  respects only_adds (saveToken tid now token uid expires type bl).
Proof. unfold saveToken. adds. Qed.

Lemma generateAuthTokens_only_adds tid now user :
  respects only_adds (generateAuthTokens config tid now user).
Proof. unfold generateAuthTokens, saveToken. cbv zeta. adds. Qed.

Lemma generateResetPasswordToken_only_adds tid now email :
  respects only_adds (generateResetPasswordToken config tid now email).
Proof. unfold generateResetPasswordToken, saveToken. cbv zeta. adds. Qed.

Lemma generateVerifyEmailToken_only_adds tid now user :
  respects only_adds (generateVerifyEmailToken config tid now user).
Proof. unfold generateVerifyEmailToken, saveToken. cbv zeta. adds. Qed.

End ServiceFacts.

(** * Stored rows carry tokens of their own kind *)

Section Typed.

Variable config : Config.
Variable validateUuid : string -> bool.
Variable bcrypt_hash : string -> nat -> string.

Lemma generateToken_bind_keeps {A} now uid expires type s (k : JwtString -> M A) :
  (forall payload, TokenPayload.type payload = type ->
                   respects (keeps typed) (k (Jws payload s))) ->
  respects (keeps typed) (bind (lift (generateToken now uid expires type s)) k).
Proof.
  intros H db. unfold bind, lift, generateToken, jwt_sign.
  destruct (s =? "")%string; simpl; [apply keeps_refl|]. now apply H.
Qed.

Lemma saveToken_keeps tid now payload s uid expires type bl :
  TokenPayload.type payload = type ->
  respects (keeps typed) (saveToken tid now (Jws payload s) uid expires type bl).
Proof.
  intros <-. unfold saveToken.
  apply (respects_bind _ (keeps_trans typed)).
  - apply token_create_keeps. unfold typed, row_typed. simpl.
    apply TokenType_eqb_refl.
  - intro. apply (respects_ret _ (keeps_refl typed)).
Qed.

Ltac keeps_leaf :=
  first
    [ apply (respects_of_eq _ _ (keeps_refl typed)
               (getUserById_reads validateUuid _))
    | apply (respects_of_eq _ _ (keeps_refl typed) (getUserByEmail_reads _))
    | apply (respects_of_eq _ _ (keeps_refl typed)
               (verifyToken_reads config _ _ _))
    | apply token_delete_keeps
    | apply token_deleteMany_keeps
    | apply (respects_weaken _ _ _ (same_tokens_keeps typed)
               (updateUserById_same_tokens validateUuid bcrypt_hash _ _ _)) ].

Lemma generateAuthTokens_keeps tid now user :
  respects (keeps typed) (generateAuthTokens config tid now user).
Proof.
  unfold generateAuthTokens. cbv zeta.
  apply generateToken_bind_keeps. intros accessPayload _.
  apply generateToken_bind_keeps. intros payload Hp.
  apply (respects_bind _ (keeps_trans typed)); [now apply saveToken_keeps|].
  intro. apply (respects_ret _ (keeps_refl typed)).
Qed.

Lemma generateResetPasswordToken_keeps tid now email :
  respects (keeps typed) (generateResetPasswordToken config tid now email).
Proof.
  unfold generateResetPasswordToken. cbv zeta.
  apply (respects_bind _ (keeps_trans typed)).
  - apply (respects_of_eq _ _ (keeps_refl typed) (getUserByEmail_reads _)).
  - intros [user|]; [|apply (respects_throw _ (keeps_refl typed))].
    apply generateToken_bind_keeps. intros payload Hp.
    apply (respects_bind _ (keeps_trans typed)); [now apply saveToken_keeps|].
    intro. apply (respects_ret _ (keeps_refl typed)).
Qed.

Lemma generateVerifyEmailToken_keeps tid now user :
  respects (keeps typed) (generateVerifyEmailToken config tid now user).
Proof.
  unfold generateVerifyEmailToken. cbv zeta.
  apply generateToken_bind_keeps. intros payload Hp.
  apply (respects_bind _ (keeps_trans typed)); [now apply saveToken_keeps|].
  intro. apply (respects_ret _ (keeps_refl typed)).
Qed.

Ltac keeps_typed :=
  repeat first
    [ keeps_leaf
    | apply generateAuthTokens_keeps
    | respects_step (keeps_refl typed) (keeps_trans typed) ].

Lemma logout_keeps refreshToken : respects (keeps typed) (logout refreshToken).
Proof. unfold logout. keeps_typed. Qed.

Lemma refreshAuth_keeps tid now refreshToken :
  respects (keeps typed)
    (refreshAuth config validateUuid tid now refreshToken).
Proof. unfold refreshAuth. keeps_typed. Qed.

Lemma resetPassword_keeps now token newPassword :
  respects (keeps typed)
    (resetPassword config validateUuid bcrypt_hash now token newPassword).
Proof. unfold resetPassword. keeps_typed. Qed.

Lemma verifyEmail_keeps now token :
  respects (keeps typed)
    (verifyEmail config validateUuid bcrypt_hash now token).
Proof. unfold verifyEmail. keeps_typed. Qed.

Lemma reachable_typed db :
  reachable config validateUuid bcrypt_hash db -> Forall typed (tokens db).
Proof.
  induction 1 as [|db uid now body _ IH|db uid now body _ IH
                  |db tid now user _ IH|db tid now email _ IH
                  |db tid now user _ IH|db now token type _ IH
                  |db token _ IH|db tid now token _ IH
                  |db now token pw _ IH|db now token _ IH].
  - constructor.
  - now rewrite (createUser_same_tokens bcrypt_hash uid now body db).
  - now rewrite (updateUserById_same_tokens validateUuid bcrypt_hash uid now
                   body db).
  - now apply generateAuthTokens_keeps.
  - now apply generateResetPasswordToken_keeps.
  - now apply generateVerifyEmailToken_keeps.
  - now rewrite verifyToken_frame.
  - now apply logout_keeps.
  - now apply refreshAuth_keeps.
  - now apply resetPassword_keeps.
  - now apply verifyEmail_keeps.
Qed.

Lemma jwt_verify_Jws now payload key s p :
  jwt_verify now (Jws payload key) s = Ok p -> p = payload.
Proof.
  simpl. destruct (s =? "")%string; [discriminate|].
  destruct (negb (key =? s)%string); [discriminate|].
  destruct (TokenPayload.exp payload <=? unix now); congruence.
Qed.

Lemma typed_store_rejects_other_kind db payload key type p :
  Forall typed (tokens db) -> TokenPayload.type payload <> type ->
  find (verify_where (Jws payload key) type p) (tokens db) = None.
Proof.
  intros Ht Hneq.
  destruct (find _ (tokens db)) as [r|] eqn:F; [|reflexivity].
  apply find_some in F as [I W].
  apply verify_where_true in W as (Htok & Hty & _).
  rewrite Forall_forall in Ht. specialize (Ht r I).
  unfold typed, row_typed in Ht. rewrite Htok in Ht.
  destruct (TokenType_eqb_spec (TokenPayload.type payload) (Token.type r));
    [congruence|discriminate].
Qed.

End Typed.

(** * Issuance, consumption and kinds *)

Section Lifecycle.

Variable config : Config.
Variable validateUuid : string -> bool.
Variable bcrypt_hash : string -> nat -> string.

Let jwt_secret := secret (jwt config).


(** C4. In every store the services can produce, a token string of one kind
    presented to [verifyToken] with another kind expected is refused, with
    'Token not found' once [jwt.verify] has accepted the string; and a
    bearer token whose decoded type is not ACCESS makes both authorization
    middlewares reject with 401 'Please authenticate'. *)
Theorem type_confusion_never_permitted :
  forall db,
    reachable config validateUuid bcrypt_hash db ->
    (forall now payload key type,
        TokenPayload.type payload <> type ->
        exists err,
          verifyToken config now (Jws payload key) type db = (Throw err, db)
          /\ (jwt_verify now (Jws payload key) jwt_secret = Ok payload ->
              err = JsError "Token not found"))
    /\ (forall now token payload requiredRights req,
          jwt_verify now token jwt_secret = Ok payload ->
          TokenPayload.type payload <> ACCESS ->
          auth config validateUuid requiredRights now req (Some token) db
          = (Ok (req, Reject (ApiError UNAUTHORIZED "Please authenticate")),
             db)
          /\ authWithSelfAccess config validateUuid requiredRights now req
               (Some token) db
             = (Ok (req, Reject (ApiError UNAUTHORIZED "Please authenticate")),
                db)).
Proof.
  intros db Hr. apply reachable_typed in Hr. split.
  - intros now payload key type Hneq. rewrite verifyToken_eq.
    fold jwt_secret.
    destruct (jwt_verify now (Jws payload key) jwt_secret) as [p|e] eqn:V.
    + rewrite (typed_store_rejects_other_kind db payload key type p Hr Hneq).
      eauto.
    + exists e. split; [reflexivity|discriminate].
  - intros now token payload rights req V Hneq.
    unfold auth, authWithSelfAccess, passport_authenticate, jwtVerify.
    fold jwt_secret. rewrite V. unfold_m.
    destruct (TokenType_eqb_spec (TokenPayload.type payload) ACCESS);
      [contradiction|]. simpl. split; reflexivity.
Qed.

End Lifecycle.

Lemma filter_negb_none {A} (f : A -> bool) l :
  filter f (filter (fun r => negb (f r)) l) = [].
Proof.
  induction l as [|a l IH]; simpl; [reflexivity|].
  destruct (f a) eqn:E; simpl; [exact IH|]. now rewrite E.
Qed.

Section Consumption.

Variable config : Config.
Variable validateUuid : string -> bool.
Variable bcrypt_hash : string -> nat -> string.

Let jwt_secret := secret (jwt config).

Lemma verifyToken_Ok_full now token type db doc db' :
  verifyToken config now token type db = (Ok doc, db') ->
  db' = db
  /\ exists payload,
       jwt_verify now token jwt_secret = Ok payload
       /\ find (verify_where token type payload) (tokens db) = Some doc
       /\ Token.userId doc = TokenPayload.sub payload.
Proof.
  intros H.
  pose proof (verifyToken_frame config now token type db) as Hf.
  rewrite H in Hf. simpl in Hf. split; [exact Hf|].
  destruct (verifyToken_Ok config now token type db doc) as (p & V & F).
  { now rewrite H. }
  exists p. repeat split; auto.
  apply find_some in F as [_ W]. now apply verify_where_true in W.
Qed.

Lemma token_deleteMany_eq where_ db r db' :
  token_deleteMany where_ db = (r, db') ->
  users db' = users db
  /\ tokens db' = filter (fun r => negb (where_ r)) (tokens db).
Proof. unfold token_deleteMany. intros [= _ <-]. auto. Qed.

Lemma resetPassword_Ok now token newPassword db db' :
  resetPassword config validateUuid bcrypt_hash now token newPassword db
  = (Ok tt, db') ->
  exists payload,
    jwt_verify now token jwt_secret = Ok payload
    /\ tokens db'
       = filter (fun r => negb (owned (TokenPayload.sub payload)
                                  RESET_PASSWORD r)) (tokens db).
Proof.
  unfold resetPassword. intros H. apply try_catch_rethrow_Ok in H.
  apply bind_Ok in H as (doc & db1 & Hv & H).
  apply verifyToken_Ok_full in Hv as (-> & payload & V & _ & Hsub).
  apply bind_Ok in H as ([user|] & db2 & Hu & H); [|discriminate].
  apply getUserById_Some in Hu as (-> & Hid & _).
  apply bind_Ok in H as (u' & db3 & Hupd & H).
  apply bind_Ok in H as (n & db4 & Hdel & H).
  injection H as <-.
  apply token_deleteMany_eq in Hdel as [_ Hdel].
  pose proof (updateUserById_same_tokens validateUuid bcrypt_hash
                (User.id user) now
                (mkUpdate None None (Some newPassword) None None) db) as Hsame.
  rewrite Hupd in Hsame. unfold same_tokens in Hsame. simpl in Hsame.
  exists payload. split; [exact V|].
  rewrite Hdel, Hsame, Hid, Hsub. reflexivity.
Qed.

Lemma verifyEmail_Ok now token db db' :
  verifyEmail config validateUuid bcrypt_hash now token db = (Ok tt, db') ->
  exists payload,
    jwt_verify now token jwt_secret = Ok payload
    /\ tokens db'
       = filter (fun r => negb (owned (TokenPayload.sub payload)
                                  VERIFY_EMAIL r)) (tokens db).
Proof.
  unfold verifyEmail. intros H. apply try_catch_rethrow_Ok in H.
  apply bind_Ok in H as (doc & db1 & Hv & H).
  apply verifyToken_Ok_full in Hv as (-> & payload & V & _ & Hsub).
  apply bind_Ok in H as ([user|] & db2 & Hu & H); [|discriminate].
  apply getUserById_Some in Hu as (-> & Hid & _).
  apply bind_Ok in H as (n & db3 & Hdel & H).
  apply bind_Ok in H as (u' & db4 & Hupd & H).
  injection H as <-.
  apply token_deleteMany_eq in Hdel as [_ Hdel].
  pose proof (updateUserById_same_tokens validateUuid bcrypt_hash
                (User.id user) now
                (mkUpdate None None None None (Some true)) db3) as Hsame.
  rewrite Hupd in Hsame. unfold same_tokens in Hsame. simpl in Hsame.
  exists payload. split; [exact V|].
  rewrite Hsame, Hdel, Hid, Hsub. reflexivity.
Qed.

(** C7. A successful [resetPassword] (or [verifyEmail]) removes every
    stored RESET_PASSWORD (or VERIFY_EMAIL) row of the token's user and no
    other row, so none of that kind remains for the user; issuing a
    reset-password token, a verify-email token or an access and refresh pair
    removes no row of the store. *)
Theorem consumption_purges_issuance_keeps :
  (forall now token newPassword db db',
      resetPassword config validateUuid bcrypt_hash now token newPassword db
      = (Ok tt, db') ->
      exists payload,
        jwt_verify now token jwt_secret = Ok payload
        /\ tokens db'
           = filter (fun r => negb (owned (TokenPayload.sub payload)
                                      RESET_PASSWORD r)) (tokens db)
        /\ filter (owned (TokenPayload.sub payload) RESET_PASSWORD)
             (tokens db') = [])
  /\ (forall now token db db',
        verifyEmail config validateUuid bcrypt_hash now token db
        = (Ok tt, db') ->
        exists payload,
          jwt_verify now token jwt_secret = Ok payload
          /\ tokens db'
             = filter (fun r => negb (owned (TokenPayload.sub payload)
                                        VERIFY_EMAIL r)) (tokens db)
          /\ filter (owned (TokenPayload.sub payload) VERIFY_EMAIL)
               (tokens db') = [])
  /\ (forall tid now email db,
        exists l,
          tokens (snd (generateResetPasswordToken config tid now email db))
          = (tokens db ++ l)%list)
  /\ (forall tid now user db,
        exists l,
          tokens (snd (generateVerifyEmailToken config tid now user db))
          = (tokens db ++ l)%list)
  /\ (forall tid now user db,
        exists l,
          tokens (snd (generateAuthTokens config tid now user db))
          = (tokens db ++ l)%list).
Proof.
  split; [|split; [|split; [|split]]].
  - intros now token pw db db' H.
    apply resetPassword_Ok in H as (payload & V & T).
    exists payload. repeat split; auto. rewrite T. apply filter_negb_none.
  - intros now token db db' H.
    apply verifyEmail_Ok in H as (payload & V & T).
    exists payload. repeat split; auto. rewrite T. apply filter_negb_none.
  - intros. apply generateResetPasswordToken_only_adds.
  - intros. apply generateVerifyEmailToken_only_adds.
  - intros. apply generateAuthTokens_only_adds.
Qed.

End Consumption.

(** * The stored expiry plays no part in verification *)

Lemma find_Forall2 {A} (R : A -> A -> Prop) (f : A -> bool) l l' :
  Forall2 R l l' -> (forall x y, R x y -> f x = f y) ->
  match find f l, find f l' with
  | Some x, Some y => R x y
  | None, None => True
  | _, _ => False
  end.
Proof.
  intros H Hf. induction H as [|x y l l' Hxy _ IH]; simpl; [exact I|].
  rewrite <- (Hf x y Hxy). destruct (f x); [exact Hxy|exact IH].
Qed.

Lemma verify_where_same_but_expires token type payload r r' :
  same_but_expires r r' ->
  verify_where token type payload r = verify_where token type payload r'.
Proof.
  intros (_ & Ht & Hty & Hb & _ & Hu). unfold verify_where.
  now rewrite Ht, Hty, Hb, Hu.
Qed.

Lemma find_some_of_In {A} (f : A -> bool) l x :
  In x l -> f x = true -> exists y, find f l = Some y.
Proof.
  intros I Hx. destruct (find f l) as [y|] eqn:F; [eauto|].
  now rewrite (find_none f l F x I) in Hx.
Qed.

Section StoredExpiry.

Variable config : Config.

Let jwt_secret := secret (jwt config).

(** C10. Two stores whose token rows agree on every column but [expires]
    give [verifyToken] the same outcome: the same error, or the
    corresponding row.  A stored row that is not blacklisted verifies
    although its [expires] is in the past, as long as the [exp] claim of
    its token string is in the future. *)
Theorem verifyToken_ignores_stored_expires :
  (forall now token type db db',
      Forall2 same_but_expires (tokens db) (tokens db') ->
      same_outcome (fst (verifyToken config now token type db))
        (fst (verifyToken config now token type db')))
  /\ (forall now payload type db r,
        jwt_secret <> "" ->
        In r (tokens db) ->
        Token.token r = Jws payload jwt_secret ->
        Token.type r = type ->
        Token.userId r = TokenPayload.sub payload ->
        Token.blacklisted r = false ->
        Token.expires r < now ->
        unix now < TokenPayload.exp payload ->
        exists doc,
          verifyToken config now (Jws payload jwt_secret) type db
          = (Ok doc, db)
          /\ Token.token doc = Jws payload jwt_secret).
Proof.
  split.
  - intros now token type db db' H. rewrite !verifyToken_eq. simpl.
    destruct (jwt_verify now token (secret (jwt config))) as [payload|e];
      [|reflexivity].
    pose proof (find_Forall2 same_but_expires
                  (verify_where token type payload) _ _ H
                  (verify_where_same_but_expires token type payload)) as F.
    destruct (find _ (tokens db)), (find _ (tokens db')); simpl;
      solve [exact F | contradiction | reflexivity].
  - intros now payload type db r Hs I Ht Hty Hu Hb _ Hexp.
    rewrite verifyToken_eq. fold jwt_secret. simpl.
    apply String.eqb_neq in Hs. rewrite Hs, String.eqb_refl. simpl.
    destruct (Z.leb_spec (TokenPayload.exp payload) (unix now)); [lia|].
    destruct (find_some_of_In
                (verify_where (Jws payload jwt_secret) type payload)
                (tokens db) r I) as [doc F].
    { unfold verify_where.
      rewrite Ht, Hty, Hu, Hb, JwtString_eqb_refl, TokenType_eqb_refl,
        String.eqb_refl. reflexivity. }
    rewrite F. exists doc. split; [reflexivity|].
    apply find_some in F as [_ W]. now apply verify_where_true in W.
Qed.

End StoredExpiry.

(** * Refresh rotation *)

Lemma find_id_of_In (doc : Token.t) l :
  In doc l ->
  exists r, find (fun r => (Token.id r =? Token.id doc)%string) l = Some r.
Proof.
  intros I. apply (find_some_of_In _ l doc I). apply String.eqb_refl.
Qed.

Section Rotation.

Variable config : Config.
Variable validateUuid : string -> bool.

Let jwt_secret := secret (jwt config).
Let please_authenticate := ApiError UNAUTHORIZED "Please authenticate".


(** After verification and the user lookup, [refreshAuth] is the deletion
    of the verified row followed by the issuance, in that order, and the
    outcome of the issuance is the outcome of [refreshAuth]. *)
Lemma refreshAuth_delete_then_issue tid now refreshToken db doc user :
  fst (verifyToken config now refreshToken REFRESH db) = Ok doc ->
  fst (getUserById validateUuid (Token.userId doc) db) = Ok (Some user) ->
  In doc (tokens db)
  /\ refreshAuth config validateUuid tid now refreshToken db
     = generateAuthTokens config tid now user
         (mkDb (users db)
            (filter (fun r => negb (Token.id r =? Token.id doc)%string)
               (tokens db))).
Proof.
  intros Hv Hu.
  pose proof (verifyToken_frame config now refreshToken REFRESH db) as Hvf.
  pose proof (getUserById_reads validateUuid (Token.userId doc) db) as Huf.
  assert (I : In doc (tokens db)).
  { apply verifyToken_Ok in Hv as (p & _ & F). now apply find_some in F. }
  split; [exact I|].
  unfold refreshAuth, try_catch, bind.
  destruct (verifyToken config now refreshToken REFRESH db) as [r db1].
  simpl in Hv, Hvf. subst r db1.
  destruct (getUserById validateUuid (Token.userId doc) db) as [r db2].
  simpl in Hu, Huf. subst r db2.
  unfold token_delete. destruct (find_id_of_In doc _ I) as [r ->].
  reflexivity.
Qed.

(** Before the deletion nothing is written: [refreshAuth] either throws the
    401 from the store it was given, or has a verified row and its user. *)
Lemma refreshAuth_cases tid now refreshToken db :
  refreshAuth config validateUuid tid now refreshToken db
  = (Throw please_authenticate, db)
  \/ exists doc user,
       fst (verifyToken config now refreshToken REFRESH db) = Ok doc
       /\ fst (getUserById validateUuid (Token.userId doc) db)
          = Ok (Some user).
Proof.
  pose proof (verifyToken_frame config now refreshToken REFRESH db) as Hvf.
  destruct (verifyToken config now refreshToken REFRESH db) as [[doc|e] db1]
    eqn:Hv; simpl in Hvf; subst db1.
  - destruct (getUserById validateUuid (Token.userId doc) db)
      as [[[user|]|e] db2] eqn:Hu.
    + right. exists doc, user. now rewrite Hu.
    + left. rewrite getUserById_eq in Hu.
      unfold refreshAuth, try_catch, bind. rewrite Hv, getUserById_eq.
      destruct (negb (isValidUuid validateUuid (Token.userId doc)));
        [discriminate Hu|].
      injection Hu as Hu <-. rewrite Hu. reflexivity.
    + left. rewrite getUserById_eq in Hu.
      unfold refreshAuth, try_catch, bind. rewrite Hv, getUserById_eq.
      destruct (negb (isValidUuid validateUuid (Token.userId doc)));
        [|discriminate Hu].
      reflexivity.
  - left. unfold refreshAuth, try_catch, bind. rewrite Hv. reflexivity.
Qed.



End Rotation.

(** * The authorization decision *)

Lemma includes_In l x : includes l x = true <-> In x l.
Proof.
  unfold includes. rewrite existsb_exists. split.
  - intros (y & I & E). apply String.eqb_eq in E. now subst.
  - intros I. exists x. split; [exact I|apply String.eqb_refl].
Qed.

Lemma superset_spec l rights :
  forallb (fun right => includes l right) rights = true
  <-> (forall right, In right rights -> In right l).
Proof.
  rewrite forallb_forall. split; intros H x I; apply includes_In; auto.
Qed.

Lemma isValidUuid_nonempty validateUuid id :
  isValidUuid validateUuid id = true -> id <> "".
Proof.
  unfold isValidUuid. destruct (String.eqb_spec id ""); [discriminate|auto].
Qed.

Section Authorization.

Variable validateUuid : string -> bool.

Let insufficient := ApiError FORBIDDEN "Insufficient permissions".
Let invalid_id := ApiError BAD_REQUEST "Invalid user ID format".

(** The decision on an authenticated principal whose role lacks one of a
    non-empty list of required rights. *)
Lemma verifyCallback_without_rights req right rights allowSelfAccess user :
  forallb (fun r => includes (permissions (User.role user)) r)
    (right :: rights) = false ->
  snd (verifyCallback validateUuid req (right :: rights) allowSelfAccess
         None (Some user) None)
  = if allowSelfAccess && truthy (params_userId req)
    then if negb (isValidUuid validateUuid (or_else (params_userId req) ""))
         then Reject invalid_id
         else if (or_else (params_userId req) "" =? User.id user)%string
              then Resolve
              else Reject insufficient
    else Reject insufficient.
Proof.
  intros H. unfold verifyCallback. cbv zeta.
  change (length (right :: rights) =? 0)%nat with false. cbv iota.
  fold (permissions (User.role user)). rewrite H. cbn [params_userId].
  destruct (allowSelfAccess && truthy (params_userId req)); [|reflexivity].
  destruct (negb (isValidUuid validateUuid (or_else (params_userId req) "")));
    [reflexivity|].
  destruct (or_else (params_userId req) "" =? User.id user)%string;
    reflexivity.
Qed.

(** C3, as the code has it.  For an authenticated principal: no required
    right, or a role whose permissions include every required right,
    resolves.  Otherwise the request resolves exactly when self-access is
    enabled and the [userId] parameter is the principal's id, a well-formed
    one; it is rejected with 400 'Invalid user ID format' exactly when
    self-access is enabled and the parameter is a non-empty string that is
    not a well-formed id; in the remaining cases it is rejected with 403
    'Insufficient permissions'.  ADMIN has [manageUsers], USER has no
    right. *)
Theorem verifyCallback_decision :
  forall req requiredRights allowSelfAccess user,
    let decision :=
      snd (verifyCallback validateUuid req requiredRights allowSelfAccess
             None (Some user) None) in
    let permitted :=
      forall right, In right requiredRights ->
                    In right (permissions (User.role user)) in
    let own :=
      allowSelfAccess = true /\ params_userId req = Some (User.id user)
      /\ isValidUuid validateUuid (User.id user) = true in
    let malformed :=
      allowSelfAccess = true
      /\ exists p, params_userId req = Some p /\ p <> ""
                   /\ isValidUuid validateUuid p = false in
    (requiredRights = [] -> decision = Resolve)
    /\ (permitted -> decision = Resolve)
    /\ (requiredRights <> [] -> ~ permitted ->
        (own -> decision = Resolve)
        /\ (malformed -> decision = Reject invalid_id)
        /\ (~ own -> ~ malformed -> decision = Reject insufficient))
    /\ In "manageUsers" (permissions ADMIN)
    /\ permissions USER = []
    /\ (User.role user = ADMIN -> requiredRights = ["manageUsers"] ->
        decision = Resolve)
    /\ (User.role user = USER -> requiredRights = ["manageUsers"] ->
        ~ own -> decision <> Resolve).
Proof.
  intros req rights self user decision permitted own malformed.
  assert (Hperm : permitted -> decision = Resolve).
  { intros Hp. apply superset_spec in Hp. subst decision.
    unfold verifyCallback. cbv zeta. fold (permissions (User.role user)).
    rewrite Hp. now destruct (length rights =? 0)%nat. }
  assert (Hrest : rights <> [] -> ~ permitted ->
            (own -> decision = Resolve)
            /\ (malformed -> decision = Reject invalid_id)
            /\ (~ own -> ~ malformed -> decision = Reject insufficient)).
  { intros Hne Hnp. destruct rights as [|right rights]; [contradiction|].
    assert (Hf : forallb (fun r => includes (permissions (User.role user)) r)
                   (right :: rights) = false).
    { destruct (forallb _ (right :: rights)) eqn:F; [|reflexivity].
      exfalso. apply Hnp. unfold permitted.
      exact (proj1 (superset_spec _ _) F). }
    subst decision.
    rewrite (verifyCallback_without_rights req right rights self user Hf).
    subst own malformed. split; [|split].
    - intros (-> & -> & Hv). simpl.
      pose proof (isValidUuid_nonempty _ _ Hv) as Hn.
      apply String.eqb_neq in Hn. rewrite Hn, Hv, String.eqb_refl.
      reflexivity.
    - intros (-> & p & -> & Hn & Hv). simpl.
      apply String.eqb_neq in Hn. rewrite Hn, Hv. reflexivity.
    - intros Hno Hnm. destruct self; [|reflexivity].
      destruct (params_userId req) as [p|] eqn:Hp; [|reflexivity]. simpl.
      destruct (String.eqb_spec p ""); [reflexivity|]. simpl.
      destruct (isValidUuid validateUuid p) eqn:Hv; simpl.
      + destruct (String.eqb_spec p (User.id user)); [|reflexivity].
        exfalso. apply Hno. subst p. auto.
      + exfalso. apply Hnm. split; [reflexivity|]. exists p. auto. }
  split; [|split; [exact Hperm|split; [exact Hrest|]]].
  - intros ->. reflexivity.
  - split; [simpl; auto|]. split; [reflexivity|]. split.
    + intros Hrole ->. apply Hperm. subst permitted. rewrite Hrole.
      intros right [<-|[]]. simpl. auto.
    + intros Hrole -> Hno Hd.
      assert (Hnp : ~ permitted).
      { subst permitted. rewrite Hrole. intros Hp.
        exact (Hp "manageUsers" (or_introl eq_refl)). }
      destruct (Hrest ltac:(discriminate) Hnp) as (_ & Hm & Hi).
      destruct self eqn:Hs.
      * destruct (params_userId req) as [p|] eqn:Hp.
        -- destruct (String.eqb_spec p "").
           ++ rewrite Hi in Hd; [discriminate|exact Hno|].
              intros (_ & q & [= <-] & Hq & _). contradiction.
           ++ destruct (isValidUuid validateUuid p) eqn:Hv.
              ** rewrite Hi in Hd; [discriminate|exact Hno|].
                 intros (_ & q & [= <-] & _ & Hq). congruence.
              ** rewrite Hm in Hd; [discriminate|].
                 split; [reflexivity|]. exists p. auto.
        -- rewrite Hi in Hd; [discriminate|exact Hno|].
           intros (_ & q & [=] & _).
      * rewrite Hi in Hd; [discriminate|exact Hno|].
        intros ([=] & _).
Qed.

End Authorization.

(** * Email addresses that differ in case *)

(** C9.  With alice@example.com in the store, [createUser] accepts
    Alice@Example.com: the check of [isEmailTaken] compares the strings as
    they are.  The store then holds two users whose emails differ only in
    case, and [getUserByEmail], which lowers the case of its argument,
    answers the new address with the older user. *)
Theorem createUser_accepts_case_variant :
  let userBody :=
    mkCreateUserData "Alice" "Alice@Example.com" "Secret123!" None None in
  let run := createUser bcrypt_stub "cjld2cjxh0000qzrmn831i7rx" 5 userBody
               db_users in
  succeeds (fst run) = true
  /\ map User.email (users (snd run))
     = ["alice@example.com"; "bob@example.com"; "Alice@Example.com"]
  /\ toLowerCase "Alice@Example.com" = "alice@example.com"
  /\ fst (getUserByEmail "Alice@Example.com" (snd run))
     = Ok (Some (select_public alice)).
Proof. vm_compute. repeat split. Qed.

(** * Worked examples *)

Example db_users_created :
  db_users
  = snd (createUser bcrypt_stub bob_id 0
           (mkCreateUserData "Bob" "bob@example.com" "Secret456!" (Some ADMIN)
              (Some true))
           (snd (createUser bcrypt_stub alice_id 0
                   (mkCreateUserData "Alice" "alice@example.com" "Secret123!"
                      None None)
                   (mkDb [] [])))).
Proof. reflexivity. Qed.

Example login_issues_alice_tokens :
  fst (generateAuthTokens test_config "tok1" 1000000 alice db_users)
  = Ok (mkAuthTokens (mkTokenWithExpiry alice_access 2800000)
          (mkTokenWithExpiry alice_refresh 2593000000)).
Proof. reflexivity. Qed.

Example forgot_password_issues_alice_reset :
  fst (generateResetPasswordToken test_config "tok3" 1000000
         "alice@example.com" db_login) = Ok alice_reset.
Proof. reflexivity. Qed.

Example expired_reset_issued :
  fst (generateResetPasswordToken expired_config "tok4" 1000000
         "alice@example.com" db_users) = Ok expired_reset.
Proof. reflexivity. Qed.

Lemma db_login_reachable :
  reachable test_config uuid_validate bcrypt_stub db_login.
Proof.
  unfold db_login. apply reach_generateAuthTokens.
  rewrite db_users_created. apply reach_createUser, reach_createUser.
  apply reach_init.
Qed.


(** C3, as stated, fails.  Alice, a USER, asks for a route that requires
    [manageUsers] with self-access enabled and the parameter [abc]: the
    rejection is 400 'Invalid user ID format', not 403. *)
Lemma self_access_malformed_id_is_bad_request :
  snd (verifyCallback uuid_validate (mkReq (Some "abc") None) ["manageUsers"]
         true None (Some alice) None)
  = Reject (ApiError BAD_REQUEST "Invalid user ID format")
  /\ snd (verifyCallback uuid_validate (mkReq (Some "abc") None)
            ["manageUsers"] true None (Some alice) None)
     <> Reject (ApiError FORBIDDEN "Insufficient permissions")
  /\ includes (permissions (User.role alice)) "manageUsers" = false
  /\ "abc" <> User.id alice.
Proof.
  split; [reflexivity|]. split; [|split; [reflexivity|discriminate]].
  vm_compute. discriminate.
Qed.

Example db_login_eq : db_login = mkDb [alice; bob] [login_row].
Proof. reflexivity. Qed.


Lemma type_confusion_never_permitted_witness :
  reachable test_config uuid_validate bcrypt_stub db_login
  /\ (exists err,
        verifyToken test_config 1000500 alice_access REFRESH db_login
        = (Throw err, db_login)
        /\ err = JsError "Token not found")
  /\ auth test_config uuid_validate [] 1000500 (mkReq None None)
       (Some alice_refresh) db_login
     = (Ok (mkReq None None,
            Reject (ApiError UNAUTHORIZED "Please authenticate")), db_login).
Proof.
  pose proof (type_confusion_never_permitted test_config uuid_validate
                bcrypt_stub db_login db_login_reachable) as [H1 H2].
  split; [exact db_login_reachable|]. split.
  - destruct (H1 1000500 (TokenPayload.mk alice_id 1000 2800 ACCESS)
                test_secret REFRESH) as (err & E & Hn); [discriminate|].
    exists err. split; [exact E|]. apply Hn. reflexivity.
  - apply (H2 1000500 alice_refresh
             (TokenPayload.mk alice_id 1000 2593000 REFRESH) [] (mkReq None None));
      [reflexivity|discriminate].
Defined.

Lemma expired_token_never_verifies_witness :
  embedded_exp expired_reset = Some 940
  /\ 940 < unix 1000000
  /\ existsb (verify_where expired_reset RESET_PASSWORD
                (TokenPayload.mk alice_id 1000 940 RESET_PASSWORD))
       (tokens db_expired) = true
  /\ exists err,
       verifyToken test_config 1000000 expired_reset RESET_PASSWORD db_expired
       = (Throw err, db_expired).
Proof.
  split; [reflexivity|]. split; [reflexivity|]. split; [reflexivity|].
  apply (expired_token_never_verifies test_config 1000000 expired_reset
           RESET_PASSWORD db_expired 940); reflexivity.
Defined.

Lemma consumption_purges_issuance_keeps_witness :
  let after_reset :=
    snd (resetPassword test_config uuid_validate bcrypt_stub 1000500
           alice_reset "NewSecret1!" db_reset) in
  let after_verify :=
    snd (verifyEmail test_config uuid_validate bcrypt_stub 1000500
           alice_verify db_verify) in
  resetPassword test_config uuid_validate bcrypt_stub 1000500 alice_reset
    "NewSecret1!" db_reset = (Ok tt, after_reset)
  /\ verifyEmail test_config uuid_validate bcrypt_stub 1000500 alice_verify
       db_verify = (Ok tt, after_verify)
  /\ (exists payload,
        jwt_verify 1000500 alice_reset test_secret = Ok payload
        /\ filter (owned (TokenPayload.sub payload) RESET_PASSWORD)
             (tokens after_reset) = [])
  /\ (exists payload,
        jwt_verify 1000500 alice_verify test_secret = Ok payload
        /\ filter (owned (TokenPayload.sub payload) VERIFY_EMAIL)
             (tokens after_verify) = []).
Proof.
  intros after_reset after_verify.
  assert (E1 : resetPassword test_config uuid_validate bcrypt_stub 1000500
                 alice_reset "NewSecret1!" db_reset = (Ok tt, after_reset))
    by reflexivity.
  assert (E2 : verifyEmail test_config uuid_validate bcrypt_stub 1000500
                 alice_verify db_verify = (Ok tt, after_verify))
    by reflexivity.
  pose proof (consumption_purges_issuance_keeps test_config uuid_validate
                bcrypt_stub) as (H1 & H2 & _).
  split; [exact E1|]. split; [exact E2|]. split.
  - destruct (H1 _ _ _ _ _ E1) as (p & V & _ & Z). exists p. auto.
  - destruct (H2 _ _ _ _ E2) as (p & V & _ & Z). exists p. auto.
Defined.

Lemma resetPassword_failure_keeps_password_witness :
  fst (verifyToken test_config 1000000 expired_reset RESET_PASSWORD db_expired)
  = Throw (TokenExpiredError "jwt expired")
  /\ resetPassword test_config uuid_validate bcrypt_stub 1000000 expired_reset
       "NewSecret1!" db_expired
     = (Throw (ApiError UNAUTHORIZED "Password reset failed"), db_expired).
Proof.
  assert (H : fst (verifyToken test_config 1000000 expired_reset
                     RESET_PASSWORD db_expired)
              = Throw (TokenExpiredError "jwt expired")) by reflexivity.
  split; [exact H|].
  exact (proj1 (resetPassword_failure_keeps_password test_config uuid_validate
                  bcrypt_stub 1000000 expired_reset "NewSecret1!" db_expired
                  _ H)).
Defined.

Lemma verifyToken_ignores_stored_expires_witness :
  Forall2 same_but_expires (tokens db_login) (tokens db_stale)
  /\ same_outcome
       (fst (verifyToken test_config 1000500 alice_refresh REFRESH db_login))
       (fst (verifyToken test_config 1000500 alice_refresh REFRESH db_stale))
  /\ Token.expires stale_row < 1000500
  /\ unix 1000500 < 2593000
  /\ exists doc,
       verifyToken test_config 1000500 alice_refresh REFRESH db_stale
       = (Ok doc, db_stale)
       /\ Token.token doc = alice_refresh.
Proof.
  assert (F : Forall2 same_but_expires (tokens db_login) (tokens db_stale)).
  { rewrite db_login_eq. simpl. constructor; [|constructor].
    unfold same_but_expires. simpl. repeat split. }
  pose proof (verifyToken_ignores_stored_expires test_config) as [H1 H2].
  split; [exact F|]. split; [apply (H1 _ _ _ _ _ F)|].
  split; [reflexivity|]. split; [reflexivity|].
  apply (H2 1000500 (TokenPayload.mk alice_id 1000 2593000 REFRESH) REFRESH
           db_stale stale_row);
    solve [discriminate | reflexivity | simpl; auto].
Defined.


Lemma verifyCallback_decision_witness :
  (* alice reads her own record *)
  snd (verifyCallback uuid_validate (mkReq (Some alice_id) None)
         ["manageUsers"] true None (Some alice) None) = Resolve
  (* bob, an administrator, reads it too *)
  /\ snd (verifyCallback uuid_validate (mkReq (Some alice_id) None)
            ["manageUsers"] false None (Some bob) None) = Resolve
  (* alice asks for bob's record *)
  /\ snd (verifyCallback uuid_validate (mkReq (Some bob_id) None)
            ["manageUsers"] true None (Some alice) None)
     = Reject (ApiError FORBIDDEN "Insufficient permissions")
  (* alice asks with a malformed id *)
  /\ snd (verifyCallback uuid_validate (mkReq (Some "abc") None)
            ["manageUsers"] true None (Some alice) None)
     = Reject (ApiError BAD_REQUEST "Invalid user ID format")
  (* no right required *)
  /\ snd (verifyCallback uuid_validate (mkReq None None) [] false None
            (Some alice) None) = Resolve.
Proof.
  assert (Hn : ~ (forall right, In right ["manageUsers"] ->
                                In right (permissions (User.role alice)))).
  { intros H. exact (H "manageUsers" (or_introl eq_refl)). }
  assert (Hne : ["manageUsers"] <> []) by discriminate.
  split; [|split; [|split; [|split]]].
  - destruct (verifyCallback_decision uuid_validate
                (mkReq (Some alice_id) None) ["manageUsers"] true alice)
      as (_ & _ & H & _).
    destruct (H Hne Hn) as (Hown & _). apply Hown. repeat split.
  - destruct (verifyCallback_decision uuid_validate
                (mkReq (Some alice_id) None) ["manageUsers"] false bob)
      as (_ & _ & _ & _ & _ & H & _).
    apply H; reflexivity.
  - destruct (verifyCallback_decision uuid_validate
                (mkReq (Some bob_id) None) ["manageUsers"] true alice)
      as (_ & _ & H & _).
    destruct (H Hne Hn) as (_ & _ & Hins). apply Hins.
    + intros (_ & E & _). discriminate E.
    + intros (_ & p & E & _ & V). injection E as <-. discriminate V.
  - destruct (verifyCallback_decision uuid_validate
                (mkReq (Some "abc") None) ["manageUsers"] true alice)
      as (_ & _ & H & _).
    destruct (H Hne Hn) as (_ & Hmal & _). apply Hmal.
    split; [reflexivity|]. exists "abc". repeat split. discriminate.
  - destruct (verifyCallback_decision uuid_validate (mkReq None None) []
                false alice) as (H & _).
    now apply H.
Defined.

(** * What a verified token tells, and what an issued token is good for *)


Section IssueAndVerify.

Variable config : Config.

Let jwt_secret := secret (jwt config).

Lemma jwt_verify_Ok now token s payload :
  jwt_verify now token s = Ok payload ->
  token = Jws payload s /\ s <> "" /\ unix now < TokenPayload.exp payload.
Proof.
  destruct token as [p key|x]; simpl.
  - destruct (String.eqb_spec s ""); [discriminate|].
    destruct (String.eqb_spec key s); simpl; [|discriminate].
    destruct (Z.leb_spec (TokenPayload.exp p) (unix now)); [discriminate|].
    intros [= <-]. subst. auto.
  - destruct (x =? "")%string; [discriminate|].
    destruct (negb (dots x =? 2)%nat); discriminate.
Qed.

Lemma jwt_verify_valid now payload s :
  s <> "" -> unix now < TokenPayload.exp payload ->
  jwt_verify now (Jws payload s) s = Ok payload.
Proof.
  intros Hs Hexp. simpl. apply String.eqb_neq in Hs.
  rewrite Hs, String.eqb_refl. simpl.
  destruct (Z.leb_spec (TokenPayload.exp payload) (unix now)); [lia|].
  reflexivity.
Qed.

Lemma verifyToken_complete now payload type db r :
  jwt_secret <> "" ->
  In r (tokens db) ->
  Token.token r = Jws payload jwt_secret ->
  Token.type r = type ->
  Token.userId r = TokenPayload.sub payload ->
  Token.blacklisted r = false ->
  unix now < TokenPayload.exp payload ->
  exists doc,
    verifyToken config now (Jws payload jwt_secret) type db = (Ok doc, db)
    /\ Token.token doc = Jws payload jwt_secret
    /\ Token.userId doc = TokenPayload.sub payload.
Proof.
  intros Hs I Ht Hty Hu Hb Hexp. rewrite verifyToken_eq. fold jwt_secret.
  rewrite (jwt_verify_valid now payload jwt_secret Hs Hexp).
  destruct (find_some_of_In
              (verify_where (Jws payload jwt_secret) type payload)
              (tokens db) r I) as [doc F].
  { unfold verify_where.
    rewrite Ht, Hty, Hu, Hb, JwtString_eqb_refl, TokenType_eqb_refl,
      String.eqb_refl. reflexivity. }
  rewrite F. exists doc. split; [reflexivity|].
  apply find_some in F as [_ W]. apply verify_where_true in W. tauto.
Qed.

(** X1. A row [verifyToken] returns is a stored row that is not
    blacklisted, of the expected kind, whose token string is the one
    presented; that string is signed with the configured secret, its [exp]
    is later than the clock, and its [sub] is the owner of the row. *)
Theorem verifyToken_sound :
  forall now token type db doc,
    fst (verifyToken config now token type db) = Ok doc ->
    In doc (tokens db)
    /\ Token.token doc = token
    /\ Token.type doc = type
    /\ Token.blacklisted doc = false
    /\ exists payload,
         token = Jws payload jwt_secret
         /\ jwt_secret <> ""
         /\ unix now < TokenPayload.exp payload
         /\ Token.userId doc = TokenPayload.sub payload.
Proof.
  intros now token type db doc H.
  apply verifyToken_Ok in H as (payload & V & F).
  apply find_some in F as [I W].
  apply verify_where_true in W as (Ht & Hty & Hu & Hb).
  apply jwt_verify_Ok in V as (E & Hs & Hexp).
  repeat split; auto. exists payload. auto.
Qed.



End IssueAndVerify.

(** * What a consumption writes *)

Section SingleUse.

Variable config : Config.
Variable validateUuid : string -> bool.
Variable bcrypt_hash : string -> nat -> string.

Let jwt_secret := secret (jwt config).

Lemma rethrow_when_verify_fails {A} now token type err (k : Token.t -> M A) db e :
  fst (verifyToken config now token type db) = Throw e ->
  try_catch (doc <- verifyToken config now token type ;; k doc)
    (fun _ => throw err) db
  = (Throw err, db).
Proof.
  intros Hv. rewrite verifyToken_eq in Hv. simpl in Hv.
  unfold try_catch, bind. rewrite verifyToken_eq. rewrite Hv. reflexivity.
Qed.

(** [updateUserById] without a new email: the row of the user is updated,
    with the password hashed unless it is the empty string. *)
Lemma updateUserById_Ok_no_email userId now d db u db' :
  upd_email d = None ->
  updateUserById validateUuid bcrypt_hash userId now d db = (Ok u, db') ->
  let stored :=
    match upd_password d with
    | Some p => if (p =? "")%string then Some p else Some (bcrypt_hash p 8)
    | None => None
    end in
  let d' := mkUpdate (upd_name d) None stored (upd_role d)
              (upd_isEmailVerified d) in
  isValidUuid validateUuid userId = true
  /\ has_user_id userId db = true
  /\ tokens db' = tokens db
  /\ users db'
     = map (fun v => if (User.id v =? userId)%string
                     then apply_update now d' v else v) (users db).
Proof.
  intros He H stored d'. unfold updateUserById in H.
  destruct (isValidUuid validateUuid userId) eqn:Hv; simpl in H;
    [|discriminate].
  apply bind_Ok in H as ([user|] & db1 & Hu & H); [|discriminate].
  apply getUserById_Some in Hu as (-> & _ & _ & Hhas).
  rewrite He in H. simpl in H.
  apply bind_Ok in H as (taken & db2 & Ht & H).
  injection Ht as <- <-.
  assert (Hd : (if truthy (upd_password d)
                then mkUpdate (upd_name d) None
                       (Some (bcrypt_hash (or_else (upd_password d) "") 8))
                       (upd_role d) (upd_isEmailVerified d)
                else d) = d').
  { subst d' stored. destruct d as [n e [p|] r v]; simpl in *; subst;
      [|reflexivity].
    destruct (p =? "")%string; reflexivity. }
  rewrite Hd in H. unfold user_update in H.
  destruct (find _ (users db)); [|discriminate]. simpl in H.
  injection H as _ <-. simpl. auto.
Qed.

(** X4. A successful [resetPassword] rewrites one thing in the user
    table: the row of the token's user gets the [bcrypt] hash of the new
    password, and the new password itself when that is the empty string,
    together with a fresh [updatedAt]. *)
Theorem resetPassword_sets_password :
  forall now token newPassword db db',
    resetPassword config validateUuid bcrypt_hash now token newPassword db
    = (Ok tt, db') ->
    exists payload,
      jwt_verify now token jwt_secret = Ok payload
      /\ has_user_id (TokenPayload.sub payload) db = true
      /\ users db'
         = map (fun v =>
                  if (User.id v =? TokenPayload.sub payload)%string
                  then User.mk (User.id v) (User.email v)
                         (Some (if (newPassword =? "")%string then newPassword
                                else bcrypt_hash newPassword 8))
                         (User.name v) (User.role v) (User.isEmailVerified v)
                         (User.createdAt v) now
                  else v) (users db).
Proof.
  intros now token pw db db' H. unfold resetPassword in H.
  apply try_catch_rethrow_Ok in H.
  apply bind_Ok in H as (doc & db1 & Hv & H).
  apply verifyToken_Ok_full in Hv as (-> & payload & V & _ & Hsub).
  apply bind_Ok in H as ([user|] & db2 & Hu & H); [|discriminate].
  apply getUserById_Some in Hu as (-> & Hid & _).
  apply bind_Ok in H as (u' & db3 & Hupd & H).
  apply bind_Ok in H as (n & db4 & Hdel & H).
  injection H as <-.
  apply token_deleteMany_eq in Hdel as [Husers _].
  apply updateUserById_Ok_no_email in Hupd as (_ & Hhas & _ & Hmap);
    [|reflexivity].
  exists payload. rewrite Hid, Hsub in *. split; [exact V|].
  split; [exact Hhas|]. rewrite Husers, Hmap. simpl.
  destruct (pw =? "")%string; reflexivity.
Qed.

(** X5. A successful [verifyEmail] rewrites one thing in the user table:
    the row of the token's user has [isEmailVerified] true and a fresh
    [updatedAt]; passwords, emails and roles are untouched. *)
Theorem verifyEmail_sets_flag :
  forall now token db db',
    verifyEmail config validateUuid bcrypt_hash now token db = (Ok tt, db') ->
    exists payload,
      jwt_verify now token jwt_secret = Ok payload
      /\ has_user_id (TokenPayload.sub payload) db = true
      /\ users db'
         = map (fun v =>
                  if (User.id v =? TokenPayload.sub payload)%string
                  then User.mk (User.id v) (User.email v) (User.password v)
                         (User.name v) (User.role v) true (User.createdAt v)
                         now
                  else v) (users db).
Proof.
  intros now token db db' H. unfold verifyEmail in H.
  apply try_catch_rethrow_Ok in H.
  apply bind_Ok in H as (doc & db1 & Hv & H).
  apply verifyToken_Ok_full in Hv as (-> & payload & V & _ & Hsub).
  apply bind_Ok in H as ([user|] & db2 & Hu & H); [|discriminate].
  apply getUserById_Some in Hu as (-> & Hid & _ & Hhas0).
  apply bind_Ok in H as (n & db3 & Hdel & H).
  apply bind_Ok in H as (u' & db4 & Hupd & H).
  injection H as <-.
  apply token_deleteMany_eq in Hdel as [Husers _].
  apply updateUserById_Ok_no_email in Hupd as (_ & _ & _ & Hmap);
    [|reflexivity].
  exists payload. rewrite Hid, Hsub in *. split; [exact V|].
  split; [exact Hhas0|]. rewrite Hmap, Husers. reflexivity.
Qed.

End SingleUse.

(** * Calls that fail change nothing *)

Lemma atomic_of_reads {A} (m : M A) : respects eq m -> atomic m.
Proof. intros H db _. symmetry. apply H. Qed.

Lemma atomic_throw {A} e : atomic (@throw A e).
Proof. now intros db _. Qed.

Lemma atomic_ret {A} (a : A) : atomic (ret a).
Proof. now intros db _. Qed.

Lemma atomic_bind_reads {A B} (m : M A) (k : A -> M B) :
  respects eq m -> (forall a, atomic (k a)) -> atomic (bind m k).
Proof.
  intros Hm Hk db. unfold bind. specialize (Hm db).
  destruct (m db) as [[a|e] db1]; simpl in *; subst db1; [apply Hk|auto].
Qed.

Lemma atomic_bind_total {A B} (m : M A) (k : A -> M B) :
  atomic m -> (forall a, never_throws (k a)) -> atomic (bind m k).
Proof.
  intros Hm Hk db. unfold bind. specialize (Hm db).
  destruct (m db) as [[a|e] db1]; simpl in *; [|auto].
  intros F. now rewrite Hk in F.
Qed.

Lemma atomic_rethrow {A} (m : M A) err :
  atomic m -> atomic (try_catch m (fun _ => throw err)).
Proof.
  intros Hm db. unfold try_catch, throw. specialize (Hm db).
  destruct (m db) as [[a|e] db1]; simpl in *; [discriminate|auto].
Qed.

Lemma never_throws_ret {A} (a : A) : never_throws (ret a).
Proof. now intros db. Qed.

Lemma never_throws_bind {A B} (m : M A) (k : A -> M B) :
  never_throws m -> (forall a, never_throws (k a)) -> never_throws (bind m k).
Proof.
  intros Hm Hk db. unfold bind. specialize (Hm db).
  destruct (m db) as [[a|e] db1]; simpl in *; [apply Hk|discriminate].
Qed.

Lemma token_deleteMany_total where_ : never_throws (token_deleteMany where_).
Proof. now intros db. Qed.

Lemma user_create_atomic uid now e p n r v :
  atomic (user_create uid now e p n r v).
Proof.
  intros db. unfold user_create. destruct (has_user_id uid db); [auto|].
  destruct (existsb _ (users db)); [auto|discriminate].
Qed.

Lemma user_update_atomic uid now d : atomic (user_update uid now d).
Proof.
  intros db. unfold user_update. destruct (find _ (users db)); [|auto].
  destruct (match upd_email d with Some _ => _ | None => _ end);
    [auto|discriminate].
Qed.

Lemma token_create_atomic tid now token uid expires type bl :
  atomic (token_create tid now token uid expires type bl).
Proof.
  intros db. unfold token_create. destruct (has_token_id tid db); [auto|].
  destruct (negb (has_user_id uid db)); [auto|discriminate].
Qed.

Lemma token_delete_atomic tid : atomic (token_delete tid).
Proof.
  intros db. unfold token_delete.
  destruct (find _ (tokens db)); [discriminate|auto].
Qed.

Lemma existsb_find_id uid (l : list User.t) :
  existsb (fun u => (User.id u =? uid)%string) l = true ->
  exists u, find (fun u => (User.id u =? uid)%string) l = Some u
            /\ User.id u = uid.
Proof.
  induction l as [|v l IH]; simpl; [discriminate|].
  destruct (String.eqb_spec (User.id v) uid); [eauto|]. exact IH.
Qed.

Section AllOrNothing.

Variable config : Config.
Variable validateUuid : string -> bool.
Variable bcrypt_hash : string -> nat -> string.
Variable bcrypt_compare : string -> string -> bool.

Lemma saveToken_atomic tid now token uid expires type bl :
  atomic (saveToken tid now token uid expires type bl).
Proof.
  unfold saveToken. apply atomic_bind_total; [apply token_create_atomic|].
  intro. apply never_throws_ret.
Qed.

Lemma createUser_atomic uid now userBody :
  atomic (createUser bcrypt_hash uid now userBody).
Proof.
  unfold createUser. cbv zeta. destruct (negb _); [apply atomic_throw|].
  apply atomic_bind_reads; [apply isEmailTaken_reads|]. intros [|].
  - apply atomic_throw.
  - apply atomic_bind_total; [apply user_create_atomic|].
    intro. apply never_throws_ret.
Qed.

Lemma updateUserById_atomic userId now updateBody :
  atomic (updateUserById validateUuid bcrypt_hash userId now updateBody).
Proof.
  unfold updateUserById. cbv zeta. destruct (negb _); [apply atomic_throw|].
  apply atomic_bind_reads; [apply getUserById_reads|].
  intros [user|]; [|apply atomic_throw].
  destruct (_ && _); [apply atomic_throw|].
  apply atomic_bind_reads.
  - destruct (truthy _); [apply isEmailTaken_reads|].
    apply respects_ret. reflexivity.
  - intros [|]; [apply atomic_throw|apply user_update_atomic].
Qed.

Lemma user_delete_atomic uid : atomic (user_delete uid).
Proof.
  intros db. unfold user_delete.
  destruct (find _ (users db)); [discriminate|auto].
Qed.

Lemma deleteUserById_atomic userId :
  atomic (deleteUserById validateUuid userId).
Proof.
  unfold deleteUserById. destruct (negb _); [apply atomic_throw|].
  apply atomic_bind_reads; [apply getUserById_reads|].
  intros [user|]; [apply user_delete_atomic|apply atomic_throw].
Qed.

Lemma login_reads email password :
  respects eq (loginUserWithEmailAndPassword bcrypt_compare email password).
Proof.
  unfold loginUserWithEmailAndPassword, getUserByEmailWithPassword,
    isPasswordMatch.
  repeat respects_step (@eq_refl Db) eq_trans_db.
Qed.

Lemma generateAuthTokens_atomic tid now user :
  atomic (generateAuthTokens config tid now user).
Proof.
  unfold generateAuthTokens. cbv zeta.
  apply atomic_bind_reads; [apply respects_lift; reflexivity|]. intro.
  apply atomic_bind_reads; [apply respects_lift; reflexivity|]. intro.
  apply atomic_bind_total; [apply saveToken_atomic|].
  intro. apply never_throws_ret.
Qed.

Lemma generateResetPasswordToken_atomic tid now email :
  atomic (generateResetPasswordToken config tid now email).
Proof.
  unfold generateResetPasswordToken. cbv zeta.
  apply atomic_bind_reads; [apply getUserByEmail_reads|].
  intros [user|]; [|apply atomic_throw].
  apply atomic_bind_reads; [apply respects_lift; reflexivity|]. intro.
  apply atomic_bind_total; [apply saveToken_atomic|].
  intro. apply never_throws_ret.
Qed.

Lemma generateVerifyEmailToken_atomic tid now user :
  atomic (generateVerifyEmailToken config tid now user).
Proof.
  unfold generateVerifyEmailToken. cbv zeta.
  apply atomic_bind_reads; [apply respects_lift; reflexivity|]. intro.
  apply atomic_bind_total; [apply saveToken_atomic|].
  intro. apply never_throws_ret.
Qed.

Lemma logout_atomic refreshToken : atomic (logout refreshToken).
Proof.
  unfold logout.
  apply atomic_bind_reads; [apply respects_token_findFirst; reflexivity|].
  intros [doc|]; [|apply atomic_throw].
  apply atomic_bind_total; [apply token_delete_atomic|].
  intro. apply never_throws_ret.
Qed.

Lemma resetPassword_atomic now token newPassword :
  atomic (resetPassword config validateUuid bcrypt_hash now token newPassword).
Proof.
  unfold resetPassword. apply atomic_rethrow.
  apply atomic_bind_reads; [apply verifyToken_reads|]. intro doc.
  apply atomic_bind_reads; [apply getUserById_reads|].
  intros [user|]; [|apply atomic_throw].
  apply atomic_bind_total; [apply updateUserById_atomic|]. intro.
  apply never_throws_bind; [apply token_deleteMany_total|].
  intro. apply never_throws_ret.
Qed.

(** Once the user is found, the update of [verifyEmail] cannot fail. *)
Lemma updateUserById_succeeds userId now d db :
  upd_email d = None ->
  isValidUuid validateUuid userId = true ->
  has_user_id userId db = true ->
  succeeds (fst (updateUserById validateUuid bcrypt_hash userId now d db))
  = true.
Proof.
  intros He Hv Hu. unfold updateUserById. rewrite Hv. simpl.
  unfold bind at 1. rewrite getUserById_eq, Hv. simpl.
  destruct (existsb_find_id userId (users db) Hu) as (u & -> & _). simpl.
  rewrite He. simpl. unfold bind, ret, user_update.
  destruct (existsb_find_id userId (users db) Hu) as (u' & -> & _).
  destruct (truthy (upd_password d)); simpl; [reflexivity|].
  rewrite He. reflexivity.
Qed.

Lemma verifyEmail_atomic now token :
  atomic (verifyEmail config validateUuid bcrypt_hash now token).
Proof.
  intros db F.
  destruct (verifyEmail config validateUuid bcrypt_hash now token db)
    as [[r|e] db'] eqn:E; simpl in *; [discriminate|]. clear F.
  unfold verifyEmail in E.
  apply try_catch_rethrow_Throw in E as [_ [e0 E]].
  apply bind_Throw in E as [E|(doc & db1 & Hv & E)].
  { pose proof (verifyToken_frame config now token VERIFY_EMAIL db) as Hf.
    now rewrite E in Hf. }
  apply verifyToken_Ok_full in Hv as (-> & _).
  pose proof (getUserById_reads validateUuid (Token.userId doc) db) as Hr.
  apply bind_Throw in E as [E|(user & db2 & Hu & E)].
  { now rewrite E in Hr. }
  rewrite Hu in Hr. simpl in Hr. subst db2.
  destruct user as [user|]; [|now injection E as _ <-].
  apply getUserById_Some in Hu as (_ & Hid & Hv & Hhas). exfalso.
  apply bind_Throw in E as [E|(n & db3 & Hdel & E)]; [discriminate E|].
  apply token_deleteMany_eq in Hdel as [Husers _].
  pose proof (updateUserById_succeeds (User.id user) now
                (mkUpdate None None None None (Some true)) db3 eq_refl) as S.
  rewrite Hid in S. specialize (S Hv).
  unfold has_user_id in S, Hhas. rewrite Husers in S. specialize (S Hhas).
  rewrite Hid in E.
  apply bind_Throw in E as [E|(u & db4 & _ & E)];
    [now rewrite E in S|discriminate E].
Qed.

(** X6. Every service call but [refreshAuth] is all or nothing: when it
    throws, both tables are what they were before the call. *)
Theorem failed_call_changes_nothing :
  forall c db,
    all_or_nothing c = true ->
    fst (run config validateUuid bcrypt_hash bcrypt_compare c db) = false ->
    snd (run config validateUuid bcrypt_hash bcrypt_compare c db) = db.
Proof.
  intros c db Hc. destruct c; try discriminate Hc; simpl.
  - apply createUser_atomic.
  - apply updateUserById_atomic.
  - apply deleteUserById_atomic.
  - intros _. symmetry. apply login_reads.
  - apply generateAuthTokens_atomic.
  - apply generateResetPasswordToken_atomic.
  - apply generateVerifyEmailToken_atomic.
  - intros _. apply verifyToken_frame.
  - apply logout_atomic.
  - apply resetPassword_atomic.
  - apply verifyEmail_atomic.
Qed.

End AllOrNothing.

Lemma existsb_eqb_In {A} (f : A -> string) x l :
  existsb (fun a => (f a =? x)%string) l = true <-> In x (map f l).
Proof.
  rewrite existsb_exists, in_map_iff. split; intros (a & H1 & H2).
  - apply String.eqb_eq in H2. eauto.
  - exists a. split; [exact H2|]. now apply String.eqb_eq.
Qed.

Lemma has_user_id_In uid db :
  has_user_id uid db = true <-> In uid (map User.id (users db)).
Proof. apply existsb_eqb_In. Qed.


Lemma find_none_iff {A} (f : A -> bool) l :
  find f l = None <-> forall x, In x l -> f x = false.
Proof.
  split; [apply find_none|].
  intros H. destruct (find f l) as [x|] eqn:F; [|reflexivity].
  apply find_some in F as [I Fx]. rewrite (H x I) in Fx. discriminate.
Qed.

(** * What removes token rows, and what brings a token back *)

Section Frame.

Variable config : Config.
Variable validateUuid : string -> bool.
Variable bcrypt_hash : string -> nat -> string.
Variable bcrypt_compare : string -> string -> bool.

Let jwt_secret := secret (jwt config).

Lemma only_adds_prefix db db' :
  only_adds db db' -> exists l, tokens db' = (tokens db ++ l)%list.
Proof. now intros [_ H]. Qed.

Lemma same_tokens_prefix db db' :
  same_tokens db db' -> exists l, tokens db' = (tokens db ++ l)%list.
Proof. intros H. exists []. now rewrite app_nil_r. Qed.

(** C6, as the code has it.  Verification alone does not change the
    store: after [verifyToken], successful or not, both tables are what
    they were.  The issuing operations of the token service only add rows,
    and no service call removes a token row but [logout], [refreshAuth],
    [resetPassword], [verifyEmail] and [deleteUserById]: after any other
    call the rows that were stored are still there, in their order. *)
Theorem verifyToken_changes_nothing :
  (forall now token type db,
      snd (verifyToken config now token type db) = db)
  /\ (forall tid now token uid expires type bl db,
        only_adds db (snd (saveToken tid now token uid expires type bl db)))
  /\ (forall tid now user db,
        only_adds db (snd (generateAuthTokens config tid now user db)))
  /\ (forall tid now email db,
        only_adds db (snd (generateResetPasswordToken config tid now email db)))
  /\ (forall tid now user db,
        only_adds db (snd (generateVerifyEmailToken config tid now user db)))
  /\ (forall c db,
        removes_tokens c = false ->
        exists l,
          tokens (snd (run config validateUuid bcrypt_hash bcrypt_compare c db))
          = (tokens db ++ l)%list).
Proof.
  split; [intros; apply verifyToken_frame|].
  split; [intros; apply saveToken_only_adds|].
  split; [intros; apply generateAuthTokens_only_adds|].
  split; [intros; apply generateResetPasswordToken_only_adds|].
  split; [intros; apply generateVerifyEmailToken_only_adds|].
  intros c db Hc. destruct c; try discriminate Hc; simpl.
  - apply same_tokens_prefix, createUser_same_tokens.
  - apply same_tokens_prefix, updateUserById_same_tokens.
  - rewrite <- (login_reads bcrypt_compare email password db).
    exists []. now rewrite app_nil_r.
  - apply only_adds_prefix, generateAuthTokens_only_adds.
  - apply only_adds_prefix, generateResetPasswordToken_only_adds.
  - apply only_adds_prefix, generateVerifyEmailToken_only_adds.
  - rewrite verifyToken_frame. exists []. now rewrite app_nil_r.
Qed.

(** ** A token that no stored row answers for *)

Section Unmatched.

Variable payload : TokenPayload.t.
Variable key : string.
Variable type : TokenType.

(** The row is none that [verifyToken] accepts for the token. *)
Let unmatched (r : Token.t) : Prop :=
  verify_where (Jws payload key) type payload r = false.

Lemma unmatched_refused now db :
  Forall unmatched (tokens db) ->
  exists e, fst (verifyToken config now (Jws payload key) type db) = Throw e.
Proof.
  intros H. rewrite verifyToken_eq. cbn [fst].
  destruct (jwt_verify now (Jws payload key) (secret (jwt config)))
    as [p|e] eqn:V; [|eauto].
  apply jwt_verify_Jws in V. subst p.
  rewrite (proj2 (find_none_iff _ _)); [eauto|].
  intros r I. rewrite Forall_forall in H. now apply H.
Qed.

Lemma purged_unmatched db :
  Forall unmatched
    (filter (fun r => negb (owned (TokenPayload.sub payload) type r))
       (tokens db)).
Proof.
  apply Forall_forall. intros r I. apply filter_In in I as [_ I].
  apply negb_true_iff in I. unfold unmatched, verify_where.
  unfold owned in I.
  destruct (Token.userId r =? TokenPayload.sub payload)%string;
    simpl in I; [|now rewrite andb_false_r].
  rewrite I. now rewrite andb_false_r.
Qed.

(** A row signed in another second, or of another kind. *)
Lemma signed_elsewhere_unmatched tid uid now expires T s :
  TokenType_eqb T type && (unix now =? TokenPayload.iat payload) = false ->
  unmatched
    (Token.mk tid (Jws (TokenPayload.mk uid (unix now) (unix expires) T) s)
       T expires false now uid).
Proof.
  intros H. unfold unmatched, verify_where. simpl.
  destruct (TokenType_eqb T type); simpl in H;
    [|now rewrite andb_false_r].
  unfold TokenPayload_eqb. simpl. rewrite H.
  now rewrite !andb_false_r.
Qed.

Lemma user_delete_keeps uid : respects (keeps unmatched) (user_delete uid).
Proof.
  intros db. unfold user_delete, keeps.
  destruct (find _ (users db)); [|auto]. simpl. apply Forall_filter.
Qed.

Lemma issue_keeps {A} tid uid now expires T (a : JwtString -> A) :
  TokenType_eqb T type && (unix now =? TokenPayload.iat payload) = false ->
  respects (keeps unmatched)
    (token <- lift (generateToken now uid expires T (secret (jwt config))) ;;
     saveToken tid now token uid expires T false ;;;
     ret (a token)).
Proof.
  intros H db. unfold bind at 1, lift, generateToken, jwt_sign.
  destruct (secret (jwt config) =? "")%string; [apply keeps_refl|].
  unfold saveToken.
  pose proof (token_create_keeps unmatched tid now _ uid expires T false
                (signed_elsewhere_unmatched tid uid now expires T
                   (secret (jwt config)) H) db)
    as Hk.
  unfold bind, ret.
  destruct (token_create tid now _ uid expires T false db) as [[d|e] db1];
    exact Hk.
Qed.

Lemma generateAuthTokens_keeps_unmatched tid now user :
  TokenType_eqb REFRESH type && (unix now =? TokenPayload.iat payload) = false ->
  respects (keeps unmatched) (generateAuthTokens config tid now user).
Proof.
  intros H db. unfold generateAuthTokens. cbv zeta.
  unfold bind at 1, lift at 1, generateToken at 1, jwt_sign.
  destruct (secret (jwt config) =? "")%string eqn:Hs; [apply keeps_refl|].
  apply (issue_keeps tid (User.id user) now _ REFRESH
           (fun refreshToken =>
              mkAuthTokens (mkTokenWithExpiry _ _)
                (mkTokenWithExpiry refreshToken _)) H).
Qed.

Ltac keeps_rows :=
  repeat first
    [ apply (respects_of_eq _ _ (keeps_refl unmatched)
               (getUserById_reads validateUuid _))
    | apply (respects_of_eq _ _ (keeps_refl unmatched)
               (getUserByEmail_reads _))
    | apply (respects_of_eq _ _ (keeps_refl unmatched)
               (verifyToken_reads config _ _ _))
    | apply token_delete_keeps
    | apply token_deleteMany_keeps
    | apply user_delete_keeps
    | apply (respects_weaken _ _ _ (same_tokens_keeps unmatched)
               (updateUserById_same_tokens validateUuid bcrypt_hash _ _ _))
    | respects_step (keeps_refl unmatched) (keeps_trans unmatched) ].

(** No call brings the token back, but an issuance of its kind in the
    second it was issued in. *)
Lemma run_keeps_unmatched c db :
  signs_in_second type (TokenPayload.iat payload) c = false ->
  keeps unmatched db
    (snd (run config validateUuid bcrypt_hash bcrypt_compare c db)).
Proof.
  destruct c; simpl; intros H.
  - apply same_tokens_keeps, createUser_same_tokens.
  - apply same_tokens_keeps, updateUserById_same_tokens.
  - revert db. fold (respects (keeps unmatched)
                       (deleteUserById validateUuid userId)).
    unfold deleteUserById. keeps_rows.
  - rewrite <- (login_reads bcrypt_compare email password db).
    apply keeps_refl.
  - now apply generateAuthTokens_keeps_unmatched.
  - revert db. fold (respects (keeps unmatched)
                       (generateResetPasswordToken config tid now email)).
    unfold generateResetPasswordToken. cbv zeta.
    apply (respects_bind _ (keeps_trans unmatched)).
    + apply (respects_of_eq _ _ (keeps_refl unmatched)
               (getUserByEmail_reads _)).
    + intros [user|]; [|apply (respects_throw _ (keeps_refl unmatched))].
      now apply (issue_keeps tid (User.id user) now _ RESET_PASSWORD
                   (fun t => t)).
  - revert db. fold (respects (keeps unmatched)
                       (generateVerifyEmailToken config tid now user)).
    unfold generateVerifyEmailToken. cbv zeta.
    now apply (issue_keeps tid (User.id user) now _ VERIFY_EMAIL
                 (fun t => t)).
  - rewrite verifyToken_frame. apply keeps_refl.
  - revert db. fold (respects (keeps unmatched) (logout refreshToken)).
    unfold logout. keeps_rows.
  - revert db. fold (respects (keeps unmatched)
                       (refreshAuth config validateUuid tid now refreshToken)).
    unfold refreshAuth.
    apply (respects_bind _ (keeps_trans unmatched)); [keeps_rows|].
    intro. now apply generateAuthTokens_keeps_unmatched.
  - revert db. fold (respects (keeps unmatched)
                       (resetPassword config validateUuid bcrypt_hash now
                          token newPassword)).
    unfold resetPassword. keeps_rows.
  - revert db. fold (respects (keeps unmatched)
                       (verifyEmail config validateUuid bcrypt_hash now
                          token)).
    unfold verifyEmail. keeps_rows.
Qed.

Lemma run_all_keeps_unmatched calls db :
  forallb (fun c => negb (signs_in_second type (TokenPayload.iat payload) c))
    calls = true ->
  keeps unmatched db
    (run_all config validateUuid bcrypt_hash bcrypt_compare calls db).
Proof.
  revert db. induction calls as [|c calls IH]; simpl; intros db H;
    [apply keeps_refl|].
  apply andb_true_iff in H as [Hc H]. apply negb_true_iff in Hc.
  eapply keeps_trans; [apply (run_keeps_unmatched c db Hc)|now apply IH].
Qed.

End Unmatched.

(** X3. A reset-password token and a verify-email token work once.  After
    a successful [resetPassword] (or [verifyEmail]) the token is refused
    with 401, the store untouched, at the end of every later sequence of
    service calls in which [generateResetPasswordToken] (or
    [generateVerifyEmailToken]) does not run in the very second the token
    was issued in. *)
Theorem consumed_token_is_refused :
  (forall now payload key newPassword db db' calls,
      resetPassword config validateUuid bcrypt_hash now (Jws payload key)
        newPassword db = (Ok tt, db') ->
      forallb (fun c => negb (signs_in_second RESET_PASSWORD
                                (TokenPayload.iat payload) c)) calls = true ->
      forall now' newPassword',
        let later :=
          run_all config validateUuid bcrypt_hash bcrypt_compare calls db' in
        resetPassword config validateUuid bcrypt_hash now' (Jws payload key)
          newPassword' later
        = (Throw (ApiError UNAUTHORIZED "Password reset failed"), later))
  /\ (forall now payload key db db' calls,
        verifyEmail config validateUuid bcrypt_hash now (Jws payload key) db
        = (Ok tt, db') ->
        forallb (fun c => negb (signs_in_second VERIFY_EMAIL
                                  (TokenPayload.iat payload) c)) calls = true ->
        forall now',
          let later :=
            run_all config validateUuid bcrypt_hash bcrypt_compare calls db' in
          verifyEmail config validateUuid bcrypt_hash now' (Jws payload key)
            later
          = (Throw (ApiError UNAUTHORIZED "Email verification failed"),
             later)).
Proof.
  split.
  - intros now payload key pw db db' calls H Hcalls now' pw' later.
    apply resetPassword_Ok in H as (p & V & T).
    apply jwt_verify_Jws in V. subst p.
    assert (U : Forall
                  (fun r => verify_where (Jws payload key) RESET_PASSWORD
                              payload r = false) (tokens later)).
    { apply (run_all_keeps_unmatched payload key RESET_PASSWORD calls db'
               Hcalls).
      rewrite T. apply purged_unmatched. }
    destruct (unmatched_refused payload key RESET_PASSWORD now' later U)
      as [e He].
    unfold resetPassword.
    eapply (rethrow_when_verify_fails config). exact He.
  - intros now payload key db db' calls H Hcalls now' later.
    apply verifyEmail_Ok in H as (p & V & T).
    apply jwt_verify_Jws in V. subst p.
    assert (U : Forall
                  (fun r => verify_where (Jws payload key) VERIFY_EMAIL
                              payload r = false) (tokens later)).
    { apply (run_all_keeps_unmatched payload key VERIFY_EMAIL calls db'
               Hcalls).
      rewrite T. apply purged_unmatched. }
    destruct (unmatched_refused payload key VERIFY_EMAIL now' later U)
      as [e He].
    unfold verifyEmail.
    eapply (rethrow_when_verify_fails config). exact He.
Qed.

End Frame.

(** * Logout *)

Section Logout.

Variable config : Config.
Variable validateUuid : string -> bool.


End Logout.

(** * Who gets through the bearer middleware *)

Section Bearer.

Variable config : Config.
Variable validateUuid : string -> bool.

Let jwt_secret := secret (jwt config).

Lemma passport_authenticate_reads now bearer :
  respects eq (passport_authenticate config validateUuid now bearer).
Proof.
  unfold passport_authenticate, jwtVerify.
  destruct bearer as [token|]; [|apply respects_ret; reflexivity].
  destruct (jwt_verify now token (secret (jwt config)));
    [|apply respects_ret; reflexivity].
  repeat first
    [ apply getUserById_reads
    | respects_step (@eq_refl Db) eq_trans_db ].
Qed.

(** What the callback of [passport.authenticate] receives. *)
Lemma passport_authenticate_user now bearer db err user info db' :
  passport_authenticate config validateUuid now bearer db
  = (Ok (err, Some user, info), db') ->
  err = None /\ info = None
  /\ exists payload row,
       bearer = Some (Jws payload jwt_secret)
       /\ TokenPayload.type payload = ACCESS
       /\ unix now < TokenPayload.exp payload
       /\ find (fun u => (User.id u =? TokenPayload.sub payload)%string)
            (users db) = Some row
       /\ user = select_public row.
Proof.
  unfold passport_authenticate. destruct bearer as [token|]; [|discriminate].
  fold jwt_secret.
  destruct (jwt_verify now token jwt_secret) as [payload|e] eqn:V;
    [|discriminate].
  apply jwt_verify_Ok in V as (-> & _ & Hexp).
  unfold jwtVerify, try_catch, bind at 1.
  destruct (TokenType_eqb_spec (TokenPayload.type payload) ACCESS) as [Hty|];
    simpl; [|discriminate].
  unfold bind. rewrite getUserById_eq.
  destruct (negb (isValidUuid validateUuid (TokenPayload.sub payload)));
    simpl; [discriminate|].
  destruct (find _ (users db)) as [row|] eqn:F; simpl; [|discriminate].
  intros [= <- <- <- _]. repeat split; auto. exists payload, row. auto.
Qed.

(** X9. The passport middlewares never throw and never write.  A request
    gets through only with a bearer token signed with the configured
    secret, of type ACCESS, not expired, whose [sub] is the id of a user of
    the store; [req.user] is then that user without the password. *)
Theorem auth_admits_only_live_users :
  forall requiredRights now req bearer db,
    (exists req' decision,
        auth config validateUuid requiredRights now req bearer db
        = (Ok (req', decision), db))
    /\ (exists req' decision,
          authWithSelfAccess config validateUuid requiredRights now req
            bearer db = (Ok (req', decision), db))
    /\ (forall req',
          fst (auth config validateUuid requiredRights now req bearer db)
          = Ok (req', Resolve)
          \/ fst (authWithSelfAccess config validateUuid requiredRights now
                    req bearer db) = Ok (req', Resolve) ->
          exists payload row,
            bearer = Some (Jws payload jwt_secret)
            /\ TokenPayload.type payload = ACCESS
            /\ unix now < TokenPayload.exp payload
            /\ find (fun u => (User.id u =? TokenPayload.sub payload)%string)
                 (users db) = Some row
            /\ req_user req' = Some (select_public row)).
Proof.
  intros rights now req bearer db.
  pose proof (passport_authenticate_reads now bearer db) as Hr.
  unfold auth, authWithSelfAccess, bind, ret.
  destruct (passport_authenticate config validateUuid now bearer db)
    as [[[[err user] info]|e] db1] eqn:P; simpl in Hr; subst db1.
  2:{ exfalso. revert P. unfold passport_authenticate.
      destruct bearer as [token|]; [|discriminate].
      destruct (jwt_verify now token (secret (jwt config)));
        [|discriminate].
      unfold jwtVerify, try_catch, bind.
      destruct (negb _); [discriminate|].
      rewrite getUserById_eq. destruct (negb _); [discriminate|].
      simpl. destruct (find _ (users db)); discriminate. }
  split; [|split].
  - destruct (verifyCallback validateUuid req rights false err user info)
      as [req' d]. eauto.
  - destruct (verifyCallback validateUuid req rights true err user info)
      as [req' d]. eauto.
  - assert (H : forall self req',
               verifyCallback validateUuid req rights self err user info
               = (req', Resolve) ->
               exists u, user = Some u /\ req_user req' = Some u).
    { intros self req'. unfold verifyCallback.
      destruct err; [discriminate|]. destruct info; [discriminate|].
      destruct user as [u|]; [|discriminate]. cbv zeta.
      intros H. exists u. split; [reflexivity|].
      repeat match type of H with
             | (if ?b then _ else _) = _ => destruct b
             end; injection H as <-; try reflexivity; discriminate. }
    intros req' [E|E]; simpl in E; injection E as E;
      apply H in E as (u & -> & Hu);
      apply passport_authenticate_user in P
        as (_ & _ & payload & row & Hb & Hty & Hexp & F & ->);
      exists payload, row; auto.
Qed.

End Bearer.

(** * Registration and login *)

Lemma lower_char_idem c : lower_char (lower_char c) = lower_char c.
Proof. destruct c as [[] [] [] [] [] [] [] []]; reflexivity. Qed.

Lemma toLowerCase_idem s : toLowerCase (toLowerCase s) = toLowerCase s.
Proof.
  induction s as [|c s IH]; simpl; [reflexivity|].
  now rewrite lower_char_idem, IH.
Qed.

Lemma find_app_none {A} (f : A -> bool) l x :
  find f l = None -> f x = true -> find f (l ++ [x]) = Some x.
Proof.
  induction l as [|a l IH]; simpl; intros H Hx; [now rewrite Hx|].
  destruct (f a); [discriminate|auto].
Qed.

Lemma find_app_skip {A} (f : A -> bool) l x :
  f x = false -> find f (l ++ [x]) = find f l.
Proof.
  induction l as [|a l IH]; simpl; intros Hx; [now rewrite Hx|].
  destruct (f a); auto.
Qed.

Lemma existsb_false_find {A} (f : A -> bool) l :
  existsb f l = false -> find f l = None.
Proof.
  intros H. apply find_none_iff. intros x I.
  destruct (f x) eqn:E; [|reflexivity].
  rewrite <- H. symmetry. apply existsb_exists. eauto.
Qed.

Section Registration.

Variable config : Config.
Variable validateUuid : string -> bool.
Variable bcrypt_hash : string -> nat -> string.
Variable bcrypt_compare : string -> string -> bool.

(** What a successful [createUser] did. *)
Lemma createUser_Ok uid now userBody db u db' :
  createUser bcrypt_hash uid now userBody db = (Ok u, db') ->
  let row :=
    User.mk uid (cu_email userBody)
      (Some (bcrypt_hash (cu_password userBody) 8)) (cu_name userBody)
      (or_else (cu_role userBody) USER)
      (or_else (cu_isEmailVerified userBody) false) now now in
  u = select_public row
  /\ db' = mkDb (users db ++ [row]) (tokens db)
  /\ isValidEmail (cu_email userBody) = true
  /\ has_user_id uid db = false
  /\ existsb (fun v => (User.email v =? cu_email userBody)%string) (users db)
     = false.
Proof.
  intros H row. unfold createUser in H.
  destruct (isValidEmail (cu_email userBody)) eqn:Hv; simpl in H;
    [|discriminate].
  apply bind_Ok in H as ([|] & db1 & Ht & H); [discriminate|].
  pose proof (isEmailTaken_reads (cu_email userBody) None db) as Hr.
  rewrite Ht in Hr. simpl in Hr. subst db1.
  apply bind_Ok in H as (user & db2 & Hc & H). injection H as <- <-.
  unfold user_create in Hc.
  destruct (has_user_id uid db) eqn:Hu; [discriminate|].
  destruct (existsb _ (users db)) eqn:He; [discriminate|].
  injection Hc as <- <-. auto.
Qed.

(** X10. Registration and lookup round trip.  After a successful
    [createUser] with a lower-case email, [loginUserWithEmailAndPassword]
    with that email in any letter case and the same password returns the
    user [createUser] returned, and so do [getUserByEmail] and, for a
    well-formed id, [getUserById] (given that [bcrypt.compare] accepts the
    hash [bcrypt.hash] made). *)
Theorem register_then_login :
  forall uid now userBody db u db' email,
    (forall password, bcrypt_compare password (bcrypt_hash password 8) = true) ->
    createUser bcrypt_hash uid now userBody db = (Ok u, db') ->
    toLowerCase email = cu_email userBody ->
    loginUserWithEmailAndPassword bcrypt_compare email (cu_password userBody)
      db' = (Ok u, db')
    /\ getUserByEmail email db' = (Ok (Some u), db')
    /\ (isValidUuid validateUuid uid = true ->
        getUserById validateUuid uid db' = (Ok (Some u), db')).
Proof.
  intros uid now body db u db' email Hb H He.
  apply createUser_Ok in H as (-> & -> & _ & Hu & Hn).
  set (row := User.mk uid _ _ _ _ _ _ _).
  assert (F : find (fun v => (User.email v =? toLowerCase email)%string)
                (users db ++ [row]) = Some row).
  { rewrite He. apply find_app_none; [now apply existsb_false_find|].
    apply String.eqb_refl. }
  split; [|split].
  - unfold loginUserWithEmailAndPassword, getUserByEmailWithPassword,
      isPasswordMatch; unfold_m. simpl. rewrite F. simpl.
    now rewrite Hb.
  - unfold getUserByEmail; unfold_m. simpl. now rewrite F.
  - intros Hv. rewrite getUserById_eq, Hv. simpl.
    rewrite find_app_none; [reflexivity| |apply String.eqb_refl].
    now apply existsb_false_find.
Qed.

(** X11. A user registered with an upper-case letter in the email is out
    of reach of every lookup by email: no email and password log that user
    in, [getUserByEmail] never returns the user, and a reset-password token
    is never issued for the user. *)
Theorem mixed_case_email_is_unreachable :
  forall uid now userBody db u db',
    createUser bcrypt_hash uid now userBody db = (Ok u, db') ->
    toLowerCase (cu_email userBody) <> cu_email userBody ->
    forall email,
      (forall password u',
          fst (loginUserWithEmailAndPassword bcrypt_compare email password db')
          = Ok u' -> User.id u' <> uid)
      /\ (forall u',
            fst (getUserByEmail email db') = Ok (Some u') -> User.id u' <> uid)
      /\ (forall tid now' token db'',
            generateResetPasswordToken config tid now' email db'
            = (Ok token, db'') ->
            forall payload key,
              token = Jws payload key -> TokenPayload.sub payload <> uid).
Proof.
  intros uid now body db u db' H Hcase email.
  apply createUser_Ok in H as (-> & -> & _ & Hu & _).
  set (row := User.mk uid _ _ _ _ _ _ _).
  assert (F : forall v,
             find (fun v => (User.email v =? toLowerCase email)%string)
               (users db ++ [row]) = Some v -> User.id v <> uid).
  { intros v Fv. rewrite find_app_skip in Fv.
    - apply find_some in Fv as [I _]. intros E.
      assert (has_user_id uid db = true); [|congruence].
      apply has_user_id_In. rewrite <- E. now apply in_map.
    - apply String.eqb_neq. simpl. intros E. apply Hcase.
      rewrite E. apply toLowerCase_idem. }
  split; [|split].
  - intros pw u'. unfold loginUserWithEmailAndPassword,
      getUserByEmailWithPassword, isPasswordMatch; unfold_m. simpl.
    destruct (find _ (users db ++ [row])) as [v|] eqn:Fv; [|discriminate].
    simpl. destruct (User.password v); [|discriminate]. simpl.
    destruct (bcrypt_compare pw s); [|discriminate].
    simpl. intros [= <-]. simpl. now apply F.
  - intros u'. unfold getUserByEmail; unfold_m. simpl.
    destruct (find _ (users db ++ [row])) as [v|] eqn:Fv; [|discriminate].
    simpl. intros [= <-]. simpl. now apply F.
  - intros tid now' token db'' G payload key ->.
    unfold generateResetPasswordToken, getUserByEmail in G.
    apply bind_Ok in G as (ou & db1 & Hg & G).
    apply bind_Ok in Hg as (ov & db2 & Hf & Hg).
    unfold user_find in Hf. cbv [ret] in Hg.
    inversion Hf; subst; clear Hf. inversion Hg; subst; clear Hg.
    destruct (find _ (users db ++ [row])) as [v|] eqn:Fv; simpl in G;
      [|discriminate].
    apply bind_Ok in G as (t & db3 & Hs & G).
    unfold lift, generateToken, jwt_sign in Hs.
    destruct (secret (jwt config) =? "")%string; [discriminate|].
    injection Hs as <- <-.
    apply bind_Ok in G as (d & db4 & _ & G). cbv [ret] in G.
    inversion G; subst; clear G. simpl. now apply F.
Qed.

(** X12. [loginUserWithEmailAndPassword] looks the user up by the email in
    lower case.  An unknown email and a wrong password both throw the 401
    'Incorrect email or password' and nothing else tells them apart; the
    password [bcrypt.compare] accepts returns the stored user without the
    hash.  In no case is the store written, or a hash returned. *)
Theorem login_reads_and_fails_alike :
  forall email password db,
    let found :=
      find (fun u => (User.email u =? toLowerCase email)%string) (users db) in
    let login :=
      loginUserWithEmailAndPassword bcrypt_compare email password db in
    let denied :=
      (Throw (ApiError UNAUTHORIZED "Incorrect email or password"), db) in
    (found = None -> login = denied)
    /\ (forall row hash,
          found = Some row -> User.password row = Some hash ->
          bcrypt_compare password hash = false -> login = denied)
    /\ (forall row hash,
          found = Some row -> User.password row = Some hash ->
          bcrypt_compare password hash = true ->
          login = (Ok (select_public row), db))
    /\ snd login = db
    /\ (forall u, fst login = Ok u -> User.password u = None).
Proof.
  intros email pw db found login denied. subst found login denied.
  unfold loginUserWithEmailAndPassword, getUserByEmailWithPassword,
    isPasswordMatch; unfold_m.
  destruct (find _ (users db)) as [v|] eqn:F; simpl.
  - destruct (User.password v) as [h|] eqn:Hp; simpl.
    + destruct (bcrypt_compare pw h) eqn:Hc; simpl.
      * split; [discriminate|]. split.
        { intros row hash [= <-] Hh. rewrite Hp in Hh. injection Hh as <-.
          congruence. }
        split; [now intros row hash [= <-] _ _|].
        split; [reflexivity|]. now intros u [= <-].
      * split; [discriminate|]. split; [reflexivity|]. split.
        { intros row hash [= <-] Hh. rewrite Hp in Hh. injection Hh as <-.
          congruence. }
        split; [reflexivity|discriminate].
    + split; [discriminate|].
      split; [intros row hash [= <-]; congruence|].
      split; [intros row hash [= <-]; congruence|].
      split; [reflexivity|discriminate].
  - split; [reflexivity|]. split; [discriminate|]. split; [discriminate|].
    split; [reflexivity|discriminate].
Qed.

End Registration.

(** * Deleting a user *)

Lemma verifyCallback_no_user validateUuid req rights self err info :
  verifyCallback validateUuid req rights self err None info
  = (req, Reject (ApiError UNAUTHORIZED "Please authenticate")).
Proof. unfold verifyCallback. destruct err, info; reflexivity. Qed.

Section DeleteUser.

Variable config : Config.
Variable validateUuid : string -> bool.

(** Nobody is authenticated as a user the store does not hold. *)
Lemma passport_authenticate_unknown now payload key db :
  has_user_id (TokenPayload.sub payload) db = false ->
  exists err info,
    passport_authenticate config validateUuid now (Some (Jws payload key)) db
    = (Ok (err, None, info), db).
Proof.
  intros Hu. unfold passport_authenticate.
  destruct (jwt_verify now (Jws payload key) (secret (jwt config)))
    as [p|e] eqn:V; [|unfold ret; eauto].
  apply jwt_verify_Jws in V. subst p.
  unfold jwtVerify, try_catch, bind.
  destruct (negb _); [unfold throw, ret; eauto|].
  destruct (getUserById validateUuid (TokenPayload.sub payload) db)
    as [r d] eqn:G.
  rewrite getUserById_eq in G.
  destruct (negb (isValidUuid validateUuid (TokenPayload.sub payload)));
    injection G as <- <-; [unfold ret; eauto|].
  unfold has_user_id in Hu. rewrite (existsb_false_find _ _ Hu).
  unfold ret. simpl. eauto.
Qed.

(** X13. [deleteUserById] throws 400 for an id that is not well-formed and
    404 for an unknown one, changing nothing.  When it succeeds the user
    row and the token rows of the user are gone and every other row stays;
    from then on no token whose [sub] is that id verifies, and both
    passport middlewares reject it as a bearer token with 401. *)
Theorem deleteUserById_removes_user_and_tokens :
  (forall userId db,
      isValidUuid validateUuid userId = false ->
      deleteUserById validateUuid userId db
      = (Throw (ApiError BAD_REQUEST "Invalid user ID format"), db))
  /\ (forall userId db,
        isValidUuid validateUuid userId = true ->
        has_user_id userId db = false ->
        deleteUserById validateUuid userId db
        = (Throw (ApiError NOT_FOUND "User not found"), db))
  /\ (forall userId db u db',
        deleteUserById validateUuid userId db = (Ok u, db') ->
        User.id u = userId
        /\ In u (users db)
        /\ users db'
           = filter (fun v => negb (User.id v =? userId)%string) (users db)
        /\ tokens db'
           = filter (fun r => negb (Token.userId r =? userId)%string)
               (tokens db)
        /\ forall now payload key,
             TokenPayload.sub payload = userId ->
             (forall type,
                 exists e,
                   verifyToken config now (Jws payload key) type db'
                   = (Throw e, db'))
             /\ (forall requiredRights req,
                    auth config validateUuid requiredRights now req
                      (Some (Jws payload key)) db'
                    = (Ok (req, Reject (ApiError UNAUTHORIZED
                                          "Please authenticate")), db')
                    /\ authWithSelfAccess config validateUuid requiredRights
                         now req (Some (Jws payload key)) db'
                       = (Ok (req, Reject (ApiError UNAUTHORIZED
                                             "Please authenticate")), db'))).
Proof.
  split; [|split].
  - intros userId db Hv. unfold deleteUserById. now rewrite Hv.
  - intros userId db Hv Hu. unfold deleteUserById. rewrite Hv. simpl.
    unfold bind. rewrite getUserById_eq, Hv. simpl.
    unfold has_user_id in Hu. now rewrite (existsb_false_find _ _ Hu).
  - intros userId db u db' H. unfold deleteUserById in H.
    destruct (negb (isValidUuid validateUuid userId)); [discriminate|].
    apply bind_Ok in H as ([user|] & db1 & Hu & H); [|discriminate].
    apply getUserById_Some in Hu as (-> & _).
    unfold user_delete in H.
    destruct (find _ (users db)) as [row|] eqn:F; [|discriminate].
    injection H as <- <-. apply find_some in F as [I E].
    apply String.eqb_eq in E. simpl.
    repeat split; auto.
    + intros type. rewrite verifyToken_eq. cbn [tokens].
      destruct (jwt_verify now (Jws payload key) (secret (jwt config)))
        as [p|e] eqn:V; [|eauto].
      apply jwt_verify_Jws in V. subst p.
      destruct (find (verify_where (Jws payload key) type payload) _)
        as [r|] eqn:Fr; [|eauto]. exfalso.
      apply find_some in Fr as [Ir W].
      apply verify_where_true in W as (_ & _ & Hs & _).
      apply filter_In in Ir as [_ Hr].
      apply negb_true_iff, String.eqb_neq in Hr. congruence.
    + set (db' := mkDb _ _).
      assert (Hgone : has_user_id (TokenPayload.sub payload) db' = false).
      { rewrite <- not_true_iff_false. intros Hh.
        apply has_user_id_In in Hh. simpl in Hh.
        apply in_map_iff in Hh as (v & Ev & Iv).
        apply filter_In in Iv as [_ Hv].
        apply negb_true_iff, String.eqb_neq in Hv. congruence. }
      destruct (passport_authenticate_unknown now payload key db' Hgone)
        as (err & info & P).
      unfold auth, bind. rewrite P. unfold ret.
      now rewrite verifyCallback_no_user.
    + set (db' := mkDb _ _).
      assert (Hgone : has_user_id (TokenPayload.sub payload) db' = false).
      { rewrite <- not_true_iff_false. intros Hh.
        apply has_user_id_In in Hh. simpl in Hh.
        apply in_map_iff in Hh as (v & Ev & Iv).
        apply filter_In in Iv as [_ Hv].
        apply negb_true_iff, String.eqb_neq in Hv. congruence. }
      destruct (passport_authenticate_unknown now payload key db' Hgone)
        as (err & info & P).
      unfold authWithSelfAccess, bind. rewrite P. unfold ret.
      now rewrite verifyCallback_no_user.
Qed.

End DeleteUser.

(** * The other two access checks *)

Section OtherChecks.

Variable config : Config.
Variable validateUuid : string -> bool.
Variable token_of_string : string -> JwtString.

(** X14. [requireSelfOrAdmin] of [middlewares/auth.ts] lets a request
    through exactly when it carries a user and either names no [userId], or
    names a well-formed one that is the user's own id or that a role with
    [manageUsers] asks for.  Without a user it answers 401; a [userId] that
    is not well-formed is answered 400, for an administrator too. *)
Theorem requireSelfOrAdmin_guard :
  forall req,
    (requireSelfOrAdmin validateUuid req = None <->
     exists user,
       req_user req = Some user
       /\ (truthy (params_userId req) = false
           \/ exists p,
                params_userId req = Some p
                /\ isValidUuid validateUuid p = true
                /\ (In "manageUsers" (permissions (User.role user))
                    \/ p = User.id user)))
    /\ (req_user req = None ->
        requireSelfOrAdmin validateUuid req
        = Some (ApiError UNAUTHORIZED "Please authenticate"))
    /\ (forall user p,
          req_user req = Some user -> params_userId req = Some p ->
          p <> "" -> isValidUuid validateUuid p = false ->
          requireSelfOrAdmin validateUuid req
          = Some (ApiError BAD_REQUEST "Invalid user ID format")).
Proof.
  intros [p u]. unfold requireSelfOrAdmin. simpl. split; [|split].
  - destruct u as [user|].
    2:{ split; [discriminate|]. intros (x & [=] & _). }
    fold (permissions (User.role user)).
    destruct p as [p|]; simpl.
    2:{ destruct (includes _ _); split; eauto. }
    destruct (String.eqb_spec p ""); simpl.
    { destruct (includes _ _); split; eauto. }
    destruct (isValidUuid validateUuid p) eqn:Hv; simpl.
    + destruct (includes (permissions (User.role user)) "manageUsers") eqn:Hi.
      * split; [|reflexivity]. intros _. exists user. split; [reflexivity|].
        right. exists p. apply includes_In in Hi. auto.
      * destruct (String.eqb_spec p (User.id user)); simpl.
        -- split; [|reflexivity]. intros _. exists user.
           split; [reflexivity|]. right. exists p. auto.
        -- split; [discriminate|].
           intros (x & [= <-] & [[=]|(q & [= <-] & _ & [Hin|Heq])]).
           ++ apply includes_In in Hin. congruence.
           ++ contradiction.
    + split; [discriminate|].
      intros (x & _ & [[=]|(q & [= <-] & Hq & _)]). congruence.
  - now intros ->.
  - intros user q -> [= ->] Hn Hv. simpl.
    apply String.eqb_neq in Hn. now rewrite Hn, Hv.
Qed.

Lemma is_space_lower_char c : is_space c = true -> lower_char c = c.
Proof.
  unfold is_space, lower_char. set (n := code c). intros H.
  destruct ((65 <=? n) && (n <=? 90)
            || (192 <=? n) && (n <=? 222) && negb (n =? 215))%nat eqn:E;
    [|reflexivity].
  exfalso. revert H E. generalize n. clear. intros n H E.
  repeat match type of H with
         | (_ || _)%bool = true => apply orb_true_iff in H as [H|H]
         | (_ && _)%bool = true => apply andb_true_iff in H as [H ?]
         end;
    repeat match goal with
           | H : (_ <=? _)%nat = true |- _ => apply Nat.leb_le in H
           | H : (_ =? _)%nat = true |- _ => apply Nat.eqb_eq in H
           end;
    apply orb_true_iff in E as [E|E];
    repeat match type of E with
           | (_ && _)%bool = true => apply andb_true_iff in E as [E ?]
           end;
    repeat match goal with
           | H : (_ <=? _)%nat = true |- _ => apply Nat.leb_le in H
           end; lia.
Qed.

(** A word that reads [bearer] in lower case has no white space. *)
Lemma lowered_no_space s t :
  toLowerCase s = t -> no_space t = true -> no_space s = true.
Proof.
  revert t. induction s as [|c s IH]; intros t E Ht; [reflexivity|].
  simpl in E. subst t. unfold no_space in *. simpl in *.
  apply andb_true_iff in Ht as [Hc Ht]. apply andb_true_iff. split.
  - unfold not_space in *. destruct (is_space c) eqn:Hs; [|reflexivity].
    rewrite (is_space_lower_char c Hs), Hs in Hc. discriminate Hc.
  - now apply (IH _ eq_refl).
Qed.

Lemma take_while_app p l c l' :
  forallb p l = true -> p c = false ->
  take_while p (l ++ c :: l') = l.
Proof.
  induction l as [|a l IH]; simpl; intros Hl Hc; [now rewrite Hc|].
  apply andb_true_iff in Hl as [-> Hl]. now rewrite IH.
Qed.

Lemma skip_while_app p l c l' :
  forallb p l = true -> p c = false ->
  skip_while p (l ++ c :: l') = c :: l'.
Proof.
  induction l as [|a l IH]; simpl; intros Hl Hc; [now rewrite Hc|].
  apply andb_true_iff in Hl as [-> Hl]. now rewrite IH.
Qed.

Lemma take_while_all p l : forallb p l = true -> take_while p l = l.
Proof.
  induction l as [|a l IH]; simpl; [reflexivity|]. intros H.
  apply andb_true_iff in H as [-> H]. now rewrite IH.
Qed.

Lemma list_ascii_of_append a b :
  list_ascii_of_string (a ++ b)
  = (list_ascii_of_string a ++ list_ascii_of_string b)%list.
Proof. induction a as [|c a IH]; simpl; [reflexivity|now rewrite IH]. Qed.

(** The two words of a header [scheme token]. *)
Lemma fromAuthHeader_two_words scheme t :
  scheme <> "" -> no_space scheme = true ->
  t <> "" -> no_space t = true ->
  fromAuthHeaderAsBearerToken (Some (scheme ++ " " ++ t))
  = if (toLowerCase scheme =? "bearer")%string then Some t else None.
Proof.
  intros Hs Hns Ht Hnt. unfold fromAuthHeaderAsBearerToken.
  rewrite list_ascii_of_append. simpl list_ascii_of_string.
  set (ls := list_ascii_of_string scheme) in *.
  set (lt := list_ascii_of_string t) in *.
  assert (Els : string_of_list_ascii ls = scheme)
    by apply string_of_list_ascii_of_string.
  assert (Elt : string_of_list_ascii lt = t)
    by apply string_of_list_ascii_of_string.
  unfold no_space in Hns, Hnt. fold ls in Hns. fold lt in Hnt.
  destruct ls as [|c ls'] eqn:Dls; [simpl in Els; congruence|].
  destruct lt as [|d lt'] eqn:Dlt; [simpl in Elt; congruence|].
  assert (Hc : is_space c = false).
  { simpl in Hns. apply andb_true_iff in Hns as [Hc _].
    unfold not_space in Hc. now apply negb_true_iff in Hc. }
  assert (Hd : is_space d = false).
  { simpl in Hnt. apply andb_true_iff in Hnt as [Hd _].
    unfold not_space in Hd. now apply negb_true_iff in Hd. }
  assert (Hsp : not_space " "%char = false) by reflexivity.
  cbn [app skip_while]. rewrite Hc.
  change (c :: (ls' ++ " "%char :: d :: lt')%list)
    with ((c :: ls') ++ " "%char :: d :: lt')%list.
  rewrite (take_while_app not_space _ _ _ Hns Hsp).
  rewrite (skip_while_app not_space _ _ _ Hns Hsp).
  cbn [skip_while]. change (is_space " "%char) with true. cbv iota.
  rewrite Hd. rewrite (take_while_all not_space _ Hnt).
  rewrite Els, Elt. reflexivity.
Qed.

(** X15. On a header [Bearer token] the middleware of [auth.simple.ts] and
    the passport middlewares of [auth.ts] admit the same requests, with the
    same [req.user]; the middleware of [auth.simple.ts] never writes to the
    store.  They differ in the header they accept: [passport-jwt] reads
    the scheme in any letter case, [auth.simple.ts] wants the prefix
    [Bearer ] as it is and answers 401 'Access token required' to any
    other spelling.  They differ in the errors too: a token [jwt.verify]
    refuses reaches [next] as the error [jwt.verify] threw. *)
Theorem auth_simple_agrees_with_passport :
  forall requiredRights now req db,
    let simple allowSelfAccess authorization :=
      auth_simple config validateUuid token_of_string
        (mkAuthOptions (Some requiredRights) (Some allowSelfAccess) None)
        now req authorization db in
    (forall allowSelfAccess authorization,
        snd (simple allowSelfAccess authorization) = db)
    /\ (forall t req',
          t <> "" -> no_space t = true ->
          (fst (auth config validateUuid requiredRights now req
                  (bearer_of token_of_string (Some ("Bearer " ++ t))) db)
           = Ok (req', Resolve)
           <-> fst (simple false (Some ("Bearer " ++ t))) = Ok (req', None))
          /\ (fst (authWithSelfAccess config validateUuid requiredRights now
                     req (bearer_of token_of_string (Some ("Bearer " ++ t)))
                     db) = Ok (req', Resolve)
              <-> fst (simple true (Some ("Bearer " ++ t)))
                  = Ok (req', None)))
    /\ (forall scheme t allowSelfAccess,
          toLowerCase scheme = "bearer" -> scheme <> "Bearer" ->
          t <> "" -> no_space t = true ->
          bearer_of token_of_string (Some (scheme ++ " " ++ t))
          = Some (token_of_string t)
          /\ fst (simple allowSelfAccess (Some (scheme ++ " " ++ t)))
             = Ok (req, Some (ApiError UNAUTHORIZED "Access token required")))
    /\ (forall allowSelfAccess t e,
          t <> "" ->
          jwt_verify now (token_of_string t) (secret (jwt config)) = Throw e ->
          fst (simple allowSelfAccess (Some ("Bearer " ++ t)))
          = Ok (req, Some e)).
Proof.
  intros rights now req db simple.
  assert (Hbearer : forall t,
             t <> "" -> no_space t = true ->
             bearer_of token_of_string (Some ("Bearer " ++ t))
             = Some (token_of_string t)).
  { intros t Ht Hn. unfold bearer_of.
    change ("Bearer " ++ t) with ("Bearer" ++ " " ++ t).
    rewrite fromAuthHeader_two_words; [reflexivity|discriminate|reflexivity
                                      |exact Ht|exact Hn]. }
  assert (Hagree : forall self t req',
             t <> "" ->
             fst (bind (passport_authenticate config validateUuid now
                          (Some (token_of_string t)))
                    (fun r =>
                       let '(err, user, info) := r in
                       ret (verifyCallback validateUuid req rights self err
                              user info)) db) = Ok (req', Resolve)
             <-> fst (simple self (Some ("Bearer " ++ t))) = Ok (req', None)).
  { intros self t req' Ht. subst simple. cbv beta.
    unfold auth_simple, passport_authenticate, bind at 1.
    change (prefix "Bearer " ("Bearer " ++ t)) with (prefix "" t).
    replace (prefix "" t) with true by (now destruct t).
    change (slice_from 7 ("Bearer " ++ t))
      with (string_of_list_ascii (list_ascii_of_string t)).
    rewrite string_of_list_ascii_of_string. cbn [truthy or_else].
    apply String.eqb_neq in Ht. rewrite Ht. cbn [negb].
    destruct (token_of_string t) as [payload key|x]; simpl.
    - destruct (String.eqb_spec (secret (jwt config)) ""); simpl;
        [split; discriminate|].
      destruct (key =? secret (jwt config))%string; simpl;
        [|split; discriminate].
      destruct (TokenPayload.exp payload <=? unix now); simpl;
        [split; discriminate|].
      unfold jwtVerify, try_catch, bind.
      destruct (TokenType_eqb (TokenPayload.type payload) ACCESS); simpl;
        [|split; discriminate].
      rewrite getUserById_eq.
      destruct (negb (isValidUuid validateUuid (TokenPayload.sub payload)));
        simpl; [split; discriminate|].
      destruct (find _ (users db)) as [row|]; simpl; [|split; discriminate].
      unfold verifyCallback. cbv zeta. cbn [params_userId].
      destruct rights as [|right rights']; simpl; [split; congruence|].
      destruct (includes _ right && forallb _ rights'); simpl;
        [split; congruence|].
      destruct self; simpl; [|split; discriminate].
      destruct (truthy (params_userId req)); simpl; [|split; discriminate].
      destruct (isValidUuid validateUuid (or_else (params_userId req) ""));
        simpl; [|split; discriminate].
      destruct (or_else (params_userId req) "" =? User.id row)%string;
        simpl; split; solve [congruence|discriminate].
    - destruct (x =? "")%string; simpl; [split; discriminate|].
      destruct (negb (dots x =? 2)%nat); simpl; split; discriminate. }
  split; [|split; [|split]].
  - intros self authorization. subst simple. cbv beta. symmetry.
    assert (Hr : respects eq
                   (auth_simple config validateUuid token_of_string
                      (mkAuthOptions (Some rights) (Some self) None) now req
                      authorization)); [|apply Hr].
    unfold auth_simple. cbv zeta.
    repeat first
      [ apply getUserById_reads
      | respects_step (@eq_refl Db) eq_trans_db ].
  - intros t req' Ht Hn. rewrite (Hbearer t Ht Hn). split.
    + apply (Hagree false t req' Ht).
    + apply (Hagree true t req' Ht).
  - intros scheme t self Hl Hne Ht Hn. split.
    + unfold bearer_of. rewrite fromAuthHeader_two_words.
      * now rewrite Hl.
      * intros ->. discriminate Hl.
      * now apply (lowered_no_space scheme "bearer").
      * exact Ht.
      * exact Hn.
    + subst simple. cbv beta. unfold auth_simple.
      assert (P : prefix "Bearer " (scheme ++ " " ++ t) = false).
      { destruct (prefix "Bearer " (scheme ++ " " ++ t)) eqn:P;
          [|reflexivity].
        exfalso. apply Hne. apply prefix_correct in P.
        destruct scheme as [|c1 [|c2 [|c3 [|c4 [|c5 [|c6 [|c7 s7]]]]]]];
          try discriminate Hl.
        simpl in P. congruence. }
      rewrite P. reflexivity.
  - intros self t e Ht V. subst simple. cbv beta. unfold auth_simple.
    change (prefix "Bearer " ("Bearer " ++ t)) with (prefix "" t).
    replace (prefix "" t) with true by (now destruct t).
    change (slice_from 7 ("Bearer " ++ t))
      with (string_of_list_ascii (list_ascii_of_string t)).
    rewrite string_of_list_ascii_of_string. cbn [truthy or_else].
    apply String.eqb_neq in Ht. rewrite Ht. cbn [negb].
    now rewrite V.
Qed.

End OtherChecks.

(** * Sanitizers *)

Lemma length_list_ascii s :
  length (list_ascii_of_string s) = String.length s.
Proof. induction s as [|c s IH]; simpl; congruence. Qed.

Lemma slice0_chars s n :
  exists k,
    list_ascii_of_string (slice0 s n) = firstn k (list_ascii_of_string s)
    /\ (0 <= n -> Z.of_nat k <= n).
Proof.
  unfold slice0. eexists. rewrite list_ascii_of_string_of_list_ascii.
  split; [reflexivity|]. intros Hn.
  destruct (Z.ltb_spec n 0); [lia|]. lia.
Qed.

Lemma remove_dangerous_chars s :
  list_ascii_of_string (remove_dangerous s)
  = filter (fun c => negb (is_dangerous c)) (list_ascii_of_string s).
Proof. unfold remove_dangerous. apply list_ascii_of_string_of_list_ascii. Qed.

Lemma forallb_firstn {A} (f : A -> bool) k l :
  forallb f l = true -> forallb f (firstn k l) = true.
Proof.
  rewrite !forallb_forall. intros H x I. apply H.
  rewrite <- (firstn_skipn k l). apply in_or_app. now left.
Qed.

Lemma forallb_filter_self {A} (f : A -> bool) l :
  forallb f (filter f l) = true.
Proof.
  apply forallb_forall. intros x I. now apply filter_In in I.
Qed.

(** What both sanitizers produce from a string. *)
Lemma sanitized_chars s n :
  forallb (fun c => negb (is_dangerous c))
    (list_ascii_of_string (slice0 (remove_dangerous (trim s)) n)) = true
  /\ (0 <= n ->
      Z.of_nat (String.length (slice0 (remove_dangerous (trim s)) n)) <= n).
Proof.
  destruct (slice0_chars (remove_dangerous (trim s)) n) as (k & E & Hk).
  split.
  - rewrite E, remove_dangerous_chars. apply forallb_firstn.
    apply (forallb_filter_self (fun c => negb (is_dangerous c))).
  - intros Hn. rewrite <- length_list_ascii, E.
    specialize (Hk Hn). rewrite length_firstn. lia.
Qed.

(** X16. [sanitizeString] of [utils/validation.ts] answers null for the
    empty string and for a result shorter than [minLength]; a string it
    returns holds none of the five removed characters, is at least
    [minLength] long and, for a [maxLength] that is not negative, at most
    [maxLength] long. *)
Theorem sanitizeString_result :
  (forall maxLength minLength, sanitizeString "" maxLength minLength = None)
  /\ (forall input maxLength minLength s,
        sanitizeString input maxLength minLength = Some s ->
        input <> ""
        /\ forallb (fun c => negb (is_dangerous c)) (list_ascii_of_string s)
           = true
        /\ minLength <= Z.of_nat (String.length s)
        /\ (0 <= maxLength -> Z.of_nat (String.length s) <= maxLength)).
Proof.
  split; [reflexivity|].
  intros input maxLength minLength s. unfold sanitizeString.
  destruct (String.eqb_spec input ""); [discriminate|]. cbv zeta.
  destruct (Z.leb_spec minLength
              (Z.of_nat (String.length
                           (slice0 (remove_dangerous (trim input)) maxLength))));
    [|discriminate].
  intros [= <-].
  destruct (sanitized_chars input maxLength) as [Hc Hl]. auto.
Qed.

Lemma Json_nested_ind (P : Json -> Prop) :
  P JNull ->
  (forall s, P (JString s)) ->
  (forall n, P (JNumber n)) ->
  (forall b, P (JBool b)) ->
  (forall items, Forall P items -> P (JArray items)) ->
  (forall entries, Forall (fun e => P (snd e)) entries -> P (JObject entries)) ->
  forall obj, P obj.
Proof.
  intros Hnull Hs Hn Hb Ha Ho. fix IH 1. intros [|s|n|b|items|entries].
  - exact Hnull.
  - apply Hs.
  - apply Hn.
  - apply Hb.
  - apply Ha. induction items as [|x xs IHxs]; constructor; [apply IH|exact IHxs].
  - apply Ho. induction entries as [|[k v] es IHes]; constructor;
      [apply IH|exact IHes].
Qed.

Lemma sanitize_key_clean s : clean (Sanitize.sanitizeString s) = true.
Proof.
  unfold clean, Sanitize.sanitizeString.
  destruct (sanitized_chars s 1000) as [Hc Hl]. rewrite Hc. simpl.
  apply Nat.leb_le. specialize (Hl ltac:(lia)). lia.
Qed.

Lemma set_entry_clean (P : string -> bool) key value entries :
  P key = true -> all_strings P value = true ->
  forallb (fun e => P (fst e) && all_strings P (snd e)) entries = true ->
  forallb (fun e => P (fst e) && all_strings P (snd e))
    (set_entry key value entries) = true.
Proof.
  intros Hk Hv. induction entries as [|[k v] es IH]; simpl.
  - now rewrite Hk, Hv.
  - intros H. apply andb_true_iff in H as [H1 H2].
    apply andb_true_iff in H1 as [H1 H1'].
    destruct (k =? key)%string; simpl.
    + now rewrite H1, Hv, H2.
    + now rewrite H1, H1', IH.
Qed.

Lemma assign_clean (P : string -> bool) key value entries :
  P key = true -> all_strings P value = true ->
  forallb (fun e => P (fst e) && all_strings P (snd e)) entries = true ->
  forallb (fun e => P (fst e) && all_strings P (snd e))
    (assign entries key value) = true.
Proof.
  intros Hk Hv He. unfold assign.
  destruct (key =? "__proto__")%string; [exact He|].
  now apply set_entry_clean.
Qed.

(** X17. After [sanitizeObject] every string of a request value, the keys
    of its objects included, is free of the five removed characters and at
    most 1000 characters long, however deep it sits. *)
Theorem sanitizeObject_cleans_every_string :
  forall obj, all_strings clean (Sanitize.sanitizeObject obj) = true.
Proof.
  induction obj as [|s|n|b|items IH|entries IH] using Json_nested_ind;
    simpl; try reflexivity.
  - apply sanitize_key_clean.
  - induction IH as [|x xs Hx _ IHxs]; simpl; [reflexivity|].
    now rewrite Hx, IHxs.
  - assert (Hacc : forallb (fun e : string * Json =>
                              clean (fst e) && all_strings clean (snd e)) []
                   = true) by reflexivity.
    revert Hacc. generalize (@nil (string * Json)) as sanitized.
    induction IH as [|[k v] es Hv _ IHes]; simpl; intros sanitized Hacc;
      [exact Hacc|].
    apply IHes. apply assign_clean; [apply sanitize_key_clean|exact Hv|exact Hacc].
Qed.

(** * Sort orders and pages *)

Lemma code_inj c c' : code c = code c' -> c = c'.
Proof.
  unfold code. intros H.
  rewrite <- (ascii_nat_embedding c), <- (ascii_nat_embedding c'). now rewrite H.
Qed.

Lemma list_ascii_app a b :
  list_ascii_of_string (a ++ b)
  = (list_ascii_of_string a ++ list_ascii_of_string b)%list.
Proof. induction a as [|c a IH]; simpl; congruence. Qed.

Lemma string_of_list_app a b :
  string_of_list_ascii (a ++ b)
  = string_of_list_ascii a ++ string_of_list_ascii b.
Proof. induction a as [|c a IH]; simpl; congruence. Qed.

Lemma append_empty_r s : s ++ "" = s.
Proof. induction s as [|c s IH]; simpl; congruence. Qed.

Lemma split_on_nonempty sep l : split_on sep l <> [].
Proof.
  destruct l as [|c l]; simpl; [discriminate|].
  destruct (code c =? code sep)%nat; [discriminate|].
  destruct (split_on sep l); discriminate.
Qed.

(** The first piece of a split and what is left of the string. *)
Lemma split_on_head sep l seg rest :
  split_on sep l = seg :: rest ->
  (rest = [] /\ l = seg)
  \/ (exists l', l = (seg ++ sep :: l')%list /\ split_on sep l' = rest).
Proof.
  revert seg rest. induction l as [|c l IH]; simpl; intros seg rest H.
  - injection H as <- <-. auto.
  - destruct (Nat.eqb_spec (code c) (code sep)) as [E|E].
    + injection H as <- <-. apply code_inj in E. subst c. right.
      exists l. auto.
    + destruct (split_on sep l) as [|s r] eqn:S;
        [now apply split_on_nonempty in S|].
      injection H as <- <-.
      destruct (IH s r eq_refl) as [[-> ->]|(l' & -> & Hr)]; [auto|].
      right. exists l'. auto.
Qed.

Lemma split_on_no_sep sep l :
  forallb (fun c => negb (code c =? code sep)%nat) l = true ->
  split_on sep l = [l].
Proof.
  induction l as [|c l IH]; simpl; [reflexivity|]. intros H.
  apply andb_true_iff in H as [Hc Hl]. apply negb_true_iff in Hc.
  now rewrite Hc, IH.
Qed.

Lemma split_on_app sep a b :
  forallb (fun c => negb (code c =? code sep)%nat) a = true ->
  split_on sep (a ++ sep :: b) = a :: split_on sep b.
Proof.
  induction a as [|c a IH]; simpl; intros H.
  - now rewrite Nat.eqb_refl.
  - apply andb_true_iff in H as [Hc Ha]. apply negb_true_iff in Hc.
    now rewrite Hc, IH.
Qed.

Lemma includes_asc_desc o :
  includes ["asc"; "desc"] o = true -> o = "asc" \/ o = "desc".
Proof.
  intros H. apply includes_In in H as [<-|[<-|[]]]; auto.
Qed.

(** X18. [validateSort] answers a pair only for a string that starts with
    a field of the allowed list, a colon and [asc] or [desc]; what follows
    a second colon is ignored.  A field of the list without a colon,
    followed by a colon and [asc] or [desc], is answered with that pair. *)
Theorem validateSort_whitelist :
  (forall sortBy allowedFields field order,
      validateSort sortBy allowedFields = Some (field, order) ->
      In field allowedFields
      /\ field <> ""
      /\ (order = "asc" \/ order = "desc")
      /\ exists rest,
           sortBy = Some (field ++ ":" ++ order ++ rest)
           /\ (rest = "" \/ exists rest', rest = ":" ++ rest'))
  /\ (forall allowedFields field order,
        In field allowedFields ->
        field <> "" ->
        forallb (fun c => negb (code c =? code ":"%char)%nat)
          (list_ascii_of_string field) = true ->
        order = "asc" \/ order = "desc" ->
        validateSort (Some (field ++ ":" ++ order)) allowedFields
        = Some (field, order)).
Proof.
  split.
  - intros [s|] allowed field order; unfold validateSort;
      cbn -[includes String.eqb]; [|discriminate].
    destruct (String.eqb_spec s ""); cbn -[includes String.eqb];
      [discriminate|].
    destruct (split_on ":"%char (list_ascii_of_string s)) as [|seg0 segs]
      eqn:S; cbn -[includes String.eqb]; [discriminate|].
    destruct (String.eqb_spec (string_of_list_ascii seg0) "");
      cbn -[includes String.eqb]; [discriminate|].
    destruct segs as [|seg1 more]; cbn -[includes String.eqb];
      [discriminate|].
    destruct (String.eqb_spec (string_of_list_ascii seg1) "");
      cbn -[includes String.eqb]; [discriminate|].
    destruct (includes allowed (string_of_list_ascii seg0)) eqn:Hf;
      cbn -[includes String.eqb]; [|discriminate].
    destruct (includes ["asc"; "desc"] (string_of_list_ascii seg1)) eqn:Ho;
      cbn -[includes String.eqb]; [|discriminate].
    intros [= <- <-]. apply includes_In in Hf.
    apply includes_asc_desc in Ho.
    repeat split; auto.
    apply split_on_head in S as [[[=] _]|(l' & E & S')].
    apply split_on_head in S' as [[-> ->]|(l'' & -> & _)].
    + exists "". split; [|auto].
      rewrite <- (string_of_list_ascii_of_string s), E.
      rewrite string_of_list_app. simpl.
      now rewrite append_empty_r.
    + exists (":" ++ string_of_list_ascii l'').
      split; [|right; exists (string_of_list_ascii l''); reflexivity].
      rewrite <- (string_of_list_ascii_of_string s), E.
      rewrite string_of_list_app. simpl. rewrite string_of_list_app.
      reflexivity.
  - intros allowed field order Hin Hne Hcolon Ho.
    apply includes_In in Hin.
    assert (Hok : includes ["asc"; "desc"] order = true).
    { destruct Ho as [-> | ->]; reflexivity. }
    assert (Hno : order <> "") by (destruct Ho as [-> | ->]; discriminate).
    assert (Hsplit : split_on ":"%char
                       (list_ascii_of_string (field ++ ":" ++ order))
                     = [list_ascii_of_string field;
                        list_ascii_of_string order]).
    { rewrite list_ascii_app. simpl.
      rewrite (split_on_app ":"%char _ _ Hcolon).
      destruct Ho as [-> | ->]; reflexivity. }
    assert (Hs : (field ++ ":" ++ order =? "")%string = false).
    { apply String.eqb_neq. destruct field; [contradiction|discriminate]. }
    unfold validateSort. cbv zeta. cbn [truthy or_else].
    rewrite Hs. cbn [negb]. rewrite !Hsplit. cbn [map nth_error].
    rewrite !string_of_list_ascii_of_string. cbn [truthy or_else].
    apply String.eqb_neq in Hne, Hno. rewrite Hne, Hno, Hin, Hok.
    reflexivity.
Qed.

Lemma parse_digits_uint d acc accd :
  Z.of_N (DecimalPos.Unsigned.of_lu accd) = acc ->
  parse_digits acc (list_ascii_of_string (NilEmpty.string_of_uint d))
  = Z.of_N (DecimalPos.Unsigned.of_lu (Decimal.revapp d accd)).
Proof.
  revert acc accd.
  induction d as [|d IH|d IH|d IH|d IH|d IH|d IH|d IH|d IH|d IH|d IH];
    intros acc accd H; simpl NilEmpty.string_of_uint;
    [simpl; symmetry; exact H|..];
    simpl list_ascii_of_string; cbn [parse_digits];
    match goal with
    | |- context [digit_of ?c] =>
        let v := eval vm_compute in (digit_of c) in
        change (digit_of c) with v
    end; cbv iota; apply IH; cbn [DecimalPos.Unsigned.of_lu]; subst acc; lia.
Qed.

Lemma string_of_uint_nonnil d :
  d <> Decimal.Nil -> NilZero.string_of_uint d = NilEmpty.string_of_uint d.
Proof. destruct d; [contradiction|..]; reflexivity. Qed.

Lemma uint_first_digit d :
  d <> Decimal.Nil ->
  exists c rest,
    list_ascii_of_string (NilEmpty.string_of_uint d) = c :: rest
    /\ is_space c = false /\ (code c =? 45)%nat = false
    /\ (code c =? 43)%nat = false /\ digit_of c <> None.
Proof.
  destruct d; [contradiction|..]; intros _; simpl;
    eexists _, _; (split; [reflexivity|]); repeat split; discriminate.
Qed.

Lemma trimStart_chars s c rest :
  list_ascii_of_string s = c :: rest -> is_space c = false -> trimStart s = s.
Proof.
  destruct s as [|c0 s0]; [reflexivity|]. simpl. intros [= -> _] H.
  now rewrite H.
Qed.

Lemma parseInt_of_number n : parseInt (String_of (QNum n)) = Some n.
Proof.
  assert (Hpos : forall p,
             parse_digits 0
               (list_ascii_of_string (NilEmpty.string_of_uint (Pos.to_uint p)))
             = Z.pos p).
  { intros p. rewrite (parse_digits_uint _ 0 Decimal.Nil eq_refl).
    change (Decimal.revapp (Pos.to_uint p) Decimal.Nil)
      with (Decimal.rev (Pos.to_uint p)).
    rewrite <- DecimalPos.Unsigned.of_uint_alt, DecimalPos.Unsigned.of_to.
    reflexivity. }
  destruct n as [|p|p]; [reflexivity| |];
    pose proof (DecimalPos.Unsigned.to_uint_nonnil p) as Hnil;
    destruct (uint_first_digit (Pos.to_uint p) Hnil)
      as (c & rest & E & Hsp & Hm & Hp & Hd);
    specialize (Hpos p);
    unfold String_of, parseInt; simpl Z.to_int; simpl NilZero.string_of_int;
    rewrite (string_of_uint_nonnil _ Hnil).
  - rewrite (trimStart_chars _ c rest E Hsp). rewrite E in *.
    rewrite Hm, Hp. destruct (digit_of c); [|contradiction].
    now rewrite Hpos.
  - cbn [trimStart]. change (is_space "-"%char) with false. cbv iota.
    cbn [list_ascii_of_string]. change (code "-"%char =? 45)%nat with true.
    cbv iota. rewrite E in *. destruct (digit_of c); [|contradiction].
    now rewrite Hpos.
Qed.

(** X19. [validatePagination] always answers a page of at least 1 and a
    limit between 1 and 100.  Integers a double holds exactly pass
    through [String] and [parseInt] unchanged: a page number below 1
    becomes 1, a limit of 0 becomes the default 10, any other limit is
    clamped to 1..100. *)
Theorem validatePagination_bounds :
  (forall page limit,
      1 <= fst (validatePagination page limit)
      /\ 1 <= snd (validatePagination page limit) <= 100)
  /\ (forall p l,
        Z.abs p <= MAX_SAFE -> Z.abs l <= MAX_SAFE ->
        validatePagination (Some (QNum p)) (Some (QNum l))
        = (Z.max 1 p, if l =? 0 then 10 else Z.min 100 (Z.max 1 l)))
  /\ validatePagination None None = (1, 10).
Proof.
  split; [|split].
  - intros page limit. unfold validatePagination. simpl. lia.
  - intros p l _ _. unfold validatePagination. f_equal.
    + unfold arg_or. destruct (Z.eqb_spec p 0) as [->|Hp]; [reflexivity|].
      rewrite parseInt_of_number. unfold num_or.
      apply Z.eqb_neq in Hp. now rewrite Hp.
    + unfold arg_or. destruct (Z.eqb_spec l 0) as [->|Hl]; [reflexivity|].
      rewrite parseInt_of_number. unfold num_or.
      apply Z.eqb_neq in Hl. now rewrite Hl.
  - reflexivity.
Qed.

(** * From issuance to the bearer middleware *)

Section Handover.

Variable config : Config.
Variable validateUuid : string -> bool.

Let jwt_secret := secret (jwt config).

(** What a successful [generateAuthTokens] did. *)
Lemma generateAuthTokens_Ok tid now user db pair db' :
  generateAuthTokens config tid now user db = (Ok pair, db') ->
  let accessTokenExpires :=
    add_minutes now (accessExpirationMinutes (jwt config)) in
  let refreshTokenExpires :=
    add_days now (refreshExpirationDays (jwt config)) in
  let accessToken :=
    Jws (TokenPayload.mk (User.id user) (unix now) (unix accessTokenExpires)
           ACCESS) jwt_secret in
  let refreshToken :=
    Jws (TokenPayload.mk (User.id user) (unix now) (unix refreshTokenExpires)
           REFRESH) jwt_secret in
  jwt_secret <> ""
  /\ has_token_id tid db = false
  /\ has_user_id (User.id user) db = true
  /\ pair = mkAuthTokens (mkTokenWithExpiry accessToken accessTokenExpires)
              (mkTokenWithExpiry refreshToken refreshTokenExpires)
  /\ db' = mkDb (users db)
             (tokens db ++ [Token.mk tid refreshToken REFRESH
                              refreshTokenExpires false now (User.id user)]).
Proof.
  unfold generateAuthTokens, generateToken, jwt_sign, saveToken, token_create;
    unfold_m. fold jwt_secret.
  destruct (String.eqb_spec jwt_secret ""); simpl; [discriminate|].
  destruct (has_token_id tid db); simpl; [discriminate|].
  destruct (has_user_id (User.id user) db); simpl; [|discriminate].
  intros [= <- <-]. auto.
Qed.

(** A valid access token of a stored user with the rights the route asks
    for gets through [auth]. *)
Lemma auth_resolves requiredRights now req payload row db :
  jwt_secret <> "" ->
  unix now < TokenPayload.exp payload ->
  TokenPayload.type payload = ACCESS ->
  isValidUuid validateUuid (TokenPayload.sub payload) = true ->
  find (fun u => (User.id u =? TokenPayload.sub payload)%string) (users db)
  = Some row ->
  (forall right, In right requiredRights ->
                 In right (permissions (User.role row))) ->
  auth config validateUuid requiredRights now req
    (Some (Jws payload jwt_secret)) db
  = (Ok (mkReq (params_userId req) (Some (select_public row)), Resolve), db).
Proof.
  intros Hs Hexp Hty Hv F Hp. unfold auth, passport_authenticate, bind at 1.
  fold jwt_secret. rewrite (jwt_verify_valid now payload jwt_secret Hs Hexp).
  unfold jwtVerify, try_catch, bind. rewrite Hty. simpl.
  rewrite getUserById_eq, Hv. simpl. rewrite F. simpl. unfold ret.
  unfold verifyCallback. cbv zeta.
  apply superset_spec in Hp. unfold permissions in Hp. simpl User.role.
  rewrite Hp. now destruct (length requiredRights =? 0)%nat.
Qed.


Lemma filter_one_id (doc : Token.t) l :
  NoDup (map Token.id l) -> In doc l ->
  S (length (filter (fun r => negb (Token.id r =? Token.id doc)%string) l))
  = length l.
Proof.
  induction l as [|a l IH]; simpl; intros Hn I; [contradiction|].
  inversion Hn as [|x xs Hx Hl]; subst.
  destruct (String.eqb_spec (Token.id a) (Token.id doc)) as [E|E]; simpl.
  - f_equal. rewrite (proj2 (filter_ext_in_iff _ (fun _ => true) l)).
    + clear. induction l; simpl; congruence.
    + intros r Ir. apply negb_true_iff, String.eqb_neq. intros E'.
      apply Hx. rewrite E, <- E'. now apply in_map.
  - f_equal. destruct I as [->|I]; [contradiction|]. now apply IH.
Qed.

(** X21. A successful [refreshAuth] hands the session over to a new pair
    of the same user.  The verified row is removed and one REFRESH row of
    its owner is added, with the new refresh token; the users are left
    alone, and with unique token ids the table keeps its size.  The new
    refresh token verifies until it expires, to a row of the owner of the
    old token, and the new access token gets that owner through [auth],
    with [req.user] the owner's stored row without the password. *)
Theorem rotation_hands_over :
  forall tid now refreshToken db pair db',
    NoDup (map Token.id (tokens db)) ->
    refreshAuth config validateUuid tid now refreshToken db = (Ok pair, db') ->
    exists doc owner,
      fst (verifyToken config now refreshToken REFRESH db) = Ok doc
      /\ find (fun u => (User.id u =? Token.userId doc)%string) (users db)
         = Some owner
      /\ users db' = users db
      /\ tokens db'
         = (filter (fun r => negb (Token.id r =? Token.id doc)%string)
              (tokens db)
            ++ [Token.mk tid (tw_token (refresh pair)) REFRESH
                  (tw_expires (refresh pair)) false now (Token.userId doc)])%list
      /\ length (tokens db') = length (tokens db)
      /\ (forall now',
            unix now' < unix (tw_expires (refresh pair)) ->
            exists doc',
              verifyToken config now' (tw_token (refresh pair)) REFRESH db'
              = (Ok doc', db')
              /\ Token.userId doc' = Token.userId doc)
      /\ (forall now' req,
            unix now' < unix (tw_expires (access pair)) ->
            auth config validateUuid [] now' req
              (Some (tw_token (access pair))) db'
            = (Ok (mkReq (params_userId req) (Some (select_public owner)),
                   Resolve), db')).
Proof.
  intros tid now rt db pair db' Hn H.
  destruct (refreshAuth_cases config validateUuid tid now rt db)
    as [E|(doc & user & Hv & Hu)]; [rewrite E in H; discriminate H|].
  destruct (getUserById validateUuid (Token.userId doc) db) as [r dbu] eqn:Hu0.
  simpl in Hu. subst r.
  pose proof Hu0 as Hfind. rewrite getUserById_eq in Hfind.
  apply getUserById_Some in Hu0 as (-> & Hid & Hvalid & Hhas).
  assert (Hu : fst (getUserById validateUuid (Token.userId doc) db)
               = Ok (Some user)).
  { rewrite getUserById_eq, Hvalid. simpl.
    rewrite Hvalid in Hfind. simpl in Hfind. now injection Hfind as ->. }
  destruct (refreshAuth_delete_then_issue config validateUuid tid now rt db
              doc user Hv Hu) as [I E].
  rewrite E in H.
  apply generateAuthTokens_Ok in H as (Hs & _ & _ & -> & ->).
  rewrite Hvalid in Hfind. simpl in Hfind.
  destruct (find _ (users db)) as [row|] eqn:F; [|discriminate].
  injection Hfind as Hrow.
  exists doc, row. simpl.
  split; [exact Hv|]. split; [exact F|]. split; [reflexivity|].
  split; [now rewrite Hid|]. split; [|split].
  - rewrite length_app. simpl. rewrite Nat.add_1_r.
    now apply filter_one_id.
  - intros now' Hexp.
    destruct (verifyToken_complete config now'
                (TokenPayload.mk (User.id user) (unix now)
                   (unix (add_days now (refreshExpirationDays (jwt config))))
                   REFRESH)
                REFRESH
                (mkDb (users db)
                   (filter (fun r => negb (Token.id r =? Token.id doc)%string)
                      (tokens db)
                    ++ [Token.mk tid
                          (Jws (TokenPayload.mk (User.id user) (unix now)
                                  (unix (add_days now
                                           (refreshExpirationDays (jwt config))))
                                  REFRESH) jwt_secret)
                          REFRESH
                          (add_days now (refreshExpirationDays (jwt config)))
                          false now (User.id user)]))
                (Token.mk tid
                   (Jws (TokenPayload.mk (User.id user) (unix now)
                           (unix (add_days now
                                    (refreshExpirationDays (jwt config))))
                           REFRESH) jwt_secret)
                   REFRESH (add_days now (refreshExpirationDays (jwt config)))
                   false now (User.id user)) Hs) as (d & V & _ & Hd);
      try reflexivity; [|exact Hexp|].
    + simpl. apply in_or_app. right. simpl. auto.
    + exists d. split; [exact V|]. simpl in Hd. now rewrite Hd.
  - intros now' req Hexp.
    apply (auth_resolves [] now' req _ row); auto.
    + simpl. now rewrite Hid.
    + simpl. rewrite Hid. exact F.
    + intros right [].
Qed.

End Handover.

(** * The shape of a valid email *)

Lemma split_at_first_Some p l a b :
  split_at_first p l = Some (a, b) ->
  exists c, l = (a ++ c :: b)%list /\ p c = true.
Proof.
  revert a b. induction l as [|x l IH]; simpl; intros a b H; [discriminate|].
  destruct (p x) eqn:Hx.
  - injection H as <- <-. exists x. auto.
  - destruct (split_at_first p l) as [[a' b']|]; [|discriminate].
    injection H as <- <-. destruct (IH a' b' eq_refl) as (c & -> & Hc).
    exists c. auto.
Qed.

Lemma split_at_first_app p a c b :
  forallb (fun x => negb (p x)) a = true -> p c = true ->
  split_at_first p (a ++ c :: b) = Some (a, b).
Proof.
  induction a as [|x a IH]; simpl; intros Ha Hc; [now rewrite Hc|].
  apply andb_true_iff in Ha as [Hx Ha]. apply negb_true_iff in Hx.
  now rewrite Hx, IH.
Qed.

Lemma is_atom_not_at c : is_atom c = true -> negb (code c =? 64)%nat = true.
Proof. unfold is_atom. intros H. now apply andb_true_iff in H. Qed.

(** X22. [isValidEmail] accepts exactly the non-empty strings of at most
    255 characters that, trimmed and in lower case, read local part, [@],
    domain, dot, ending, each of the three non-empty and free of white
    space and of [@]. *)
Theorem isValidEmail_shape :
  forall email,
    isValidEmail email = true <->
    email <> ""
    /\ (String.length email <= 255)%nat
    /\ exists loc dom tld,
         list_ascii_of_string (toLowerCase (trim email))
         = (loc ++ "@"%char :: dom ++ "."%char :: tld)%list
         /\ loc <> [] /\ dom <> [] /\ tld <> []
         /\ forallb is_atom loc = true
         /\ forallb is_atom dom = true
         /\ forallb is_atom tld = true.
Proof.
  intros email. unfold isValidEmail, emailRegex_test.
  set (l := list_ascii_of_string (toLowerCase (trim email))).
  rewrite !andb_true_iff, negb_true_iff, Nat.leb_le.
  split.
  - intros [[Hne H] Hlen]. apply String.eqb_neq in Hne.
    split; [exact Hne|]. split; [exact Hlen|].
    destruct (split_at_first _ l) as [[loc d]|] eqn:S; [|discriminate].
    apply split_at_first_Some in S as (c & E & Hc).
    apply Nat.eqb_eq in Hc. change 64%nat with (code "@"%char) in Hc.
    apply code_inj in Hc. subst c.
    rewrite !andb_true_iff in H. destruct H as [[[Hloc Ha] Hd] Hdot].
    destruct d as [|d0 t]; [discriminate|]. simpl tl in Hdot.
    apply existsb_exists in Hdot as (x & Ix & Hx).
    apply Nat.eqb_eq in Hx. change 46%nat with (code "."%char) in Hx.
    apply code_inj in Hx. subst x.
    apply in_split in Ix as (pre & post & Ep).
    assert (Ht : t <> []) by (intros ->; destruct pre; discriminate).
    pose proof (app_removelast_last "x"%char Ht) as Et. rewrite Ep in Et.
    exists loc, (d0 :: pre), (post ++ [last t "x"%char])%list.
    simpl in Hd. apply andb_true_iff in Hd as [Hd0 Hdt].
    rewrite Et, <- app_assoc in Hdt. simpl in Hdt.
    rewrite forallb_app in Hdt. apply andb_true_iff in Hdt as [Hpre Hrest].
    change (forallb is_atom (post ++ [last t "x"%char]) = true) in Hrest.
    rename Hrest into Hpost.
    repeat split.
    + rewrite E. simpl. do 3 f_equal. rewrite <- app_assoc in Et.
      exact Et.
    + intros ->. discriminate.
    + discriminate.
    + destruct post; discriminate.
    + exact Ha.
    + simpl. now rewrite Hd0, Hpre.
    + exact Hpost.
  - intros (Hne & Hlen & loc & dom & tld & E & Hl & Hd & Ht & Al & Ad & At).
    apply String.eqb_neq in Hne. repeat split; auto.
    rewrite E.
    rewrite (split_at_first_app (fun c => (code c =? 64)%nat) loc "@"%char);
      [|apply forallb_forall; intros x Ix; apply is_atom_not_at;
        now apply (proj1 (forallb_forall _ _) Al)
       |reflexivity].
    rewrite Al. rewrite forallb_app. simpl. rewrite Ad, At. simpl.
    destruct loc; [contradiction|]. simpl.
    destruct dom as [|d0 pre]; [contradiction|]. simpl.
    rewrite removelast_app by discriminate.
    rewrite existsb_app. simpl.
    destruct tld; [contradiction|]. simpl. apply orb_true_r.
Qed.

(** * More worked examples *)

Lemma verifyToken_sound_witness :
  fst (verifyToken test_config 1000500 alice_refresh REFRESH db_login)
  = Ok login_row
  /\ In login_row (tokens db_login)
  /\ Token.token login_row = alice_refresh
  /\ Token.type login_row = REFRESH
  /\ Token.blacklisted login_row = false.
Proof.
  assert (H : fst (verifyToken test_config 1000500 alice_refresh REFRESH
                     db_login) = Ok login_row) by reflexivity.
  destruct (verifyToken_sound test_config 1000500 alice_refresh REFRESH
              db_login login_row H) as (H1 & H2 & H3 & H4 & _).
  auto.
Defined.


Lemma consumed_token_is_refused_witness :
  resetPassword test_config uuid_validate bcrypt_stub 1000500 alice_reset
    "NewSecret1!" db_reset = (Ok tt, db_after_reset)
  /\ length (tokens db_later) = 3%nat
  /\ resetPassword test_config uuid_validate bcrypt_stub 1003000 alice_reset
       "Another1!" db_later
     = (Throw (ApiError UNAUTHORIZED "Password reset failed"), db_later)
  /\ verifyEmail test_config uuid_validate bcrypt_stub 1000500 alice_verify
       db_verify = (Ok tt, db_after_verify)
  /\ verifyEmail test_config uuid_validate bcrypt_stub 1000600 alice_verify
       db_after_verify
     = (Throw (ApiError UNAUTHORIZED "Email verification failed"),
        db_after_verify).
Proof.
  assert (E1 : resetPassword test_config uuid_validate bcrypt_stub 1000500
                 alice_reset "NewSecret1!" db_reset = (Ok tt, db_after_reset))
    by reflexivity.
  assert (E2 : verifyEmail test_config uuid_validate bcrypt_stub 1000500
                 alice_verify db_verify = (Ok tt, db_after_verify))
    by reflexivity.
  pose proof (consumed_token_is_refused test_config uuid_validate bcrypt_stub
                bcrypt_stub_compare) as (H1 & H2).
  split; [exact E1|]. split; [reflexivity|]. split.
  - apply (H1 1000500 _ _ "NewSecret1!" db_reset db_after_reset
             calls_after_reset E1); reflexivity.
  - split; [exact E2|].
    apply (H2 1000500 _ _ db_verify db_after_verify [] E2); reflexivity.
Defined.

(** The condition of X3 cannot be dropped: a reset token issued again for
    Alice in the second of the first one is the same string, and the token
    she has used already resets her password once more. *)
Example reset_token_signed_again_works_again :
  fst (generateResetPasswordToken test_config "tok6" 1000700
         "alice@example.com" db_after_reset) = Ok alice_reset
  /\ fst (resetPassword test_config uuid_validate bcrypt_stub 1000800
            alice_reset "Another1!"
            (snd (generateResetPasswordToken test_config "tok6" 1000700
                    "alice@example.com" db_after_reset))) = Ok tt.
Proof. split; reflexivity. Qed.

Lemma resetPassword_sets_password_witness :
  resetPassword test_config uuid_validate bcrypt_stub 1000500 alice_reset
    "NewSecret1!" db_reset = (Ok tt, db_after_reset)
  /\ map User.password (users db_after_reset)
     = [Some "$2a$08$NewSecret1!"; Some "$2a$08$Secret456!"]
  /\ map User.email (users db_after_reset) = map User.email (users db_reset).
Proof.
  assert (E : resetPassword test_config uuid_validate bcrypt_stub 1000500
                alice_reset "NewSecret1!" db_reset = (Ok tt, db_after_reset))
    by reflexivity.
  destruct (resetPassword_sets_password test_config uuid_validate bcrypt_stub
              _ _ _ _ _ E) as (payload & V & _ & U).
  split; [exact E|]. rewrite U. injection V as <-. split; reflexivity.
Defined.

Lemma verifyEmail_sets_flag_witness :
  verifyEmail test_config uuid_validate bcrypt_stub 1000500 alice_verify
    db_verify = (Ok tt, db_after_verify)
  /\ map User.isEmailVerified (users db_after_verify) = [true; true]
  /\ map User.password (users db_after_verify)
     = map User.password (users db_verify).
Proof.
  assert (E : verifyEmail test_config uuid_validate bcrypt_stub 1000500
                alice_verify db_verify = (Ok tt, db_after_verify))
    by reflexivity.
  destruct (verifyEmail_sets_flag test_config uuid_validate bcrypt_stub
              _ _ _ _ E) as (payload & V & _ & U).
  split; [exact E|]. rewrite U. injection V as <-. split; reflexivity.
Defined.

Lemma failed_call_changes_nothing_witness :
  all_or_nothing (CallLogout (NotJwt "no-such-token")) = true
  /\ fst (run test_config uuid_validate bcrypt_stub bcrypt_stub_compare
            (CallLogout (NotJwt "no-such-token")) db_login) = false
  /\ snd (run test_config uuid_validate bcrypt_stub bcrypt_stub_compare
            (CallLogout (NotJwt "no-such-token")) db_login) = db_login.
Proof.
  split; [reflexivity|]. split; [reflexivity|].
  apply (failed_call_changes_nothing test_config uuid_validate bcrypt_stub
           bcrypt_stub_compare (CallLogout (NotJwt "no-such-token")) db_login);
    reflexivity.
Defined.


Lemma auth_admits_only_live_users_witness :
  fst (auth test_config uuid_validate [] 1000500 (mkReq None None)
         (Some alice_access) db_login)
  = Ok (mkReq None (Some (select_public alice)), Resolve)
  /\ exists payload row,
       Some alice_access = Some (Jws payload test_secret)
       /\ TokenPayload.type payload = ACCESS
       /\ unix 1000500 < TokenPayload.exp payload
       /\ find (fun u => (User.id u =? TokenPayload.sub payload)%string)
            (users db_login) = Some row
       /\ req_user (mkReq None (Some (select_public alice)))
          = Some (select_public row).
Proof.
  assert (E : fst (auth test_config uuid_validate [] 1000500 (mkReq None None)
                     (Some alice_access) db_login)
              = Ok (mkReq None (Some (select_public alice)), Resolve))
    by reflexivity.
  split; [exact E|].
  destruct (auth_admits_only_live_users test_config uuid_validate []
              1000500 (mkReq None None) (Some alice_access) db_login)
    as (_ & _ & H).
  apply H. left. exact E.
Defined.

Lemma register_then_login_witness :
  exists u,
    createUser bcrypt_stub carol_id 7 carol_body db_users = (Ok u, db_carol)
    /\ loginUserWithEmailAndPassword bcrypt_stub_compare "Carol@Example.COM"
         "Secret789!" db_carol = (Ok u, db_carol)
    /\ getUserByEmail "Carol@Example.COM" db_carol = (Ok (Some u), db_carol)
    /\ getUserById uuid_validate carol_id db_carol = (Ok (Some u), db_carol).
Proof.
  destruct (createUser bcrypt_stub carol_id 7 carol_body db_users)
    as [[u|e] db'] eqn:E; [|discriminate E].
  assert (Edb : db' = db_carol)
    by (unfold db_carol; rewrite E; reflexivity).
  subst db'. exists u. split; [reflexivity|].
  destruct (register_then_login uuid_validate bcrypt_stub bcrypt_stub_compare
              carol_id 7 carol_body db_users u db_carol "Carol@Example.COM")
    as (H1 & H2 & H3).
  - intro password. apply String.eqb_refl.
  - exact E.
  - reflexivity.
  - split; [exact H1|]. split; [exact H2|]. apply H3. reflexivity.
Defined.

Lemma mixed_case_email_is_unreachable_witness :
  exists u,
    createUser bcrypt_stub dora_id 7 dora_body db_users = (Ok u, db_dora)
    /\ User.id u = dora_id
    /\ (forall email password u',
          fst (loginUserWithEmailAndPassword bcrypt_stub_compare email
                 password db_dora) = Ok u' -> User.id u' <> dora_id)
    /\ (forall email u',
          fst (getUserByEmail email db_dora) = Ok (Some u') ->
          User.id u' <> dora_id).
Proof.
  destruct (createUser bcrypt_stub dora_id 7 dora_body db_users)
    as [[u|e] db'] eqn:E; [|discriminate E].
  assert (Edb : db' = db_dora)
    by (unfold db_dora; rewrite E; reflexivity).
  subst db'. exists u. split; [reflexivity|].
  split.
  { assert (Eu : fst (createUser bcrypt_stub dora_id 7 dora_body db_users)
                 = Ok u) by (rewrite E; reflexivity).
    vm_compute in Eu. injection Eu as <-. reflexivity. }
  assert (Hcase : toLowerCase (cu_email dora_body) <> cu_email dora_body)
    by discriminate.
  pose proof (mixed_case_email_is_unreachable test_config bcrypt_stub
                bcrypt_stub_compare dora_id 7 dora_body db_users u db_dora
                E Hcase) as H.
  split.
  - intros email. exact (proj1 (H email)).
  - intros email. exact (proj1 (proj2 (H email))).
Defined.

Lemma login_reads_and_fails_alike_witness :
  loginUserWithEmailAndPassword bcrypt_stub_compare "Alice@Example.com"
    "not-her-password" db_login
  = (Throw (ApiError UNAUTHORIZED "Incorrect email or password"), db_login)
  /\ loginUserWithEmailAndPassword bcrypt_stub_compare "nobody@example.com"
       "Secret123!" db_login
     = (Throw (ApiError UNAUTHORIZED "Incorrect email or password"),
        db_login)
  /\ loginUserWithEmailAndPassword bcrypt_stub_compare "Alice@Example.com"
       "Secret123!" db_login
     = (Ok (select_public alice), db_login).
Proof.
  split; [|split].
  - apply (proj1 (proj2 (login_reads_and_fails_alike bcrypt_stub_compare
                           "Alice@Example.com" "not-her-password" db_login))
             alice "$2a$08$Secret123!"); reflexivity.
  - apply (proj1 (login_reads_and_fails_alike bcrypt_stub_compare
                    "nobody@example.com" "Secret123!" db_login)).
    reflexivity.
  - apply (proj1 (proj2 (proj2 (login_reads_and_fails_alike
                                  bcrypt_stub_compare "Alice@Example.com"
                                  "Secret123!" db_login)))
             alice "$2a$08$Secret123!"); reflexivity.
Defined.

Lemma deleteUserById_removes_user_and_tokens_witness :
  deleteUserById uuid_validate alice_id db_login = (Ok alice, mkDb [bob] [])
  /\ auth test_config uuid_validate [] 1000500 (mkReq None None)
       (Some alice_access) (mkDb [bob] [])
     = (Ok (mkReq None None,
            Reject (ApiError UNAUTHORIZED "Please authenticate")),
        mkDb [bob] [])
  /\ deleteUserById uuid_validate "17" db_login
     = (Throw (ApiError BAD_REQUEST "Invalid user ID format"), db_login)
  /\ deleteUserById uuid_validate alice_id (mkDb [bob] [])
     = (Throw (ApiError NOT_FOUND "User not found"), mkDb [bob] []).
Proof.
  assert (E : deleteUserById uuid_validate alice_id db_login
              = (Ok alice, mkDb [bob] [])) by reflexivity.
  destruct (deleteUserById_removes_user_and_tokens test_config uuid_validate)
    as (H1 & H2 & H3).
  split; [exact E|].
  destruct (H3 alice_id db_login alice (mkDb [bob] []) E)
    as (_ & _ & _ & _ & Hgone).
  split.
  - destruct (Hgone 1000500
                (TokenPayload.mk alice_id (unix 1000000)
                   (unix (add_minutes 1000000 30)) ACCESS)
                test_secret eq_refl) as [_ Ha].
    exact (proj1 (Ha [] (mkReq None None))).
  - split; [apply H1; reflexivity|apply H2; reflexivity].
Defined.

Lemma requireSelfOrAdmin_guard_witness :
  requireSelfOrAdmin uuid_validate
    (mkReq (Some alice_id) (Some (select_public alice))) = None
  /\ requireSelfOrAdmin uuid_validate (mkReq (Some alice_id) None)
     = Some (ApiError UNAUTHORIZED "Please authenticate")
  /\ requireSelfOrAdmin uuid_validate
       (mkReq (Some "17") (Some (select_public alice)))
     = Some (ApiError BAD_REQUEST "Invalid user ID format").
Proof.
  split; [|split].
  - apply (requireSelfOrAdmin_guard uuid_validate).
    exists (select_public alice). split; [reflexivity|].
    right. exists alice_id. split; [reflexivity|].
    split; [reflexivity|]. right. reflexivity.
  - apply (requireSelfOrAdmin_guard uuid_validate). reflexivity.
  - apply (proj2 (proj2 (requireSelfOrAdmin_guard uuid_validate
                           (mkReq (Some "17") (Some (select_public alice)))))
             (select_public alice) "17");
      [reflexivity|reflexivity|discriminate|reflexivity].
Defined.

Lemma auth_simple_agrees_with_passport_witness :
  (* Alice reads her own record through either middleware *)
  fst (authWithSelfAccess test_config uuid_validate ["manageUsers"] 1000500
         (mkReq (Some alice_id) None)
         (bearer_of example_token_of_string
            (Some "Bearer alice.access.token")) db_login)
  = Ok (mkReq (Some alice_id) (Some (select_public alice)), Resolve)
  /\ fst (auth_simple test_config uuid_validate example_token_of_string
            (mkAuthOptions (Some ["manageUsers"]) (Some true) None) 1000500
            (mkReq (Some alice_id) None) (Some "Bearer alice.access.token")
            db_login)
     = Ok (mkReq (Some alice_id) (Some (select_public alice)), None)
  (* the scheme in small letters *)
  /\ bearer_of example_token_of_string (Some "bearer alice.access.token")
     = Some alice_access
  /\ fst (auth_simple test_config uuid_validate example_token_of_string
            (mkAuthOptions (Some ["manageUsers"]) (Some true) None) 1000500
            (mkReq (Some alice_id) None) (Some "bearer alice.access.token")
            db_login)
     = Ok (mkReq (Some alice_id) None,
           Some (ApiError UNAUTHORIZED "Access token required"))
  (* strings that are no tokens *)
  /\ fst (auth_simple test_config uuid_validate example_token_of_string
            (mkAuthOptions (Some ["manageUsers"]) (Some false) None) 1000500
            (mkReq (Some alice_id) None) (Some "Bearer garbage") db_login)
     = Ok (mkReq (Some alice_id) None,
           Some (JsonWebTokenError "jwt malformed"))
  /\ fst (auth_simple test_config uuid_validate example_token_of_string
            (mkAuthOptions (Some ["manageUsers"]) (Some false) None) 1000500
            (mkReq (Some alice_id) None) (Some "Bearer a.b.c") db_login)
     = Ok (mkReq (Some alice_id) None,
           Some (JsonWebTokenError "invalid token")).
Proof.
  pose proof (auth_simple_agrees_with_passport test_config uuid_validate
                example_token_of_string ["manageUsers"] 1000500
                (mkReq (Some alice_id) None) db_login)
    as (_ & Hsame & Hscheme & Herr).
  assert (E : fst (authWithSelfAccess test_config uuid_validate
                     ["manageUsers"] 1000500 (mkReq (Some alice_id) None)
                     (bearer_of example_token_of_string
                        (Some "Bearer alice.access.token")) db_login)
              = Ok (mkReq (Some alice_id) (Some (select_public alice)),
                    Resolve)) by reflexivity.
  split; [exact E|]. split.
  { apply (proj2 (Hsame "alice.access.token" _ ltac:(discriminate) eq_refl)).
    exact E. }
  destruct (Hscheme "bearer" "alice.access.token" true eq_refl
              ltac:(discriminate) ltac:(discriminate) eq_refl) as [Hb Hs].
  split; [exact Hb|]. split; [exact Hs|]. split.
  - apply (Herr false "garbage"); [discriminate|reflexivity].
  - apply (Herr false "a.b.c"); [discriminate|reflexivity].
Defined.

Lemma sanitizeString_result_witness :
  sanitizeString "  <b>hi</b> " 1000 0 = Some "bhi/b"
  /\ forallb (fun c => negb (is_dangerous c)) (list_ascii_of_string "bhi/b")
     = true
  /\ Z.of_nat (String.length "bhi/b") <= 1000.
Proof.
  assert (E : sanitizeString "  <b>hi</b> " 1000 0 = Some "bhi/b")
    by reflexivity.
  destruct (proj2 sanitizeString_result _ _ _ _ E) as (_ & H1 & _ & H2).
  split; [exact E|]. split; [exact H1|]. apply H2. lia.
Defined.

Lemma validateSort_whitelist_witness :
  validateSort (Some "name:desc") ["name"; "email"] = Some ("name", "desc")
  /\ In "name" ["name"; "email"]
  /\ validateSort (Some ("email" ++ ":" ++ "asc")) ["name"; "email"]
     = Some ("email", "asc").
Proof.
  assert (E : validateSort (Some "name:desc") ["name"; "email"]
              = Some ("name", "desc")) by reflexivity.
  destruct validateSort_whitelist as [H1 H2].
  split; [exact E|]. split.
  - exact (proj1 (H1 _ _ _ _ E)).
  - apply H2; [simpl; auto|discriminate|reflexivity|left; reflexivity].
Defined.


Lemma rotation_hands_over_witness :
  exists pair db',
    refreshAuth test_config uuid_validate "tok2" 1000500 alice_refresh
      db_login = (Ok pair, db')
    /\ users db' = users db_login
    /\ tokens db'
       = [Token.mk "tok2" (tw_token (refresh pair)) REFRESH
            (tw_expires (refresh pair)) false 1000500 alice_id]
    /\ (exists doc',
          verifyToken test_config 1000900 (tw_token (refresh pair)) REFRESH
            db' = (Ok doc', db')
          /\ Token.userId doc' = alice_id)
    /\ auth test_config uuid_validate [] 1000900 (mkReq None None)
         (Some (tw_token (access pair))) db'
       = (Ok (mkReq None (Some (select_public alice)), Resolve), db').
Proof.
  destruct (refreshAuth test_config uuid_validate "tok2" 1000500
              alice_refresh db_login) as [[pair|e] db'] eqn:E;
    [|discriminate E].
  exists pair, db'. split; [reflexivity|].
  assert (Hnd : NoDup (map Token.id (tokens db_login))).
  { rewrite db_login_eq. simpl. constructor; [intros []|constructor]. }
  destruct (rotation_hands_over test_config uuid_validate "tok2" 1000500
              alice_refresh db_login pair db' Hnd E)
    as (doc & owner & Hv & Ho & H1 & H2 & _ & H3 & H4).
  assert (Hdoc : doc = login_row).
  { assert (V : fst (verifyToken test_config 1000500 alice_refresh REFRESH
                       db_login) = Ok login_row) by reflexivity.
    congruence. }
  subst doc.
  assert (Hown : owner = alice).
  { assert (F : find (fun u => (User.id u =? Token.userId login_row)%string)
                  (users db_login) = Some alice) by reflexivity.
    congruence. }
  subst owner.
  assert (Ep : pair = fst (match fst (refreshAuth test_config uuid_validate
                                   "tok2" 1000500 alice_refresh db_login) with
                           | Ok p => (p, tt) | Throw _ => (pair, tt) end))
    by (rewrite E; reflexivity).
  split; [exact H1|]. split; [exact H2|]. split.
  - apply H3. rewrite Ep. reflexivity.
  - apply H4. rewrite Ep. reflexivity.
Defined.

Lemma isValidEmail_shape_witness :
  isValidEmail "Alice@Example.com" = true
  /\ isValidEmail "alice.example.com" = false.
Proof.
  split.
  - apply isValidEmail_shape. split; [discriminate|].
    split; [simpl; lia|].
    exists (list_ascii_of_string "alice"), (list_ascii_of_string "example"),
      (list_ascii_of_string "com").
    repeat split; discriminate || reflexivity.
  - destruct (isValidEmail "alice.example.com") eqn:E; [|reflexivity].
    apply isValidEmail_shape in E.
    destruct E as (_ & _ & loc & dom & tld & E & _ & _ & _ & Hl & Hd & Ht).
    exfalso.
    assert (Hat : In "@"%char
                    (list_ascii_of_string
                       (toLowerCase (trim "alice.example.com"))))
      by (rewrite E; apply in_or_app; right; left; reflexivity).
    vm_compute in Hat.
    repeat (destruct Hat as [Hat|Hat]; [discriminate Hat|]). exact Hat.
Defined.

Lemma validatePagination_bounds_witness :
  validatePagination (Some (QNum (-3))) (Some (QNum 250)) = (1, 100)
  /\ validatePagination (Some (QNum 7)) (Some (QNum 0)) = (7, 10)
  /\ 1 <= snd (validatePagination (Some (QStr "abc")) (Some (QStr "-4")))
     <= 100.
Proof.
  destruct validatePagination_bounds as (H1 & H2 & _).
  split; [|split].
  - apply (H2 (-3) 250); unfold MAX_SAFE; simpl; lia.
  - apply (H2 7 0); unfold MAX_SAFE; simpl; lia.
  - apply H1.
Defined.

(** C6, as stated, fails.  After her login Alice has one refresh row;
    [deleteUserById], which is none of the four consumption operations,
    succeeds for her id and the row is gone with her. *)
Lemma deleteUserById_deletes_token_rows :
  tokens db_login = [login_row]
  /\ removes_tokens (CallDeleteUserById alice_id) = true
  /\ deleteUserById uuid_validate alice_id db_login
     = (Ok alice, mkDb [bob] [])
  /\ run test_config uuid_validate bcrypt_stub bcrypt_stub_compare
       (CallDeleteUserById alice_id) db_login = (true, mkDb [bob] [])
  /\ ~ In login_row
         (tokens (snd (deleteUserById uuid_validate alice_id db_login))).
Proof.
  split; [reflexivity|]. split; [reflexivity|]. split; [reflexivity|].
  split; [reflexivity|]. intros [].
Qed.

Lemma verifyToken_changes_nothing_witness :
  removes_tokens (CallGenerateResetPasswordToken "tok3" 1000000
                    "alice@example.com") = false
  /\ (exists l,
        tokens (snd (run test_config uuid_validate bcrypt_stub
                       bcrypt_stub_compare
                       (CallGenerateResetPasswordToken "tok3" 1000000
                          "alice@example.com") db_login))
        = (tokens db_login ++ l)%list)
  /\ removes_tokens (CallUpdateUserById alice_id 1000000
                       (mkUpdate (Some "Alice B.") None None None None))
     = false
  /\ (exists l,
        tokens (snd (run test_config uuid_validate bcrypt_stub
                       bcrypt_stub_compare
                       (CallUpdateUserById alice_id 1000000
                          (mkUpdate (Some "Alice B.") None None None None))
                       db_login))
        = (tokens db_login ++ l)%list).
Proof.
  destruct (verifyToken_changes_nothing test_config uuid_validate bcrypt_stub
              bcrypt_stub_compare) as (_ & _ & _ & _ & _ & H).
  split; [reflexivity|]. split; [apply H; reflexivity|].
  split; [reflexivity|]. apply H. reflexivity.
Defined.
